(** * The wind measurement list of XCSoar

    A shallow embedding of [Common/Source/windmeasurementlist.cpp] and
    [Common/Header/windmeasurementlist.h]: the bounded store of wind
    samples ([addMeasurement], [getLeastImportantItem]) and the weighted
    wind estimate ([getWind]).

    Numbers are modelled as the program has them:
    - [double] is IEEE 754 binary64, the primitive type [float] with the
      operations of [PrimFloat] (round to nearest, ties to even);
    - [int] and [long] are 32-bit two's complement integers (the program is
      built for Windows CE and Win32, where [long] has 32 bits), carried
      as [Z] with the wrap-around written out ([int_wrap]);
    - [unsigned int] is carried as [Z] reduced modulo 2^32 ([uint_wrap]).

    The store is modelled twice: as the list of the samples in the
    occupied slots, and, for [new] and [delete], as a list of pointers
    into a free store ([mem_addMeasurement], [mem_destroy]). *)

From stdpp Require Import list gmap.
From Stdlib Require Import ZArith Lia Floats.

Local Open Scope Z_scope.

(** ** Machine integers *)

Definition INT_MIN : Z := - 2 ^ 31.
Definition INT_MAX : Z := 2 ^ 31 - 1.
Definition UINT_MODULUS : Z := 2 ^ 32.

(** The value a signed 32-bit register holds after an operation whose
    mathematical result is [z]. *)
Definition int_wrap (z : Z) : Z := (z + 2 ^ 31) mod 2 ^ 32 - 2 ^ 31.

(** The value an [unsigned int] holds after an operation, or a conversion
    from [int], whose mathematical result is [z]. *)
Definition uint_wrap (z : Z) : Z := z mod 2 ^ 32.

(** ** Conversions between integers and doubles *)

(** [(double) z]: the binary64 number nearest to [z] (every 32-bit integer
    is represented exactly). *)
Definition double_of_Z (z : Z) : float :=
  SF2Prim (binary_normalize prec emax z 0 false).

(** The integer part of a finite double, rounded toward zero; [None] for
    an infinity or a NaN. *)
Definition SFtrunc (f : spec_float) : option Z :=
  match f with
  | S754_zero _ => Some 0
  | S754_finite s m e =>
      let a := match e with
               | Zneg k => Z.shiftr (Zpos m) (Zpos k)
               | _ => Z.shiftl (Zpos m) e
               end in
      Some (if s then - a else a)
  | S754_infinity _ | S754_nan => None
  end.

(** [(int) d]: truncation toward zero.  The conversion is undefined in C++
    when the truncated value does not fit in an [int]; the model returns
    what the x86 conversion instruction leaves there, [INT_MIN]. *)
Definition double_to_int (d : float) : Z :=
  match SFtrunc (Prim2SF d) with
  | Some z => if (INT_MIN <=? z) && (z <=? INT_MAX) then z else INT_MIN
  | None => INT_MIN
  end.

(** [(long) d], with [long] as wide as [int]. *)
Definition double_to_long (d : float) : Z := double_to_int d.

(** The integer nearest to a finite double, a tie going to the larger
    integer; [None] for an infinity or a NaN. *)
Definition SFnearest (f : spec_float) : option Z :=
  match f with
  | S754_zero _ => Some 0
  | S754_finite s m e =>
      let v := if s then Zneg m else Zpos m in
      match e with
      | Zneg k => Some (Z.shiftr (2 * v + 2 ^ Zpos k) (Zpos k + 1))
      | _ => Some (Z.shiftl v e)
      end
  | S754_infinity _ | S754_nan => None
  end.

(** Modelled from the spec: [iround] is declared [extern int iround(double)]
    in windmeasurementlist.cpp and its definition is not among the sources.
    The spec describes it as rounding to the nearest integer ("each factor
    rounded to the nearest integer before multiplication").  Out of the
    range of [int] the result is [INT_MIN], as for [double_to_int]. *)
Definition iround (d : float) : Z :=
  match SFnearest (Prim2SF d) with
  | Some z => if (INT_MIN <=? z) && (z <=? INT_MAX) then z else INT_MIN
  | None => INT_MIN
  end.

(** ** Data *)

(** Modelled from the spec: [vector.h] is not among the sources.  The
    program reads and writes the two [double] components [x] and [y]. *)
Record Vector : Set := mkVector { x : float; y : float }.

(** [struct WindMeasurement]. *)
Record WindMeasurement : Set := mkWindMeasurement {
  vector : Vector;
  quality : Z;        (* int *)
  time : Z;           (* long *)
  altitude : float    (* double *)
}.

Definition MAX_MEASUREMENTS : Z := 200.

(** [class WindMeasurementList]: the array [measurementlist] of pointers
    to samples together with the counter [nummeasurementlist].  The slots
    [0 .. nummeasurementlist - 1] are the occupied ones, and the program
    never reads another slot; the embedding keeps the occupied slots, in
    index order, as a list, and the counter is its length. *)
Record WindMeasurementList : Set := mkWindMeasurementList {
  measurementlist : list WindMeasurement
}.

Definition nummeasurementlist (s : WindMeasurementList) : Z :=
  Z.of_nat (length (measurementlist s)).

(** The constructor: [nummeasurementlist = 0]. *)
Definition WindMeasurementList_new : WindMeasurementList :=
  mkWindMeasurementList [].

(** ** getLeastImportantItem *)

(** The body of the loop computes
    [score = 600*(6-quality); score += (int)(Time - (double)time)]. *)
Definition item_score (Time : float) (m : WindMeasurement) : Z :=
  let score := int_wrap (600 * int_wrap (6 - quality m)) in
  int_wrap (score + double_to_int (Time - double_of_Z (time m))%float).

(** [for (int i = founditem; i >= 0; i--)], with [count = i + 1] slots
    still to visit. *)
Fixpoint getLeastImportantItem_loop (Time : float)
    (l : list WindMeasurement) (count : nat) (maxscore founditem : Z) : Z :=
  match count with
  | O => founditem
  | S i =>
      match l !! i with
      | Some m =>
          let score := item_score Time m in
          if score >? maxscore
          then getLeastImportantItem_loop Time l i score (Z.of_nat i)
          else getLeastImportantItem_loop Time l i maxscore founditem
      | None => getLeastImportantItem_loop Time l i maxscore founditem
      end
  end.

Definition getLeastImportantItem (Time : float) (s : WindMeasurementList) : Z :=
  let maxscore := 0 in
  let founditem := uint_wrap (nummeasurementlist s - 1) in
  getLeastImportantItem_loop Time (measurementlist s)
    (Z.to_nat (int_wrap founditem + 1)) maxscore founditem.

(** ** addMeasurement *)

(** The sample built by [new WindMeasurement] and the five assignments. *)
Definition new_measurement (Time : float) (v : Vector) (alt : float)
    (q : Z) : WindMeasurement :=
  {| vector := {| x := x v; y := y v |};
     quality := q;
     altitude := alt;
     time := double_to_long Time |}.

(** The slot the new sample goes to: the evicted one when the store is
    full, the first free one otherwise. *)
Definition insert_index (Time : float) (s : WindMeasurementList) : Z :=
  if nummeasurementlist s =? MAX_MEASUREMENTS
  then getLeastImportantItem Time s
  else nummeasurementlist s.

(** [measurementlist[index] = wind]: an occupied slot is overwritten, the
    first free slot extends the occupied part. *)
Definition slot_store (index : Z) (wind : WindMeasurement)
    (l : list WindMeasurement) : list WindMeasurement :=
  if index =? Z.of_nat (length l)
  then l ++ [wind]
  else <[Z.to_nat index := wind]> l.

Definition addMeasurement (Time : float) (v : Vector) (alt : float)
    (q : Z) (s : WindMeasurementList) : WindMeasurementList :=
  let index := insert_index Time s in
  let wind := new_measurement Time v alt q in
  {| measurementlist := slot_store index wind (measurementlist s) |}.

(** ** getWind *)

Definition REL_FACTOR_QUALITY : Z := 100.
Definition REL_FACTOR_ALTITUDE : Z := 100.
Definition REL_FACTOR_TIME : Z := 200.
Definition TIME_RANGE : Z := 36.

Definition altRange : Z := 1000.
Definition timeRange : Z := TIME_RANGE * 100.

(** The literal [0.0025], that is the double nearest to it. *)
Definition k : float := 0x1.47ae147ae147bp-9%float.

(** [altdiff = (alt - m->altitude)*1.0/altRange]. *)
Definition altdiff (alt : float) (m : WindMeasurement) : float :=
  ((alt - altitude m) * 1 / double_of_Z altRange)%float.

(** [timediff = fabs((double)(now - m->time)/timeRange)]; the difference
    is taken in [long]. *)
Definition timediff (now : Z) (m : WindMeasurement) : float :=
  abs (double_of_Z (int_wrap (now - time m)) / double_of_Z timeRange)%float.

(** [(fabs(altdiff) < 1.0) && (timediff < 1.0)]. *)
Definition in_range (now : Z) (alt : float) (m : WindMeasurement) : bool :=
  (abs (altdiff alt m) <? 1)%float && (timediff now m <? 1)%float.

(** [q_quality = m->quality * REL_FACTOR_QUALITY / 5], computed in [int]
    and stored in an [unsigned int]. *)
Definition q_quality (m : WindMeasurement) : Z :=
  uint_wrap (Z.quot (int_wrap (quality m * REL_FACTOR_QUALITY)) 5).

(** [a_quality = iround(((2.0/(altdiff*altdiff+1.0))-1.0) * REL_FACTOR_ALTITUDE)]. *)
Definition a_quality (alt : float) (m : WindMeasurement) : Z :=
  let altdiff := altdiff alt m in
  uint_wrap (iround (((2 / (altdiff * altdiff + 1)) - 1)
                     * double_of_Z REL_FACTOR_ALTITUDE)%float).

(** [t_quality = iround(k*(1.0-timediff)/(timediff*timediff+k) * REL_FACTOR_TIME)]. *)
Definition t_quality (now : Z) (m : WindMeasurement) : Z :=
  let timediff := timediff now m in
  uint_wrap (iround (k * (1 - timediff) / (timediff * timediff + k)
                     * double_of_Z REL_FACTOR_TIME)%float).

(** [quality = q_quality * (a_quality * t_quality)], in [unsigned int]. *)
Definition sample_quality (now : Z) (alt : float) (m : WindMeasurement) : Z :=
  uint_wrap (q_quality m * uint_wrap (a_quality alt m * t_quality now m)).

(** The variables the loop of [getWind] updates. *)
Record getWind_state : Set := mkState {
  result : Vector;
  total_quality : Z    (* unsigned int *)
}.

(** One turn of the loop, for the sample [m]. *)
Definition getWind_step (now : Z) (alt : float) (st : getWind_state)
    (m : WindMeasurement) : getWind_state :=
  if in_range now alt m then
    let quality := sample_quality now alt m in
    {| result :=
         {| x := (x (result st) + x (vector m) * double_of_Z quality)%float;
            y := (y (result st) + y (vector m) * double_of_Z quality)%float |};
       total_quality := uint_wrap (total_quality st + quality) |}
  else st.

(** The state before the loop: [result.x = 0; result.y = 0; total_quality = 0]. *)
Definition getWind_init : getWind_state :=
  {| result := {| x := 0; y := 0 |}; total_quality := 0 |}.

Definition getWind_loop (now : Z) (alt : float) (l : list WindMeasurement)
    (st : getWind_state) : getWind_state :=
  fold_left (getWind_step now alt) l st.

(** [getWind] returns the vector and the flag it writes through [found]. *)
Definition getWind (Time alt : float) (s : WindMeasurementList) : Vector * bool :=
  let now := double_to_int Time in
  let st := getWind_loop now alt (measurementlist s) getWind_init in
  if total_quality st >? 0 then
    let d := double_of_Z (int_wrap (total_quality st)) in
    ({| x := (x (result st) / d)%float; y := (y (result st) / d)%float |}, true)
  else (result st, false).

(** ** Sequences of calls *)

(** The arguments of one call of [addMeasurement]. *)
Record call : Set := mkCall {
  call_Time : float;
  call_vector : Vector;
  call_alt : float;
  call_quality : Z
}.

Definition do_call (s : WindMeasurementList) (c : call) : WindMeasurementList :=
  addMeasurement (call_Time c) (call_vector c) (call_alt c) (call_quality c) s.

(** The store after the calls [cs], in order, on a new store. *)
Definition run (cs : list call) : WindMeasurementList :=
  fold_left do_call cs WindMeasurementList_new.


(** ** The store with its pointers *)

(** [measurementlist] is an array of pointers: each sample is allocated
    by [new WindMeasurement] in [addMeasurement] and released by [delete]
    on eviction and in the destructor.  The free store maps the
    addresses that are allocated to the samples they hold. *)
Abbreviation address := positive.
Abbreviation free_store := (gmap address WindMeasurement).

(** The object together with the free store: the free store, and the
    pointers in the slots [0 .. nummeasurementlist - 1]. *)
Definition mem_state : Type := (free_store * list address)%type.

(** [delete p]: [None] when [p] is not allocated. *)
Definition mem_delete (p : address) (h : free_store) : option free_store :=
  match h !! p with
  | Some _ => Some (delete p h)
  | None => None
  end.

(** [new WindMeasurement] followed by the assignments of the fields: the
    allocator [alloc] chooses the address. *)
Definition mem_new (alloc : free_store -> address) (w : WindMeasurement)
    (h : free_store) : address * free_store :=
  let p := alloc h in (p, <[p := w]> h).

(** The constructor. *)
Definition mem_init : mem_state := (∅, []).

(** The loop of [getLeastImportantItem], reading the samples through the
    pointers; [None] when a slot read is not occupied or its pointer is
    not allocated. *)
Fixpoint mem_getLeastImportantItem_loop (Time : float) (h : free_store)
    (a : list address) (count : nat) (maxscore founditem : Z) : option Z :=
  match count with
  | O => Some founditem
  | S i =>
      match a !! i with
      | Some p =>
          match h !! p with
          | Some m =>
              let score := item_score Time m in
              if score >? maxscore
              then mem_getLeastImportantItem_loop Time h a i score (Z.of_nat i)
              else mem_getLeastImportantItem_loop Time h a i maxscore founditem
          | None => None
          end
      | None => None
      end
  end.

Definition mem_getLeastImportantItem (Time : float) (s : mem_state) : option Z :=
  let '(h, a) := s in
  let maxscore := 0 in
  let founditem := uint_wrap (Z.of_nat (length a) - 1) in
  mem_getLeastImportantItem_loop Time h a
    (Z.to_nat (int_wrap founditem + 1)) maxscore founditem.

(** [addMeasurement]; [None] when it releases a pointer that is not
    allocated or reads a slot that is not occupied. *)
Definition mem_addMeasurement (alloc : free_store -> address) (Time : float)
    (v : Vector) (alt : float) (q : Z) (s : mem_state) : option mem_state :=
  let '(h, a) := s in
  let wind := new_measurement Time v alt q in
  if Z.of_nat (length a) =? MAX_MEASUREMENTS then
    match mem_getLeastImportantItem Time s with
    | Some index =>
        match a !! Z.to_nat index with
        | Some p =>
            match mem_delete p h with
            | Some h1 =>
                let '(p', h2) := mem_new alloc wind h1 in
                Some (h2, <[Z.to_nat index := p']> a)
            | None => None
            end
        | None => None
        end
    | None => None
    end
  else
    let '(p', h2) := mem_new alloc wind h in
    Some (h2, a ++ [p']).

(** The destructor: [delete measurementlist[i]] for the slots in order;
    it returns the free store it leaves. *)
Fixpoint mem_destroy (h : free_store) (a : list address) : option free_store :=
  match a with
  | [] => Some h
  | p :: a' =>
      match mem_delete p h with
      | Some h' => mem_destroy h' a'
      | None => None
      end
  end.

Definition mem_do_call (alloc : free_store -> address) (s : option mem_state)
    (c : call) : option mem_state :=
  match s with
  | Some s => mem_addMeasurement alloc (call_Time c) (call_vector c) (call_alt c)
                (call_quality c) s
  | None => None
  end.

(** The state after the calls [cs] on a new object. *)
Definition mem_run (alloc : free_store -> address) (cs : list call) : option mem_state :=
  fold_left (mem_do_call alloc) cs (Some mem_init).

(** One turn of the loop of [getWind] for the slot that holds the pointer
    [p]: [m = measurementlist[i]] is read through the pointer; [None]
    when it is not allocated. *)
Definition mem_getWind_step (now : Z) (alt : float) (h : free_store)
    (st : option getWind_state) (p : address) : option getWind_state :=
  match st with
  | Some st =>
      match h !! p with
      | Some m => Some (getWind_step now alt st m)
      | None => None
      end
  | None => None
  end.

(** [getWind] on the store with its pointers. *)
Definition mem_getWind (Time alt : float) (s : mem_state) : option (Vector * bool) :=
  let '(h, a) := s in
  let now := double_to_int Time in
  match fold_left (mem_getWind_step now alt h) a (Some getWind_init) with
  | Some st =>
      Some (if total_quality st >? 0 then
              let d := double_of_Z (int_wrap (total_quality st)) in
              ({| x := (x (result st) / d)%float; y := (y (result st) / d)%float |}, true)
            else (result st, false))
  | None => None
  end.

(** * Notions used in the statements *)

(** ** Scores *)

(** No sample in the slots below [count] scores more than [bound]. *)
Definition scores_at_most (Time : float) (l : list WindMeasurement)
    (count : nat) (bound : Z) : Prop :=
  forall i m, (i < count)%nat -> l !! i = Some m -> item_score Time m <= bound.

(** Slot [j] wins the scan of the slots below [count] against the running
    maximum [maxscore]: its sample beats [maxscore], no slot below [count]
    scores more, and every slot above it scores strictly less. *)
Definition scan_winner (Time : float) (l : list WindMeasurement)
    (count : nat) (maxscore : Z) (j : nat) : Prop :=
  exists mj,
    (j < count)%nat /\ l !! j = Some mj /\
    maxscore < item_score Time mj /\
    scores_at_most Time l count (item_score Time mj) /\
    forall i m, (j < i < count)%nat -> l !! i = Some m ->
                item_score Time m < item_score Time mj.

(** The sample in the slot [getLeastImportantItem] returns has the
    largest score of the store. *)
Definition evicts_a_maximum (Time : float) (s : WindMeasurementList) : Prop :=
  exists mj,
    measurementlist s !! Z.to_nat (getLeastImportantItem Time s) = Some mj /\
    forall i m, measurementlist s !! i = Some m ->
                item_score Time m <= item_score Time mj.

(** Slot [j] holds a sample of the largest score, and no higher slot does. *)
Definition highest_slot_of_maximum (Time : float) (s : WindMeasurementList)
    (j : nat) : Prop :=
  exists mj,
    measurementlist s !! j = Some mj /\
    (forall i m, measurementlist s !! i = Some m ->
                 item_score Time m <= item_score Time mj) /\
    (forall i m, (j < i)%nat -> measurementlist s !! i = Some m ->
                 item_score Time m < item_score Time mj).

(** ** Example stores *)

Definition unit_wind : Vector := {| x := 1; y := 0 |}.

(** A full store filled shortly before midnight (time of day 86000 s):
    one sample of quality 1 in slot 0, then 199 samples of quality 5. *)
Definition store_before_midnight : WindMeasurementList :=
  run (mkCall 86000 unit_wind 0 1 :: replicate 199 (mkCall 86000 unit_wind 0 5)).

(** The same with samples of quality 1 in the slots 0 and 1. *)
Definition store_before_midnight_tied : WindMeasurementList :=
  run (mkCall 86000 unit_wind 0 1 :: mkCall 86000 unit_wind 0 1
         :: replicate 198 (mkCall 86000 unit_wind 0 5)).

(** ** Weights and sums *)

(** The samples of [l] that pass the window test of [getWind]. *)
Definition contributing (now : Z) (alt : float)
    (l : list WindMeasurement) : list WindMeasurement :=
  List.filter (in_range now alt) l.

(** The sum, as an integer, of the weights of the samples in the window. *)
Definition total_weight (now : Z) (alt : float) (l : list WindMeasurement) : Z :=
  fold_right Z.add 0 (List.map (sample_quality now alt) (contributing now alt l)).

(** The sum, in [double] and in the order of the slots, of one component
    of the vectors of the samples in the window, each times its weight. *)
Definition weighted_sum (component : Vector -> float) (now : Z) (alt : float)
    (l : list WindMeasurement) : float :=
  fold_left
    (fun acc m =>
       (acc + component (vector m) * double_of_Z (sample_quality now alt m))%float)
    (contributing now alt l) 0%float.

Definition zero_vector : Vector := {| x := 0; y := 0 |}.

(** Both components of the vector of [m] are finite numbers. *)
Definition finite_vector (m : WindMeasurement) : Prop :=
  is_finite (x (vector m)) = true /\ is_finite (y (vector m)) = true.

(** ** The weight in the words of the spec *)

(** The integer nearest to [n / d], for [d > 0]. *)
Definition round_div (n d : Z) : Z := (2 * n + d) / (2 * d).

(** [qw = round(m.quality * qualityFactor / 5)]. *)
Definition spec_qw (m : WindMeasurement) : Z := round_div (quality m * 100) 5.

(** [aw = round(((2 / (altDiff^2 + 1)) - 1) * altitudeFactor)]. *)
Definition spec_aw (alt : float) (m : WindMeasurement) : Z :=
  iround (((2 / (altdiff alt m * altdiff alt m + 1)) - 1) * 100)%float.

(** [tw = round(k * (1 - timeDiff) / (timeDiff^2 + k) * timeFactor)]. *)
Definition spec_tw (now : Z) (m : WindMeasurement) : Z :=
  iround (k * (1 - timediff now m) / (timediff now m * timediff now m + k) * 200)%float.

(** [w = qw * (aw * tw)], as a product of integers. *)
Definition spec_weight (now : Z) (alt : float) (m : WindMeasurement) : Z :=
  spec_qw m * (spec_aw alt m * spec_tw now m).

(** A store with two samples taken at the same time and altitude, of
    quality 1 and of quality -1. *)
Definition store_opposite_qualities : WindMeasurementList :=
  run [mkCall 0 unit_wind 0 1; mkCall 0 zero_vector 0 (-1)].

(** A store with two samples of quality 3 and 5 and different vectors. *)
Definition store_two_samples : WindMeasurementList :=
  run [mkCall 10 {| x := 3; y := 4 |} 500 3; mkCall 70 {| x := -2; y := 8 |} 650 5].

(** A sample inside the window of the query (time 100, altitude 600), and
    one outside of it: taken 3600 s earlier and 1000 m lower. *)
Definition sample_in_window : WindMeasurement :=
  {| vector := {| x := 3; y := 4 |}; quality := 4; time := 40; altitude := 500 |}.

Definition sample_out_of_window : WindMeasurement :=
  {| vector := {| x := -7; y := 1 |}; quality := 5; time := -3500; altitude := -400 |}.

(** A wind vector whose first component is 1.5 + 2^-39. *)
Definition wind_inexact : Vector := {| x := 0x1.8000000002p+0; y := 0 |}.

(** A sample of quality -1, and one of quality 10000, as [addMeasurement]
    stores them for the time 0 and the altitude 0. *)
Definition sample_negative_quality : WindMeasurement :=
  new_measurement 0 unit_wind 0 (-1).

Definition sample_huge_quality : WindMeasurement :=
  new_measurement 0 unit_wind 0 10000.

(** Two samples taken at the same time and altitude, of quality 1 and 5,
    with different vectors. *)
Definition sample_low : WindMeasurement :=
  {| vector := {| x := 1; y := 0 |}; quality := 1; time := 0; altitude := 0 |}.

Definition sample_high : WindMeasurement :=
  {| vector := {| x := 2; y := 0 |}; quality := 5; time := 0; altitude := 0 |}.

(** Two samples of quality 4 and 5 whose vectors differ by two units in
    the last place of the first component. *)
Definition sample_near_low : WindMeasurement :=
  {| vector := {| x := 1; y := 0 |}; quality := 4; time := 0; altitude := 0 |}.

Definition sample_near_high : WindMeasurement :=
  {| vector := {| x := 0x1.0000000000002p+0; y := 0 |};
     quality := 5; time := 0; altitude := 0 |}.

(** ** Values of doubles *)

(** A valid double: a canonical mantissa and an exponent in range. *)
Abbreviation valid := (SpecFloat.valid_binary prec emax).

(** A record is exact when neither the round bit nor the sticky bit is set. *)
Definition exact_record (mrs : shr_record) : Prop :=
  shr_r mrs = false /\ shr_s mrs = false.

(** The value of the mantissa [m] at the exponent [e], in units of
    2^-1074, the smallest positive double. *)
Definition val (m e : Z) : Z := m * 2 ^ (e + 1074).

(** The number that [binary_round_aux] rounds lies at [m], when the
    location is exact, and strictly between [m] and [m + 1] otherwise:
    it is at most the integer [K] in these cases. *)
Definition loc_le (lx : location) (m K : Z) : Prop :=
  match lx with
  | loc_Exact => m <= K
  | loc_Inexact _ => m < K
  end.

(** The value of a double that is zero or positive and finite, in units
    of 2^-1074. *)
Definition SFval (x : spec_float) : Z :=
  match x with
  | S754_finite false m e => val (Zpos m) e
  | _ => 0
  end.

(** Zero (with the sign bit clear) or positive and finite. *)
Definition SFnonneg (x : spec_float) : Prop :=
  x = S754_zero false \/ exists m e, x = S754_finite false m e.

(** The exponent the quotient is computed at. *)
Definition div_exponent (mx : positive) (ex : Z) (my : positive) (ey : Z) : Z :=
  Z.min (fexp prec emax (Zpos (digits2_pos mx) + ex - (Zpos (digits2_pos my) + ey)))
        (ex - ey).

(** The mantissas of the constants of [getWind]: 1.0 and 2.0 (2^52),
    [k] (0x147ae147ae147b), 100.0 and 200.0 (100 * 2^46). *)
Definition M_one : positive := 4503599627370496.
Definition M_k : positive := 5764607523034235.
Definition M_hundred : positive := 7036874417766400.

(** The same notions on [float]. *)
Definition fnonneg (x : float) : Prop := SFnonneg (Prim2SF x).
Definition fval (x : float) : Z := SFval (Prim2SF x).

(** ** Further notions used in the statements *)

(** *** Sequences of calls *)

(** The sample a call stores. *)
Definition call_measurement (c : call) : WindMeasurement :=
  new_measurement (call_Time c) (call_vector c) (call_alt c) (call_quality c).

(** *** The time window *)

(** The time weight as a function of the difference [now - m->time]. *)
Definition time_weight (d : Z) : Z :=
  let timediff := abs (double_of_Z d / double_of_Z timeRange)%float in
  uint_wrap (iround (k * (1 - timediff) / (timediff * timediff + k)
                     * double_of_Z REL_FACTOR_TIME)%float).

(** The test [timediff < 1.0] as a function of the difference. *)
Definition time_in_window (d : Z) : bool :=
  (abs (double_of_Z d / double_of_Z timeRange) <? 1)%float.

(** The mantissa of 3600.0, [3600 * 2^41]. *)
Definition M_timeRange : positive := 7916483719987200.

(** What the table of the time weights for the differences 0 .. 3599
    shows at the difference [n]. *)
Definition time_weight_row (n : nat) : bool :=
  let d := Z.of_nat n in
  time_in_window d && time_in_window (- d) &&
  (time_weight (- d) =? time_weight d) &&
  (time_weight (d + 1) <=? time_weight d) &&
  Bool.eqb (time_weight d =? 200) (d <=? 5) &&
  Bool.eqb (0 <? time_weight d) (d <=? 2220) &&
  (time_weight d <=? 200).

(** *** The altitude window *)

(** The mantissa of 1000.0, [1000 * 2^43]. *)
Definition M_altRange : positive := 8796093022208000.

(** A double that is not finite is an infinity or a NaN. *)
Definition SFnonfinite (f : spec_float) : Prop :=
  f = S754_nan \/ exists s, f = S754_infinity s.

(** *** Scores in integers *)

(** The score in integers: [600 * (6 - quality) + (T - time)]. *)
Definition whole_score (T : Z) (m : WindMeasurement) : Z :=
  600 * (6 - quality m) + (T - time m).

(** The sample was taken at a time between 0 and [T], its quality is at
    most 5 and its score fits an [int]. *)
Definition scored_in_int (T : Z) (m : WindMeasurement) : Prop :=
  0 <= time m <= T /\ quality m <= 5 /\ whole_score T m <= INT_MAX.

(** *** Calls at whole times *)

(** A call of [addMeasurement] at the whole time [t], with the quality
    [q]. *)
Definition whole_call (q : Z) (c : Z * Vector * float) : call :=
  mkCall (double_of_Z c.1.1) c.1.2 c.2 q.

(** The times of the calls increase strictly. *)
Definition increasing_times (cs : list (Z * Vector * float)) : Prop :=
  forall i j ci cj, (i < j)%nat -> cs !! i = Some ci -> cs !! j = Some cj ->
                    ci.1.1 < cj.1.1.

(** *** The free store *)

(** The slots hold different pointers, the allocated addresses are the
    ones in the slots, and the samples they point to are [l]. *)
Definition mem_represents (s : mem_state) (l : list WindMeasurement) : Prop :=
  let '(h, a) := s in
  NoDup a /\
  (forall p, p ∈ a <-> is_Some (h !! p)) /\
  Forall2 (fun p m => h !! p = Some m) a l.

(** [alloc] returns an address that is not allocated. *)
Definition allocator (alloc : free_store -> address) : Prop :=
  forall h, h !! alloc h = None.

(** An allocator: the least address that is not allocated. *)
Definition first_free (h : free_store) : address := fresh (dom h).

(** The mantissas of 995.0 and 996.0, [995 * 2^43] and [996 * 2^43]. *)
Definition M_near : positive := 8752112557096960.
Definition M_far : positive := 8760908650119168.

(** The window test in the words of the claim C5: the time difference is
    taken from the query time [t] itself, in [double]. *)
Definition claimed_in_window (Time alt : float) (m : WindMeasurement) : bool :=
  (abs ((alt - altitude m) / 1000) <? 1)%float &&
  (abs (Time - double_of_Z (time m)) / 3600 <? 1)%float.

(** A sample taken at the time 3600, at the altitude 0. *)
Definition sample_an_hour_ahead : WindMeasurement :=
  {| vector := {| x := 1; y := 0 |}; quality := 5; time := 3600; altitude := 0 |}.

(** The calls at the times 1, 2, ..., [n], each with the vector
    [unit_wind] and the altitude 500. *)
Definition calls_every_tick (n : nat) : list (Z * Vector * float) :=
  List.map (fun i => (Z.of_nat i, unit_wind, 500%float)) (seq 1 n).
(** * Properties *)

(** ** Machine integers *)

Lemma uint_wrap_range (z : Z) : 0 <= uint_wrap z < 2 ^ 32.
Proof. unfold uint_wrap. apply Z.mod_pos_bound. reflexivity. Qed.

Lemma uint_wrap_small (z : Z) : 0 <= z < 2 ^ 32 -> uint_wrap z = z.
Proof. intros H. unfold uint_wrap. apply Z.mod_small. exact H. Qed.

Lemma int_wrap_small (z : Z) : INT_MIN <= z <= INT_MAX -> int_wrap z = z.
Proof.
  unfold INT_MIN, INT_MAX, int_wrap. intros H.
  rewrite Z.mod_small; lia.
Qed.

Lemma int_wrap_range (z : Z) : INT_MIN <= int_wrap z <= INT_MAX.
Proof.
  unfold INT_MIN, INT_MAX, int_wrap.
  pose proof (Z.mod_pos_bound (z + 2 ^ 31) (2 ^ 32) eq_refl). lia.
Qed.

(** Products and sums of [unsigned int] values: wrapping the operands
    first does not change the wrapped result. *)
Lemma uint_wrap_mul (a b : Z) :
  uint_wrap (uint_wrap a * uint_wrap b) = uint_wrap (a * b).
Proof. unfold uint_wrap. symmetry. apply Z.mul_mod. discriminate. Qed.

Lemma uint_wrap_mul_r (a b : Z) : uint_wrap (a * uint_wrap b) = uint_wrap (a * b).
Proof. unfold uint_wrap. apply Z.mul_mod_idemp_r. discriminate. Qed.

Lemma uint_wrap_add_r (a b : Z) : uint_wrap (a + uint_wrap b) = uint_wrap (a + b).
Proof. unfold uint_wrap. apply Z.add_mod_idemp_r. discriminate. Qed.


(** ** Doubles *)

(** *** Integers in doubles

    An integer below 2^52 in absolute value converts to a double without
    rounding: its mantissa is shifted to 53 digits. *)

Lemma digits2_pos_iter_xO (p k : positive) :
  Zpos (digits2_pos (PosDef.Pos.iter xO p k)) = Zpos (digits2_pos p) + Zpos k.
Proof.
  change (PosDef.Pos.iter xO p k) with (Pos.iter xO p k).
  induction k as [| k IH] using Pos.peano_ind.
  - simpl. lia.
  - rewrite Pos.iter_succ. simpl digits2_pos. lia.
Qed.

Lemma digits2_pos_lower (p : positive) :
  2 ^ (Zpos (digits2_pos p) - 1) <= Zpos p.
Proof.
  induction p as [p IH | p IH |]; simpl digits2_pos.
  - replace (Zpos (Pos.succ (digits2_pos p)) - 1) with ((Zpos (digits2_pos p) - 1) + 1) by lia.
    rewrite Z.pow_add_r by lia. lia.
  - replace (Zpos (Pos.succ (digits2_pos p)) - 1) with ((Zpos (digits2_pos p) - 1) + 1) by lia.
    rewrite Z.pow_add_r by lia. lia.
  - simpl. lia.
Qed.

Lemma digits2_pos_bound (p : positive) (n : Z) :
  0 <= n -> Zpos p < 2 ^ n -> Zpos (digits2_pos p) <= n.
Proof.
  intros Hn Hp. pose proof (digits2_pos_lower p) as Hl.
  destruct (Z_le_gt_dec (Zpos (digits2_pos p)) n) as [H | H]; [exact H | exfalso].
  assert (2 ^ n <= 2 ^ (Zpos (digits2_pos p) - 1)) by (apply Z.pow_le_mono_r; lia).
  lia.
Qed.

Lemma Zpos_iter_xO (p k : positive) :
  Zpos (PosDef.Pos.iter xO p k) = Zpos p * 2 ^ Zpos k.
Proof.
  change (PosDef.Pos.iter xO p k) with (Pos.iter xO p k).
  induction k as [| k IH] using Pos.peano_ind.
  - simpl. lia.
  - rewrite Pos.iter_succ, Pos2Z.inj_xO, IH, Pos2Z.inj_succ, Z.pow_succ_r by lia. lia.
Qed.

Lemma binary_round_aux_canonical (s : bool) (m : positive) (e : Z) :
  fexp prec emax (Zpos (digits2_pos m) + e) = e ->
  e <= emax - prec ->
  binary_round_aux prec emax s (Zpos m) e loc_Exact = S754_finite s m e.
Proof.
  intros Hc He.
  unfold binary_round_aux, shr_fexp.
  change (Zdigits2 (Zpos m)) with (Zpos (digits2_pos m)).
  rewrite Hc, Z.sub_diag.
  cbn [shr shr_record_of_loc shr_m loc_of_shr_record round_nearest_even].
  change (Zdigits2 (Zpos m)) with (Zpos (digits2_pos m)).
  rewrite Hc, Z.sub_diag.
  cbn [shr shr_record_of_loc shr_m].
  destruct (Z.leb_spec e (emax - prec)); [reflexivity | lia].
Qed.

Lemma binary_round_small (s : bool) (p : positive) :
  Zpos p < 2 ^ 52 ->
  exists k, Zpos k = 53 - Zpos (digits2_pos p) /\
    binary_round prec emax s p 0 = S754_finite s (PosDef.Pos.iter xO p k) (Zneg k).
Proof.
  intros Hp.
  pose proof (digits2_pos_bound p 52 ltac:(lia) Hp) as Hd.
  destruct (53 - Zpos (digits2_pos p)) as [| k | k] eqn:Ek; try lia.
  exists k. split; [reflexivity |].
  unfold binary_round, shl_align.
  assert (fexp prec emax (Zpos (digits2_pos p) + 0) = Zneg k) as ->.
  { unfold fexp, SpecFloat.emin, prec, emax. lia. }
  change (Z.sub (Zneg k) 0) with (Zneg k).
  apply binary_round_aux_canonical.
  - rewrite digits2_pos_iter_xO. unfold fexp, SpecFloat.emin, prec, emax. lia.
  - unfold prec, emax. lia.
Qed.

Lemma valid_binary_round_small (s : bool) (p k : positive) :
  Zpos k = 53 - Zpos (digits2_pos p) ->
  valid_binary (S754_finite s (PosDef.Pos.iter xO p k) (Zneg k)) = true.
Proof.
  intros Hk. unfold SpecFloat.valid_binary, bounded, canonical_mantissa.
  rewrite digits2_pos_iter_xO.
  apply andb_true_intro. split.
  - apply Z.eqb_eq. unfold fexp, SpecFloat.emin, prec, emax. lia.
  - apply Z.leb_le. unfold prec, emax. lia.
Qed.

Lemma SFtrunc_round_small (s : bool) (p k : positive) :
  SFtrunc (S754_finite s (PosDef.Pos.iter xO p k) (Zneg k)) =
  Some (if s then Zneg p else Zpos p).
Proof.
  unfold SFtrunc. rewrite Zpos_iter_xO.
  rewrite Z.shiftr_div_pow2 by lia.
  rewrite Z.div_mul by lia.
  destruct s; reflexivity.
Qed.

Lemma double_to_int_double_of_Z (z : Z) :
  INT_MIN <= z <= INT_MAX -> double_to_int (double_of_Z z) = z.
Proof.
  unfold INT_MIN, INT_MAX. intros Hz.
  unfold double_to_int, double_of_Z, binary_normalize.
  destruct z as [| p | p].
  - reflexivity.
  - destruct (binary_round_small false p ltac:(lia)) as (k & Hk & ->).
    rewrite Prim2SF_SF2Prim by (apply valid_binary_round_small; exact Hk).
    rewrite SFtrunc_round_small.
    unfold INT_MIN, INT_MAX.
    destruct (Z.leb_spec (- 2 ^ 31) (Zpos p)); [| lia].
    destruct (Z.leb_spec (Zpos p) (2 ^ 31 - 1)); [| lia].
    reflexivity.
  - destruct (binary_round_small true p ltac:(lia)) as (k & Hk & ->).
    rewrite Prim2SF_SF2Prim by (apply valid_binary_round_small; exact Hk).
    rewrite SFtrunc_round_small.
    unfold INT_MIN, INT_MAX.
    destruct (Z.leb_spec (- 2 ^ 31) (Zneg p)); [| lia].
    destruct (Z.leb_spec (Zneg p) (2 ^ 31 - 1)); [| lia].
    reflexivity.
Qed.

Lemma double_to_int_range (d : float) : INT_MIN <= double_to_int d <= INT_MAX.
Proof.
  unfold double_to_int.
  destruct (SFtrunc (Prim2SF d)) as [z |]; [| unfold INT_MIN, INT_MAX; lia].
  destruct (Z.leb_spec INT_MIN z); [| unfold INT_MIN, INT_MAX; simpl; lia].
  destruct (Z.leb_spec z INT_MAX); simpl; unfold INT_MIN, INT_MAX in *; lia.
Qed.

(** Converting a double to [int], back to [double] and to [int] again
    gives the first integer. *)
Lemma double_to_int_idempotent (d : float) :
  double_to_int (double_of_Z (double_to_int d)) = double_to_int d.
Proof. apply double_to_int_double_of_Z, double_to_int_range. Qed.

(** *** Finite doubles *)

Lemma Prim2SF_finite (d : float) :
  is_finite d = true ->
  (exists s, Prim2SF d = S754_zero s) \/
  (exists s m e, Prim2SF d = S754_finite s m e).
Proof.
  unfold is_finite, is_nan, is_infinity.
  rewrite !eqb_spec, abs_spec.
  change (Prim2SF infinity) with (S754_infinity false).
  destruct (Prim2SF d) as [s | s | | s m e]; simpl; intros H.
  - left. exists s. reflexivity.
  - destruct s; vm_compute in H; discriminate.
  - vm_compute in H. discriminate.
  - right. exists s, m, e. reflexivity.
Qed.

(** A finite double times zero is a zero. *)
Lemma mul_zero_finite (d : float) :
  is_finite d = true -> (d * 0 = 0 \/ d * 0 = -0)%float.
Proof.
  intros H.
  assert (Prim2SF (d * 0) = S754_zero false \/ Prim2SF (d * 0) = S754_zero true) as Hz.
  { rewrite mul_spec. change (Prim2SF 0) with (S754_zero false).
    destruct (Prim2SF_finite d H) as [(s & ->) | (s & m & e & ->)];
      destruct s; simpl; auto. }
  destruct Hz as [Hz | Hz]; [left | right]; apply Prim2SF_inj; rewrite Hz; reflexivity.
Qed.

(** A zero added to the positive zero leaves it. *)
Lemma add_zero_mul_zero_finite (d : float) :
  is_finite d = true -> (0 + d * 0 = 0)%float.
Proof.
  intros H. destruct (mul_zero_finite d H) as [-> | ->]; reflexivity.
Qed.

(** A finite double minus itself is the positive zero. *)
Lemma sub_diag_finite (d : float) : is_finite d = true -> (d - d = 0)%float.
Proof.
  intros H. apply Prim2SF_inj. rewrite sub_spec.
  change (Prim2SF 0) with (S754_zero false).
  destruct (Prim2SF_finite d H) as [(s & ->) | (s & m & e & ->)].
  - destruct s; reflexivity.
  - unfold SF64sub, SFsub. rewrite Z.min_id, Z.sub_diag. reflexivity.
Qed.

(** * Bounds on the double arithmetic of getWind *)

(** *** Shifting a mantissa to the right *)

Lemma shr_1_m (mrs : shr_record) :
  0 <= shr_m mrs -> shr_m (shr_1 mrs) = shr_m mrs / 2.
Proof.
  destruct mrs as [m r s]. simpl. intros Hm.
  destruct m as [| p | p]; [reflexivity | | lia].
  destruct p as [p | p |]; simpl.
  - rewrite (Pos2Z.inj_xI p). apply (Z.div_unique _ _ _ 1); lia.
  - rewrite (Pos2Z.inj_xO p). apply (Z.div_unique _ _ _ 0); lia.
  - reflexivity.
Qed.

Lemma shr_1_nonneg (mrs : shr_record) :
  0 <= shr_m mrs -> 0 <= shr_m (shr_1 mrs).
Proof.
  intros H. rewrite shr_1_m by exact H. apply Z.div_pos; lia.
Qed.

Lemma pow2_xI (p : positive) : 2 ^ Zpos p~1 = 2 * (2 ^ Zpos p * 2 ^ Zpos p).
Proof.
  rewrite (Pos2Z.inj_xI p), Z.pow_add_r by lia.
  replace (2 * Zpos p) with (Zpos p + Zpos p) by lia.
  rewrite Z.pow_add_r by lia. change (2 ^ 1) with 2. lia.
Qed.

Lemma pow2_xO (p : positive) : 2 ^ Zpos p~0 = 2 ^ Zpos p * 2 ^ Zpos p.
Proof.
  rewrite (Pos2Z.inj_xO p).
  replace (2 * Zpos p) with (Zpos p + Zpos p) by lia.
  rewrite Z.pow_add_r by lia. reflexivity.
Qed.

Lemma iter_shr_1_m (p : positive) :
  forall mrs, 0 <= shr_m mrs ->
    shr_m (iter_pos shr_1 p mrs) = shr_m mrs / 2 ^ Zpos p.
Proof.
  induction p as [p IH | p IH |]; intros mrs Hm; simpl iter_pos.
  - assert (0 <= shr_m (shr_1 mrs)) as H1 by (apply shr_1_nonneg; exact Hm).
    assert (0 <= shr_m (iter_pos shr_1 p (shr_1 mrs))) as H2.
    { rewrite IH by exact H1. apply Z.div_pos; lia. }
    rewrite IH by exact H2. rewrite IH by exact H1. rewrite shr_1_m by exact Hm.
    rewrite pow2_xI. rewrite !Z.div_div by lia. reflexivity.
  - assert (0 <= shr_m (iter_pos shr_1 p mrs)) as H2.
    { rewrite IH by exact Hm. apply Z.div_pos; lia. }
    rewrite IH by exact H2. rewrite IH by exact Hm.
    rewrite pow2_xO. rewrite !Z.div_div by lia. reflexivity.
  - rewrite shr_1_m by exact Hm. reflexivity.
Qed.

Lemma shr_1_exact (mrs : shr_record) :
  0 <= shr_m mrs -> exact_record mrs -> (2 | shr_m mrs) ->
  exact_record (shr_1 mrs).
Proof.
  destruct mrs as [m r s]. unfold exact_record. simpl.
  intros Hm [-> ->] [c Hc].
  destruct m as [| p | p]; [split; reflexivity | | lia].
  destruct p as [p | p |]; simpl; try (split; reflexivity); lia.
Qed.

Lemma iter_shr_1_exact (p : positive) :
  forall mrs, 0 <= shr_m mrs -> exact_record mrs -> (2 ^ Zpos p | shr_m mrs) ->
    exact_record (iter_pos shr_1 p mrs).
Proof.
  induction p as [p IH | p IH |]; intros mrs Hm He [c Hc]; simpl iter_pos.
  - rewrite pow2_xI in Hc.
    assert (0 < 2 ^ Zpos p) as Hpos by (apply Z.pow_pos_nonneg; lia).
    assert (shr_m (shr_1 mrs) = c * (2 ^ Zpos p * 2 ^ Zpos p)) as E1.
    { rewrite shr_1_m by exact Hm. rewrite Hc.
      replace (c * (2 * (2 ^ Zpos p * 2 ^ Zpos p))) with (c * (2 ^ Zpos p * 2 ^ Zpos p) * 2) by lia.
      apply Z.div_mul. lia. }
    assert (0 <= shr_m (shr_1 mrs)) as H1 by (apply shr_1_nonneg; exact Hm).
    assert (exact_record (shr_1 mrs)) as He1.
    { apply shr_1_exact; try assumption. exists (c * (2 ^ Zpos p * 2 ^ Zpos p)). lia. }
    assert (shr_m (iter_pos shr_1 p (shr_1 mrs)) = c * 2 ^ Zpos p) as E2.
    { rewrite iter_shr_1_m by exact H1. rewrite E1.
      replace (c * (2 ^ Zpos p * 2 ^ Zpos p)) with (c * 2 ^ Zpos p * 2 ^ Zpos p) by lia.
      apply Z.div_mul. lia. }
    apply IH.
    + rewrite E2. rewrite E1 in H1. nia.
    + apply IH; try assumption. exists (c * 2 ^ Zpos p). rewrite E1. lia.
    + exists c. exact E2.
  - rewrite pow2_xO in Hc.
    assert (0 < 2 ^ Zpos p) as Hpos by (apply Z.pow_pos_nonneg; lia).
    assert (shr_m (iter_pos shr_1 p mrs) = c * 2 ^ Zpos p) as E2.
    { rewrite iter_shr_1_m by exact Hm. rewrite Hc.
      replace (c * (2 ^ Zpos p * 2 ^ Zpos p)) with (c * 2 ^ Zpos p * 2 ^ Zpos p) by lia.
      apply Z.div_mul. lia. }
    apply IH.
    + rewrite E2. rewrite Hc in Hm. nia.
    + apply IH; try assumption. exists (c * 2 ^ Zpos p). rewrite Hc. lia.
    + exists c. exact E2.
  - apply shr_1_exact; try assumption. exists c. exact Hc.
Qed.

(** *** Digits and exponents *)

Lemma fexp_eq (x : Z) : fexp prec emax x = Z.max (x - 53) (-1074).
Proof. reflexivity. Qed.

Lemma digits2_pos_upper (p : positive) : Zpos p < 2 ^ Zpos (digits2_pos p).
Proof.
  induction p as [p IH | p IH |]; simpl digits2_pos.
  - rewrite Pos2Z.inj_succ, Z.pow_succ_r, (Pos2Z.inj_xI p) by lia. lia.
  - rewrite Pos2Z.inj_succ, Z.pow_succ_r, (Pos2Z.inj_xO p) by lia. lia.
  - reflexivity.
Qed.

Lemma Zdigits2_nonneg (m : Z) : 0 <= Zdigits2 m.
Proof. destruct m; simpl; lia. Qed.

Lemma Zdigits2_upper (m : Z) : 0 <= m -> m < 2 ^ Zdigits2 m.
Proof.
  destruct m as [| p | p]; simpl; intros H; [lia | apply digits2_pos_upper | lia].
Qed.

Lemma Zdigits2_lower (m : Z) : 0 < m -> 2 ^ (Zdigits2 m - 1) <= m.
Proof.
  destruct m as [| p | p]; simpl; intros H; [lia | apply digits2_pos_lower | lia].
Qed.

Lemma Zdigits2_le (m n : Z) : 0 <= n -> 0 <= m < 2 ^ n -> Zdigits2 m <= n.
Proof.
  intros Hn [H0 Hm].
  destruct m as [| p | p]; simpl; [lia | | lia].
  apply digits2_pos_bound; assumption.
Qed.

Lemma pow2_pos (n : Z) : 0 <= n -> 0 < 2 ^ n.
Proof. intros H. apply Z.pow_pos_nonneg; lia. Qed.

Lemma pow2_split (a b : Z) : 0 <= a <= b -> 2 ^ b = 2 ^ (b - a) * 2 ^ a.
Proof.
  intros H. rewrite <- Z.pow_add_r by lia. f_equal. lia.
Qed.

Lemma pow2_le (a b : Z) : 0 <= a <= b -> 2 ^ a <= 2 ^ b.
Proof. intros H. apply Z.pow_le_mono_r; lia. Qed.

Lemma pow2_lt (a b : Z) : 0 <= a < b -> 2 ^ a < 2 ^ b.
Proof. intros H. apply Z.pow_lt_mono_r; lia. Qed.

(** From [2^a <= m < 2^b] the exponents are ordered. *)
Lemma pow2_lt_inv (a b : Z) : 0 <= a -> 0 <= b -> 2 ^ a < 2 ^ b -> a < b.
Proof.
  intros Ha Hb H. destruct (Z_lt_le_dec a b) as [L | L]; [exact L | exfalso].
  pose proof (pow2_le b a ltac:(lia)). lia.
Qed.

(** *** The value of a mantissa and an exponent

    In units of 2^-1074, the smallest positive double. *)

Lemma val_le_scaled (m e Mc Ec : Z) :
  -1074 <= e <= Ec -> m <= Mc * 2 ^ (Ec - e) -> val m e <= val Mc Ec.
Proof.
  intros He H. unfold val.
  rewrite (pow2_split (e + 1074) (Ec + 1074)) by lia.
  replace (Ec + 1074 - (e + 1074)) with (Ec - e) by lia.
  pose proof (pow2_pos (e + 1074) ltac:(lia)). nia.
Qed.

Lemma val_ge_scaled (m e Mc Ec : Z) :
  -1074 <= e <= Ec -> Mc * 2 ^ (Ec - e) <= m -> val Mc Ec <= val m e.
Proof.
  intros He H. unfold val.
  rewrite (pow2_split (e + 1074) (Ec + 1074)) by lia.
  replace (Ec + 1074 - (e + 1074)) with (Ec - e) by lia.
  pose proof (pow2_pos (e + 1074) ltac:(lia)). nia.
Qed.

Lemma scaled_le_val (m e Mc Ec : Z) :
  -1074 <= e <= Ec -> val m e <= val Mc Ec -> m <= Mc * 2 ^ (Ec - e).
Proof.
  intros He H. unfold val in H.
  rewrite (pow2_split (e + 1074) (Ec + 1074)) in H by lia.
  replace (Ec + 1074 - (e + 1074)) with (Ec - e) in H by lia.
  pose proof (pow2_pos (e + 1074) ltac:(lia)). nia.
Qed.

Lemma scaled_ge_val (m e Mc Ec : Z) :
  -1074 <= e <= Ec -> val Mc Ec <= val m e -> Mc * 2 ^ (Ec - e) <= m.
Proof.
  intros He H. unfold val in H.
  rewrite (pow2_split (e + 1074) (Ec + 1074)) in H by lia.
  replace (Ec + 1074 - (e + 1074)) with (Ec - e) in H by lia.
  pose proof (pow2_pos (e + 1074) ltac:(lia)). nia.
Qed.

(** *** The two stages of [binary_round_aux] *)

Lemma loc_of_shr_record_of_loc (m : Z) (lx : location) :
  loc_of_shr_record (shr_record_of_loc m lx) = lx.
Proof. destruct lx as [| []]; reflexivity. Qed.

Lemma shr_m_record_of_loc (m : Z) (lx : location) :
  shr_m (shr_record_of_loc m lx) = m.
Proof. destruct lx as [| []]; reflexivity. Qed.

Lemma exact_record_loc (mrs : shr_record) :
  exact_record mrs -> loc_of_shr_record mrs = loc_Exact.
Proof. destruct mrs as [m r s]. intros [H1 H2]. simpl in *. subst. reflexivity. Qed.

(** The first stage: the mantissa is shifted to the exponent
    [e1 = max e (fexp (digits m + e))]. *)
Lemma shr_fexp_spec (m e : Z) (lx : location) :
  0 <= m ->
  exists mrs,
    let e1 := Z.max e (fexp prec emax (Zdigits2 m + e)) in
    shr_fexp prec emax m e lx = (mrs, e1) /\
    shr_m mrs = m / 2 ^ (e1 - e) /\
    (e1 = e -> loc_of_shr_record mrs = lx) /\
    (lx = loc_Exact -> (2 ^ (e1 - e) | m) -> loc_of_shr_record mrs = loc_Exact).
Proof.
  intros Hm. unfold shr_fexp, shr.
  set (f := fexp prec emax (Zdigits2 m + e)).
  destruct (f - e) as [| p | p] eqn:En.
  - exists (shr_record_of_loc m lx). simpl.
    replace (Z.max e f) with e by lia.
    rewrite Z.sub_diag, Z.div_1_r, shr_m_record_of_loc.
    split; [reflexivity |]. split; [reflexivity |].
    split; [intros _; apply loc_of_shr_record_of_loc |].
    intros -> _. reflexivity.
  - exists (iter_pos shr_1 p (shr_record_of_loc m lx)). simpl.
    replace (Z.max e f) with (e + Zpos p) by lia.
    replace (e + Zpos p - e) with (Zpos p) by lia.
    rewrite iter_shr_1_m by (rewrite shr_m_record_of_loc; exact Hm).
    rewrite shr_m_record_of_loc.
    repeat split; try reflexivity.
    + lia.
    + intros -> Hdiv. apply exact_record_loc.
      apply iter_shr_1_exact; simpl; [exact Hm | split; reflexivity | exact Hdiv].
  - exists (shr_record_of_loc m lx). simpl.
    replace (Z.max e f) with e by lia.
    rewrite Z.sub_diag, Z.div_1_r, shr_m_record_of_loc.
    split; [reflexivity |]. split; [reflexivity |].
    split; [intros _; apply loc_of_shr_record_of_loc |].
    intros -> _. reflexivity.
Qed.

Lemma round_nearest_even_range (m : Z) (lx : location) :
  m <= round_nearest_even m lx <= m + 1 /\
  (lx = loc_Exact -> round_nearest_even m lx = m).
Proof.
  destruct lx as [| []]; simpl; try (split; [lia | reflexivity || discriminate]).
  destruct (Z.even m); split; try lia; discriminate.
Qed.

(** The second stage: a mantissa of at most 53 digits stays, and 2^53
    becomes 2^52 with the next exponent. *)
Lemma shr_fexp_second (m2 e1 : Z) :
  -1074 <= e1 -> 0 <= m2 <= 2 ^ 53 ->
  exists mrs e3,
    shr_fexp prec emax m2 e1 loc_Exact = (mrs, e3) /\
    0 <= shr_m mrs < 2 ^ 53 /\
    ((m2 < 2 ^ 53 /\ shr_m mrs = m2 /\ e3 = e1) \/
     (m2 = 2 ^ 53 /\ shr_m mrs = 2 ^ 52 /\ e3 = e1 + 1)).
Proof.
  intros He [H0 Hm].
  destruct (shr_fexp_spec m2 e1 loc_Exact H0) as (mrs & Hs & Hmrs & _).
  cbv zeta in Hs. rewrite fexp_eq in Hs, Hmrs.
  exists mrs. eexists. split; [exact Hs |].
  destruct (Z.eq_dec m2 (2 ^ 53)) as [E | E].
  - subst m2. change (Zdigits2 (2 ^ 53)) with 54 in *.
    replace (Z.max e1 (Z.max (54 + e1 - 53) (-1074))) with (e1 + 1) in * by lia.
    replace (e1 + 1 - e1) with 1 in Hmrs by lia.
    change (2 ^ 53 / 2 ^ 1) with (2 ^ 52) in Hmrs.
    rewrite Hmrs. split; [split; [apply Z.pow_nonneg; lia | apply pow2_lt; lia] |].
    right. repeat split; reflexivity.
  - assert (m2 < 2 ^ 53) as Hlt by lia.
    pose proof (Zdigits2_le m2 53 ltac:(lia) ltac:(lia)) as Hd.
    replace (Z.max e1 (Z.max (Zdigits2 m2 + e1 - 53) (-1074))) with e1 in * by lia.
    rewrite Z.sub_diag, Z.div_1_r in Hmrs. rewrite Hmrs.
    split; [lia |]. left. split; [exact Hlt |]. split; reflexivity.
Qed.

(** What [binary_round_aux] computes from a mantissa that is not
    negative. *)
Lemma binary_round_aux_spec (sx : bool) (m e : Z) (lx : location) :
  0 <= m ->
  exists m2 m3 e3,
    let e1 := Z.max e (fexp prec emax (Zdigits2 m + e)) in
    let m1 := m / 2 ^ (e1 - e) in
    m1 <= m2 <= m1 + 1 /\
    (lx = loc_Exact -> (2 ^ (e1 - e) | m) -> m2 = m1) /\
    (e1 = e -> lx = loc_Exact -> m2 = m1) /\
    0 <= m3 /\
    ((m2 < 2 ^ 53 /\ m3 = m2 /\ e3 = e1) \/
     (m2 = 2 ^ 53 /\ m3 = 2 ^ 52 /\ e3 = e1 + 1)) /\
    binary_round_aux prec emax sx m e lx =
    match m3 with
    | 0 => S754_zero sx
    | Zpos p => if e3 <=? 971 then S754_finite sx p e3 else S754_infinity sx
    | Zneg _ => S754_nan
    end.
Proof.
  intros Hm.
  destruct (shr_fexp_spec m e lx Hm) as (mrs & Hs & Hmrs & Hsame & Hexact).
  cbv zeta in Hs.
  set (e1 := Z.max e (fexp prec emax (Zdigits2 m + e))) in *.
  set (m1 := m / 2 ^ (e1 - e)) in *.
  assert (-1074 <= e1) as He1 by (unfold e1; rewrite fexp_eq; lia).
  assert (0 <= e1 - e) as Hn by (unfold e1; lia).
  assert (0 <= m1) as Hm1 by (apply Z.div_pos; [exact Hm | apply pow2_pos; exact Hn]).
  assert (m1 < 2 ^ 53) as Hm1u.
  { unfold m1. apply Z.div_lt_upper_bound; [apply pow2_pos; exact Hn |].
    rewrite <- Z.pow_add_r by lia.
    pose proof (Zdigits2_upper m Hm) as Hu.
    pose proof (Zdigits2_nonneg m) as Hd.
    assert (2 ^ Zdigits2 m <= 2 ^ (e1 - e + 53)); [| lia].
    apply pow2_le. unfold e1. rewrite fexp_eq. lia. }
  set (m2 := round_nearest_even (shr_m mrs) (loc_of_shr_record mrs)).
  pose proof (round_nearest_even_range (shr_m mrs) (loc_of_shr_record mrs)) as [Hr Hre].
  fold m2 in Hr, Hre. rewrite Hmrs in Hr.
  destruct (shr_fexp_second m2 e1 He1 ltac:(lia)) as (mrs2 & e3 & Hs2 & Hm3 & Hcases).
  exists m2, (shr_m mrs2), e3. cbv zeta. fold e1. fold m1.
  split; [exact Hr |].
  split; [intros Hl Hd; rewrite Hre, Hmrs by (apply Hexact; assumption); reflexivity |].
  split; [intros He Hl; rewrite Hre, Hmrs by (rewrite Hsame by exact He; exact Hl); reflexivity |].
  split; [lia |].
  split; [exact Hcases |].
  unfold binary_round_aux. rewrite Hs. fold m2. rewrite Hs2. reflexivity.
Qed.

(** *** Rounding does not cross a double *)

Lemma loc_le_le (lx : location) (m K : Z) : loc_le lx m K -> m <= K.
Proof. destruct lx; simpl; lia. Qed.

Lemma val_renormalize (e1 : Z) :
  -1074 <= e1 -> val (2 ^ 52) (e1 + 1) = val (2 ^ 53) e1.
Proof.
  intros H. unfold val.
  replace (e1 + 1 + 1074) with (Z.succ (e1 + 1074)) by lia.
  rewrite Z.pow_succ_r by lia.
  change (2 ^ 53) with (2 * 2 ^ 52). lia.
Qed.

(** Rounding a number that is at most the double [Mc * 2^Ec] gives a zero
    or a finite double that is at most [Mc * 2^Ec]. *)
Lemma round_up (sx : bool) (m e : Z) (lx : location) (Mc Ec : Z) :
  0 <= m -> e <= Ec -> -1074 <= Ec <= 971 -> 0 < Mc < 2 ^ 53 ->
  loc_le lx m (Mc * 2 ^ (Ec - e)) ->
  binary_round_aux prec emax sx m e lx = S754_zero sx \/
  exists p e3,
    binary_round_aux prec emax sx m e lx = S754_finite sx p e3 /\
    -1074 <= e3 <= Ec /\ val (Zpos p) e3 <= val Mc Ec.
Proof.
  intros Hm He HEc HMc Hloc.
  destruct (binary_round_aux_spec sx m e lx Hm)
    as (m2 & m3 & e3 & Hr & Hexact & _ & Hm3 & Hcases & ->).
  cbv zeta in *. rewrite fexp_eq in *.
  set (e1 := Z.max e (Z.max (Zdigits2 m + e - 53) (-1074))) in *.
  set (m1 := m / 2 ^ (e1 - e)) in *.
  pose proof (loc_le_le _ _ _ Hloc) as HmK.
  pose proof (pow2_pos (Ec - e) ltac:(lia)) as HpK.
  assert (Zdigits2 m <= 53 + Ec - e) as Hd.
  { apply Zdigits2_le; [lia |]. split; [exact Hm |].
    replace (53 + Ec - e) with (53 + (Ec - e)) by lia.
    rewrite (Z.pow_add_r 2 53 (Ec - e)) by lia. nia. }
  assert (e <= e1 <= Ec) as He1 by (unfold e1; lia).
  assert (-1074 <= e1) as He1' by (unfold e1; lia).
  pose proof (pow2_pos (e1 - e) ltac:(lia)) as Hpn.
  pose proof (pow2_pos (Ec - e1) ltac:(lia)) as Hp1.
  assert (Mc * 2 ^ (Ec - e) = Mc * 2 ^ (Ec - e1) * 2 ^ (e1 - e)) as HK.
  { rewrite <- Z.mul_assoc, <- Z.pow_add_r by lia. do 2 f_equal. lia. }
  assert (m1 <= Mc * 2 ^ (Ec - e1)) as Hm1.
  { unfold m1. rewrite <- (Z.div_mul (Mc * 2 ^ (Ec - e1)) (2 ^ (e1 - e))) by lia.
    apply Z.div_le_mono; lia. }
  assert (m2 <= Mc * 2 ^ (Ec - e1)) as Hm2.
  { destruct (Z.eq_dec m2 m1) as [-> | Hne]; [exact Hm1 |].
    assert (m1 < Mc * 2 ^ (Ec - e1)); [| lia].
    destruct (Z_lt_le_dec m1 (Mc * 2 ^ (Ec - e1))) as [L | L]; [exact L | exfalso].
    assert (m1 * 2 ^ (e1 - e) <= m) as Hfloor.
    { unfold m1. rewrite Z.mul_comm. apply Z.mul_div_le. lia. }
    assert (m = Mc * 2 ^ (Ec - e)) as Em by nia.
    apply Hne, Hexact.
    - destruct lx; [reflexivity | simpl in Hloc; lia].
    - exists (Mc * 2 ^ (Ec - e1)). rewrite Em. exact HK. }
  destruct Hcases as [(Hlt & -> & ->) | (E2 & -> & ->)].
  - destruct m2 as [| p | p]; [left; reflexivity | | lia].
    right. exists p, e1.
    destruct (Z.leb_spec e1 971); [| lia].
    split; [reflexivity |]. split; [lia |].
    apply val_le_scaled; [lia | exact Hm2].
  - assert (e1 < Ec) as Hlt.
    { destruct (Z_lt_le_dec e1 Ec) as [L | L]; [exact L | exfalso].
      replace (Ec - e1) with 0 in Hm2 by lia. simpl in Hm2. lia. }
    right. exists (2 ^ 52)%positive, (e1 + 1).
    change (Z.pow 2 52) with (Zpos (2 ^ 52)).
    destruct (Z.leb_spec (e1 + 1) 971); [| lia].
    split; [reflexivity |]. split; [lia |].
    change (Zpos (2 ^ 52)) with (2 ^ 52).
    rewrite val_renormalize by lia. rewrite <- E2.
    apply val_le_scaled; [lia | exact Hm2].
Qed.

(** Rounding a number that is at least the double [Mc * 2^Ec] gives an
    infinity or a finite double that is at least [Mc * 2^Ec]. *)
Lemma round_low (sx : bool) (m e : Z) (lx : location) (Mc Ec : Z) :
  0 <= m -> e <= Ec -> -1074 <= Ec -> 0 < Mc < 2 ^ 53 ->
  Mc * 2 ^ (Ec - e) <= m ->
  binary_round_aux prec emax sx m e lx = S754_infinity sx \/
  exists p e3,
    binary_round_aux prec emax sx m e lx = S754_finite sx p e3 /\
    -1074 <= e3 /\ val Mc Ec <= val (Zpos p) e3.
Proof.
  intros Hm He HEc HMc HK.
  destruct (binary_round_aux_spec sx m e lx Hm)
    as (m2 & m3 & e3 & Hr & _ & _ & Hm3 & Hcases & ->).
  cbv zeta in *. rewrite fexp_eq in *.
  set (e1 := Z.max e (Z.max (Zdigits2 m + e - 53) (-1074))) in *.
  set (m1 := m / 2 ^ (e1 - e)) in *.
  pose proof (pow2_pos (Ec - e) ltac:(lia)) as HpK.
  assert (0 < m) as Hmpos by nia.
  assert (e <= e1) as He1 by (unfold e1; lia).
  assert (-1074 <= e1) as He1' by (unfold e1; lia).
  pose proof (pow2_pos (e1 - e) ltac:(lia)) as Hpn.
  assert (val Mc Ec <= val m2 e1 /\ 0 < m2) as [Hv Hm2].
  { destruct (Z_le_gt_dec e1 Ec) as [L | L].
    - pose proof (pow2_pos (Ec - e1) ltac:(lia)) as Hp1.
      assert (Mc * 2 ^ (Ec - e) = Mc * 2 ^ (Ec - e1) * 2 ^ (e1 - e)) as HKK.
      { rewrite <- Z.mul_assoc, <- Z.pow_add_r by lia. do 2 f_equal. lia. }
      assert (Mc * 2 ^ (Ec - e1) <= m1) as Hm1.
      { unfold m1. rewrite <- (Z.div_mul (Mc * 2 ^ (Ec - e1)) (2 ^ (e1 - e))) by lia.
        apply Z.div_le_mono; lia. }
      split; [apply val_ge_scaled; lia | nia].
    - assert (e1 = Zdigits2 m + e - 53) as Ee1 by (unfold e1 in *; lia).
      pose proof (Zdigits2_lower m Hmpos) as Hlow.
      assert (2 ^ 52 <= m1) as Hm1.
      { unfold m1. rewrite <- (Z.div_mul (2 ^ 52) (2 ^ (e1 - e))) by lia.
        apply Z.div_le_mono; [lia |].
        rewrite <- Z.pow_add_r by lia.
        replace (52 + (e1 - e)) with (Zdigits2 m - 1) by lia. exact Hlow. }
      split; [| lia].
      unfold val.
      rewrite (pow2_split (Ec + 1074) (e1 + 1074)) by lia.
      pose proof (pow2_pos (Ec + 1074) ltac:(lia)) as HpE.
      assert (2 <= 2 ^ (e1 + 1074 - (Ec + 1074))) as H2.
      { change 2 with (2 ^ 1) at 1. apply pow2_le. lia. }
      assert (Mc <= m2 * 2 ^ (e1 + 1074 - (Ec + 1074))) by nia.
      nia. }
  destruct Hcases as [(Hlt & -> & ->) | (E2 & -> & ->)].
  - destruct m2 as [| p | p]; [lia | | lia].
    destruct (Z.leb_spec e1 971); [| left; reflexivity].
    right. exists p, e1. split; [reflexivity |]. split; [lia | exact Hv].
  - change (Z.pow 2 52) with (Zpos (2 ^ 52)).
    destruct (Z.leb_spec (e1 + 1) 971); [| left; reflexivity].
    right. exists (2 ^ 52)%positive, (e1 + 1).
    split; [reflexivity |]. split; [lia |].
    change (Zpos (2 ^ 52)) with (2 ^ 52).
    rewrite val_renormalize by lia. rewrite <- E2. exact Hv.
Qed.

(** *** Doubles that are not negative, and their values *)

Lemma val_nonneg (m e : Z) : 0 <= m -> 0 <= val m e.
Proof.
  intros H. unfold val. apply Z.mul_nonneg_nonneg; [exact H |].
  apply Z.pow_nonneg. lia.
Qed.

Lemma SFval_nonneg (x : spec_float) : 0 <= SFval x.
Proof.
  destruct x as [| | | [] m e]; simpl; try lia. apply val_nonneg. lia.
Qed.

(** A valid finite double has an exponent of at least -1074 and a
    mantissa below 2^53, of at least 2^52 unless the exponent is -1074. *)
Lemma valid_finite (s : bool) (m : positive) (e : Z) :
  SpecFloat.valid_binary prec emax (S754_finite s m e) = true ->
  -1074 <= e <= 971 /\ Zpos m < 2 ^ 53 /\ (-1074 < e -> 2 ^ 52 <= Zpos m).
Proof.
  unfold SpecFloat.valid_binary, bounded, canonical_mantissa.
  intros H. apply andb_prop in H as [H1 H2].
  apply Z.eqb_eq in H1. apply Z.leb_le in H2. rewrite fexp_eq in H1.
  change (emax - prec) with 971 in H2.
  pose proof (digits2_pos_upper m) as Hu.
  pose proof (digits2_pos_lower m) as Hl.
  split; [lia |]. split.
  - assert (2 ^ Zpos (digits2_pos m) <= 2 ^ 53); [apply pow2_le; lia | lia].
  - intros He. assert (Zpos (digits2_pos m) = 53) as E by lia.
    rewrite E in Hl. exact Hl.
Qed.

(** For a valid double, being at most the normal double [Mc * 2^Ec] in
    value is an inequality between mantissas at the exponent of the
    double. *)
Lemma valid_le_scaled (s : bool) (m : positive) (e Mc Ec : Z) :
  SpecFloat.valid_binary prec emax (S754_finite s m e) = true ->
  0 < Mc < 2 ^ 53 -> -1074 <= Ec ->
  val (Zpos m) e <= val Mc Ec ->
  e <= Ec /\ Zpos m <= Mc * 2 ^ (Ec - e).
Proof.
  intros Hv HMc HEc H.
  destruct (valid_finite s m e Hv) as (He & Hm & Hnorm).
  assert (e <= Ec) as Hle.
  { destruct (Z_le_gt_dec e Ec) as [L | L]; [exact L | exfalso].
    specialize (Hnorm ltac:(lia)).
    unfold val in H.
    rewrite (pow2_split (Ec + 1074) (e + 1074)) in H by lia.
    pose proof (pow2_pos (Ec + 1074) ltac:(lia)) as HpE.
    assert (2 <= 2 ^ (e + 1074 - (Ec + 1074))) as H2.
    { change 2 with (2 ^ 1) at 1. apply pow2_le. lia. }
    assert (Zpos m * 2 ^ (e + 1074 - (Ec + 1074)) <= Mc) by nia.
    nia. }
  split; [exact Hle |]. apply scaled_le_val; [lia | exact H].
Qed.

(** *** Aligning and normalizing *)

Lemma shl_align_fst (m : positive) (e e' : Z) :
  e' <= e ->
  Zpos (fst (shl_align m e e')) = Zpos m * 2 ^ (e - e') /\
  snd (shl_align m e e') = e'.
Proof.
  intros H. unfold shl_align.
  destruct (e' - e) as [| d | d] eqn:E; simpl.
  - replace (e - e') with 0 by lia. split; lia.
  - lia.
  - rewrite Zpos_iter_xO. replace (e - e') with (Zpos d) by lia. split; [reflexivity | lia].
Qed.

(** [binary_round] rounds the exact number [m * 2^e]. *)
Lemma binary_round_bounds (m : positive) (e : Z) :
  exists mz ez,
    binary_round prec emax false m e =
    binary_round_aux prec emax false (Zpos mz) ez loc_Exact /\
    ez <= e /\ Zpos mz = Zpos m * 2 ^ (e - ez).
Proof.
  unfold binary_round.
  set (f := fexp prec emax (Zpos (digits2_pos m) + e)).
  destruct (Z_le_gt_dec f e) as [L | L].
  - destruct (shl_align_fst m e f L) as [H1 H2].
    destruct (shl_align m e f) as [mz ez]. simpl in *. subst ez.
    exists mz, f. split; [reflexivity |]. split; [exact L | exact H1].
  - unfold shl_align.
    destruct (f - e) as [| d | d] eqn:E; try lia.
    exists m, e. split; [reflexivity |]. split; [lia |].
    rewrite Z.sub_diag. simpl. lia.
Qed.

(** Normalizing a positive integer [S] at the exponent [e], when
    [S * 2^e] lies between two doubles. *)
Lemma binary_normalize_up (S e Mc Ec : Z) :
  0 <= S -> e <= Ec -> -1074 <= Ec <= 971 -> 0 < Mc < 2 ^ 53 ->
  S <= Mc * 2 ^ (Ec - e) ->
  SFnonneg (binary_normalize prec emax S e false) /\
  SFval (binary_normalize prec emax S e false) <= val Mc Ec.
Proof.
  intros HS He HEc HMc HK.
  destruct S as [| p | p]; [| | lia].
  - simpl. split; [left; reflexivity |]. apply val_nonneg. lia.
  - unfold binary_normalize.
    destruct (binary_round_bounds p e) as (mz & ez & -> & Hez & Hmz).
    destruct (round_up false (Zpos mz) ez loc_Exact Mc Ec) as [-> | (q & e3 & -> & He3 & Hv)];
      try lia.
    + simpl. rewrite Hmz.
      replace (Ec - ez) with ((Ec - e) + (e - ez)) by lia.
      rewrite Z.pow_add_r by lia.
      pose proof (pow2_pos (e - ez) ltac:(lia)). nia.
    + split; [left; reflexivity |]. simpl. apply val_nonneg. lia.
    + split; [right; exists q, e3; reflexivity | exact Hv].
Qed.

Lemma binary_normalize_low (S e Mc Ec : Z) :
  e <= Ec -> -1074 <= Ec -> 0 < Mc < 2 ^ 53 ->
  Mc * 2 ^ (Ec - e) <= S ->
  binary_normalize prec emax S e false = S754_infinity false \/
  exists q e3,
    binary_normalize prec emax S e false = S754_finite false q e3 /\
    val Mc Ec <= val (Zpos q) e3.
Proof.
  intros He HEc HMc HK.
  pose proof (pow2_pos (Ec - e) ltac:(lia)) as Hp.
  destruct S as [| p | p]; [nia | | nia].
  unfold binary_normalize.
  destruct (binary_round_bounds p e) as (mz & ez & -> & Hez & Hmz).
  destruct (round_low false (Zpos mz) ez loc_Exact Mc Ec) as [-> | (q & e3 & -> & He3 & Hv)];
    try lia.
  - rewrite Hmz.
    replace (Ec - ez) with ((Ec - e) + (e - ez)) by lia.
    rewrite Z.pow_add_r by lia.
    pose proof (pow2_pos (e - ez) ltac:(lia)). nia.
  - left. reflexivity.
  - right. exists q, e3. split; [reflexivity | exact Hv].
Qed.

(** *** Multiplication *)

Lemma two52_range : 0 < 2 ^ 52 < 2 ^ 53.
Proof. split; reflexivity. Qed.

Lemma val_one_scaled (e : Z) : e <= -52 -> 2 ^ 52 * 2 ^ (-52 - e) = 2 ^ (- e).
Proof. intros H. rewrite <- Z.pow_add_r by lia. f_equal. lia. Qed.

Lemma valid_le_one (s : bool) (m : positive) (e : Z) :
  valid (S754_finite s m e) = true ->
  val (Zpos m) e <= val (2 ^ 52) (-52) ->
  e <= -52 /\ Zpos m <= 2 ^ 52 * 2 ^ (-52 - e).
Proof.
  intros Hv H. apply (valid_le_scaled s m e (2 ^ 52) (-52) Hv two52_range); [lia | exact H].
Qed.

(** A product of a factor that is at most 1 and one that is at most [C]
    is at most [C]. *)
Lemma SFmul_le (x y : spec_float) (Mc Ec : Z) :
  valid x = true -> valid y = true -> SFnonneg x -> SFnonneg y ->
  0 < Mc < 2 ^ 53 -> -1074 <= Ec <= 971 ->
  SFval x <= val (2 ^ 52) (-52) ->
  SFval y <= val Mc Ec ->
  SFnonneg (SF64mul x y) /\ SFval (SF64mul x y) <= val Mc Ec.
Proof.
  intros Vx Vy Nx Ny HMc HEc Hx Hy.
  assert (0 <= val Mc Ec) as HC by (apply val_nonneg; lia).
  destruct Nx as [-> | (mx & ex & ->)], Ny as [-> | (my & ey & ->)];
    try (split; [left; reflexivity | exact HC]).
  simpl in Hx, Hy.
  destruct (valid_le_one _ _ _ Vx Hx) as [Hex Hmx].
  destruct (valid_le_scaled _ _ _ _ _ Vy HMc (proj1 HEc) Hy) as [Hey Hmy].
  rewrite val_one_scaled in Hmx by exact Hex.
  unfold SF64mul, SFmul. simpl xorb.
  pose proof (pow2_pos (- ex) ltac:(lia)) as Hp1.
  pose proof (pow2_pos (Ec - ey) ltac:(lia)) as Hp2.
  destruct (round_up false (Zpos (mx * my)) (ex + ey) loc_Exact Mc Ec)
    as [-> | (q & e3 & -> & He3 & Hv)]; try lia.
  - simpl. rewrite Pos2Z.inj_mul.
    replace (Ec - (ex + ey)) with ((- ex) + (Ec - ey)) by lia.
    rewrite Z.pow_add_r by lia. nia.
  - split; [left; reflexivity | exact HC].
  - split; [right; exists q, e3; reflexivity | exact Hv].
Qed.

Lemma SFmul_le_r (x y : spec_float) (Mc Ec : Z) :
  valid x = true -> valid y = true -> SFnonneg x -> SFnonneg y ->
  0 < Mc < 2 ^ 53 -> -1074 <= Ec <= 971 ->
  SFval x <= val Mc Ec ->
  SFval y <= val (2 ^ 52) (-52) ->
  SFnonneg (SF64mul x y) /\ SFval (SF64mul x y) <= val Mc Ec.
Proof.
  intros Vx Vy Nx Ny HMc HEc Hx Hy.
  assert (0 <= val Mc Ec) as HC by (apply val_nonneg; lia).
  destruct Nx as [-> | (mx & ex & ->)], Ny as [-> | (my & ey & ->)];
    try (split; [left; reflexivity | exact HC]).
  simpl in Hx, Hy.
  destruct (valid_le_one _ _ _ Vy Hy) as [Hey Hmy].
  destruct (valid_le_scaled _ _ _ _ _ Vx HMc (proj1 HEc) Hx) as [Hex Hmx].
  rewrite val_one_scaled in Hmy by exact Hey.
  unfold SF64mul, SFmul. simpl xorb.
  pose proof (pow2_pos (- ey) ltac:(lia)) as Hp1.
  pose proof (pow2_pos (Ec - ex) ltac:(lia)) as Hp2.
  destruct (round_up false (Zpos (mx * my)) (ex + ey) loc_Exact Mc Ec)
    as [-> | (q & e3 & -> & He3 & Hv)]; try lia.
  - simpl. rewrite Pos2Z.inj_mul.
    replace (Ec - (ex + ey)) with ((Ec - ex) + (- ey)) by lia.
    rewrite Z.pow_add_r by lia. nia.
  - split; [left; reflexivity | exact HC].
  - split; [right; exists q, e3; reflexivity | exact Hv].
Qed.

(** *** Addition and subtraction *)

Lemma val_aligned (m e ez : Z) :
  -1074 <= ez <= e -> val (m * 2 ^ (e - ez)) ez = val m e.
Proof.
  intros H. unfold val. rewrite <- Z.mul_assoc, <- Z.pow_add_r by lia.
  do 2 f_equal. lia.
Qed.

(** Adding a normal constant [y <= 1] to [0 <= x <= 1] gives a finite
    double between [y] and 2. *)
Lemma SFadd_const (x : spec_float) (my : positive) (ey : Z) :
  valid x = true -> valid (S754_finite false my ey) = true -> SFnonneg x ->
  SFval x <= val (2 ^ 52) (-52) ->
  val (Zpos my) ey <= val (2 ^ 52) (-52) ->
  exists q e3,
    SF64add x (S754_finite false my ey) = S754_finite false q e3 /\
    val (Zpos my) ey <= val (Zpos q) e3 <= val (2 ^ 52) (-51).
Proof.
  intros Vx Vy Nx Hx Hy.
  assert (val (2 ^ 52) (-52) <= val (2 ^ 52) (-51)) as H12.
  { apply val_le_scaled; [lia |]. simpl. lia. }
  destruct (valid_finite _ _ _ Vy) as (Hey & Hmy & _).
  destruct (valid_le_one _ _ _ Vy Hy) as [Hey1 Hmy1].
  destruct Nx as [-> | (mx & ex & ->)].
  - exists my, ey. split; [reflexivity | lia].
  - simpl in Hx.
    destruct (valid_finite _ _ _ Vx) as (Hex & Hmx & _).
    destruct (valid_le_one _ _ _ Vx Hx) as [Hex1 Hmx1].
    unfold SF64add, SFadd. cbv zeta.
    set (ez := Z.min ex ey).
    destruct (shl_align_fst mx ex ez ltac:(unfold ez; lia)) as [-> _].
    destruct (shl_align_fst my ey ez ltac:(unfold ez; lia)) as [-> _].
    unfold cond_Zopp.
    set (S := Zpos mx * 2 ^ (ex - ez) + Zpos my * 2 ^ (ey - ez)).
    assert (-1074 <= ez <= -52) as Hez by (unfold ez; lia).
    pose proof (pow2_pos (ex - ez) ltac:(unfold ez; lia)) as Hp1.
    pose proof (pow2_pos (ey - ez) ltac:(unfold ez; lia)) as Hp2.
    assert (Zpos mx * 2 ^ (ex - ez) <= 2 ^ 52 * 2 ^ (-52 - ez)) as Hx2.
    { replace (-52 - ez) with ((-52 - ex) + (ex - ez)) by lia.
      rewrite Z.pow_add_r by (unfold ez; lia). nia. }
    assert (Zpos my * 2 ^ (ey - ez) <= 2 ^ 52 * 2 ^ (-52 - ez)) as Hy2.
    { replace (-52 - ez) with ((-52 - ey) + (ey - ez)) by lia.
      rewrite Z.pow_add_r by (unfold ez; lia). nia. }
    assert (2 ^ 52 * 2 ^ (-51 - ez) = 2 * (2 ^ 52 * 2 ^ (-52 - ez))) as H2.
    { replace (-51 - ez) with (Z.succ (-52 - ez)) by lia.
      rewrite Z.pow_succ_r by lia. lia. }
    assert (0 <= S) as HS0 by (unfold S; nia).
    assert (S <= 2 ^ 52 * 2 ^ (-51 - ez)) as HSu by (rewrite H2; unfold S; lia).
    assert (Zpos my * 2 ^ (ey - ez) <= S) as HSl by (unfold S; nia).
    assert (ez <= ey) as Hezy by (unfold ez; lia).
    destruct (binary_normalize_up S ez (2 ^ 52) (-51) HS0 ltac:(lia) ltac:(lia)
                two52_range HSu) as [Hnn Hup].
    destruct (binary_normalize_low S ez (Zpos my) ey Hezy ltac:(lia) ltac:(lia) HSl)
      as [Hinf | (q & e3 & Hq & Hlow)].
    + exfalso. rewrite Hinf in Hnn. destruct Hnn as [? | (? & ? & ?)]; discriminate.
    + exists q, e3. split; [exact Hq |]. rewrite Hq in Hup. simpl in Hup. lia.
Qed.

(** A difference [x - y] with [0 <= y <= x] and [x - y <= C]. *)
Lemma SFsub_le (mx : positive) (ex : Z) (y : spec_float) (Mc Ec : Z) :
  valid (S754_finite false mx ex) = true -> valid y = true -> SFnonneg y ->
  0 < Mc < 2 ^ 53 -> -1074 <= Ec <= 971 ->
  SFval y <= val (Zpos mx) ex ->
  val (Zpos mx) ex - SFval y <= val Mc Ec ->
  (forall my ey, y = S754_finite false my ey -> Z.min ex ey <= Ec) ->
  SFnonneg (SF64sub (S754_finite false mx ex) y) /\
  SFval (SF64sub (S754_finite false mx ex) y) <= val Mc Ec.
Proof.
  intros Vx Vy Ny HMc HEc Hle Hdiff Hexp.
  destruct (valid_finite _ _ _ Vx) as (Hex & Hmx & _).
  destruct Ny as [-> | (my & ey & ->)].
  - simpl in *. split; [right; exists mx, ex; reflexivity | lia].
  - simpl in Hle, Hdiff. specialize (Hexp my ey eq_refl).
    destruct (valid_finite _ _ _ Vy) as (Hey & Hmy & _).
    unfold SF64sub, SFsub. cbv zeta.
    set (ez := Z.min ex ey) in *.
    destruct (shl_align_fst mx ex ez ltac:(unfold ez; lia)) as [-> _].
    destruct (shl_align_fst my ey ez ltac:(unfold ez; lia)) as [-> _].
    unfold cond_Zopp.
    assert (-1074 <= ez) as Hez by (unfold ez; lia).
    rewrite <- (val_aligned (Zpos mx) ex ez) in Hle, Hdiff by (unfold ez; lia).
    rewrite <- (val_aligned (Zpos my) ey ez) in Hle, Hdiff by (unfold ez; lia).
    set (X := Zpos mx * 2 ^ (ex - ez)) in *.
    set (Y := Zpos my * 2 ^ (ey - ez)) in *.
    pose proof (pow2_pos (ez + 1074) ltac:(lia)) as Hp.
    unfold val in Hle.
    assert (0 <= X - Y) as HD0 by nia.
    assert (X - Y <= Mc * 2 ^ (Ec - ez)) as HDu.
    { apply scaled_le_val; [lia |]. unfold val in *. nia. }
    apply (binary_normalize_up (X - Y) ez Mc Ec HD0 Hexp HEc HMc HDu).
Qed.

(** *** Division *)

Lemma new_location_zero (nb : Z) : new_location nb 0 = loc_Exact.
Proof.
  unfold new_location, new_location_even, new_location_odd.
  destruct (Z.even nb); reflexivity.
Qed.

Lemma new_location_nonzero (nb r : Z) :
  r <> 0 -> exists c, new_location nb r = loc_Inexact c.
Proof.
  intros H. unfold new_location, new_location_even, new_location_odd.
  destruct r as [| p | p]; [contradiction | |];
    destruct (Z.even nb); eexists; reflexivity.
Qed.

Lemma SFdiv_core_spec (mx : positive) (ex : Z) (my : positive) (ey : Z) :
  let e' := div_exponent mx ex my ey in
  let m' := Zpos mx * 2 ^ (ex - ey - e') in
  SFdiv_core_binary prec emax (Zpos mx) ex (Zpos my) ey =
  (m' / Zpos my, e', new_location (Zpos my) (m' mod Zpos my)).
Proof.
  intros e' m'. unfold SFdiv_core_binary.
  change (Zdigits2 (Zpos mx)) with (Zpos (digits2_pos mx)).
  change (Zdigits2 (Zpos my)) with (Zpos (digits2_pos my)).
  fold (div_exponent mx ex my ey). fold e'.
  assert (0 <= ex - ey - e') as Hs by (unfold e', div_exponent; lia).
  assert (match ex - ey - e' with
          | 0 => Zpos mx
          | Zpos _ => Z.shiftl (Zpos mx) (ex - ey - e')
          | Zneg _ => 0
          end = m') as ->.
  { unfold m'. destruct (ex - ey - e') as [| s | s] eqn:E.
    - simpl. lia.
    - rewrite Z.shiftl_mul_pow2 by lia. reflexivity.
    - lia. }
  unfold Z.div, Z.modulo. destruct (Z.div_eucl m' (Zpos my)). reflexivity.
Qed.

(** A quotient [x / y] with [x <= C * y]. *)
Lemma SFdiv_up (x : spec_float) (my : positive) (ey : Z) (Mc Ec : Z) :
  valid x = true -> valid (S754_finite false my ey) = true -> SFnonneg x ->
  0 < Mc < 2 ^ 53 -> -1074 <= Ec <= 971 ->
  SFval x * 2 ^ 1074 <= val Mc Ec * val (Zpos my) ey ->
  SFnonneg (SF64div x (S754_finite false my ey)) /\
  SFval (SF64div x (S754_finite false my ey)) <= val Mc Ec.
Proof.
  intros Vx Vy Nx HMc HEc H.
  assert (0 <= val Mc Ec) as HC by (apply val_nonneg; lia).
  destruct Nx as [-> | (mx & ex & ->)].
  - split; [left; reflexivity | exact HC].
  - simpl in H.
    destruct (valid_finite _ _ _ Vx) as (Hex & Hmx & _).
    destruct (valid_finite _ _ _ Vy) as (Hey & Hmy & _).
    unfold SF64div, SFdiv. rewrite SFdiv_core_spec. simpl xorb.
    set (e' := div_exponent mx ex my ey).
    set (m' := Zpos mx * 2 ^ (ex - ey - e')).
    set (dx := Zpos (digits2_pos mx)) in *.
    set (dy := Zpos (digits2_pos my)) in *.
    pose proof (digits2_pos_lower mx) as Hlx. fold dx in Hlx.
    pose proof (digits2_pos_upper my) as Huy. fold dy in Huy.
    (* in units of 2^-2148 *)
    assert (Zpos mx * 2 ^ (ex + 2148) <= Mc * Zpos my * 2 ^ (Ec + ey + 2148)) as H2.
    { unfold val in H.
      replace (ex + 2148) with ((ex + 1074) + 1074) by lia.
      rewrite (Z.pow_add_r 2 (ex + 1074) 1074) by lia.
      replace (Ec + ey + 2148) with ((Ec + 1074) + (ey + 1074)) by lia.
      rewrite (Z.pow_add_r 2 (Ec + 1074) (ey + 1074)) by lia. lia. }
    assert (dx + ex - (dy + ey) - 53 <= Ec) as Hdig.
    { destruct (Z_le_gt_dec (dx + ex - (dy + ey) - 53) Ec) as [L | L]; [exact L | exfalso].
      assert (0 < dy) as Hdy by (unfold dy; lia).
      assert (0 < dx) as Hdx by (unfold dx; lia).
      assert (2 ^ (dx - 1) * 2 ^ (ex + 2148) <= Zpos mx * 2 ^ (ex + 2148)) as A1.
      { apply Z.mul_le_mono_nonneg_r; [apply Z.pow_nonneg; lia | exact Hlx]. }
      assert (Mc * Zpos my * 2 ^ (Ec + ey + 2148) <
              2 ^ 53 * 2 ^ dy * 2 ^ (Ec + ey + 2148)) as A2.
      { apply Z.mul_lt_mono_pos_r; [apply pow2_pos; lia |].
        pose proof (pow2_pos dy ltac:(lia)). nia. }
      rewrite <- Z.pow_add_r in A1 by lia.
      rewrite <- !Z.pow_add_r in A2 by lia.
      assert (2 ^ (53 + dy + (Ec + ey + 2148)) <= 2 ^ (dx - 1 + (ex + 2148))) as A3.
      { apply pow2_le. lia. }
      lia. }
    assert (e' <= Ec) as He'.
    { unfold e', div_exponent. fold dx dy. rewrite fexp_eq. lia. }
    assert (0 <= ex - ey - e') as Hs by (unfold e', div_exponent; lia).
    assert (0 <= ey + e' + 2148) as Hb.
    { unfold e', div_exponent. fold dx dy. rewrite fexp_eq. lia. }
    pose proof (pow2_pos (ey + e' + 2148) Hb) as Hpb.
    pose proof (pow2_pos (ex - ey - e') Hs) as Hps.
    pose proof (pow2_pos (Ec - e') ltac:(lia)) as Hpc.
    assert (m' <= Mc * 2 ^ (Ec - e') * Zpos my) as Hm'.
    { replace (ex + 2148) with ((ex - ey - e') + (ey + e' + 2148)) in H2 by lia.
      replace (Ec + ey + 2148) with ((Ec - e') + (ey + e' + 2148)) in H2 by lia.
      rewrite (Z.pow_add_r 2 (ex - ey - e') (ey + e' + 2148)) in H2 by lia.
      rewrite (Z.pow_add_r 2 (Ec - e') (ey + e' + 2148)) in H2 by lia.
      apply (Z.mul_le_mono_pos_r _ _ (2 ^ (ey + e' + 2148)) Hpb).
      unfold m'.
      replace (Zpos mx * 2 ^ (ex - ey - e') * 2 ^ (ey + e' + 2148))
        with (Zpos mx * (2 ^ (ex - ey - e') * 2 ^ (ey + e' + 2148))) by ring.
      replace (Mc * 2 ^ (Ec - e') * Zpos my * 2 ^ (ey + e' + 2148))
        with (Mc * Zpos my * (2 ^ (Ec - e') * 2 ^ (ey + e' + 2148))) by ring.
      exact H2. }
    assert (0 <= m') as Hm0 by (unfold m'; nia).
    pose proof (Z.div_mod m' (Zpos my) ltac:(lia)) as Hdm.
    pose proof (Z.mod_pos_bound m' (Zpos my) ltac:(lia)) as Hmod.
    assert (0 <= m' / Zpos my) as Hq0 by (apply Z.div_pos; lia).
    assert (loc_le (new_location (Zpos my) (m' mod Zpos my)) (m' / Zpos my)
              (Mc * 2 ^ (Ec - e'))) as Hloc.
    { destruct (Z.eq_dec (m' mod Zpos my) 0) as [E | E].
      - rewrite E, new_location_zero. simpl. nia.
      - destruct (new_location_nonzero (Zpos my) _ E) as [c ->]. simpl. nia. }
    destruct (round_up false (m' / Zpos my) e' _ Mc Ec Hq0 He' HEc HMc Hloc)
      as [-> | (q & e3 & -> & He3 & Hv)].
    + split; [left; reflexivity | exact HC].
    + split; [right; exists q, e3; reflexivity | exact Hv].
Qed.

(** A quotient [x / y] with [C * y <= x], computed at an exponent that
    is at most the one of [C]. *)
Lemma SFdiv_low (mx : positive) (ex : Z) (my : positive) (ey : Z) (Mc Ec : Z) :
  valid (S754_finite false mx ex) = true ->
  valid (S754_finite false my ey) = true ->
  0 < Mc < 2 ^ 53 -> -1074 <= Ec ->
  div_exponent mx ex my ey <= Ec ->
  val Mc Ec * val (Zpos my) ey <= val (Zpos mx) ex * 2 ^ 1074 ->
  SF64div (S754_finite false mx ex) (S754_finite false my ey) = S754_infinity false \/
  exists q e3,
    SF64div (S754_finite false mx ex) (S754_finite false my ey) = S754_finite false q e3 /\
    val Mc Ec <= val (Zpos q) e3.
Proof.
  intros Vx Vy HMc HEc He' H.
  destruct (valid_finite _ _ _ Vx) as (Hex & Hmx & _).
  destruct (valid_finite _ _ _ Vy) as (Hey & Hmy & _).
  unfold SF64div, SFdiv. rewrite SFdiv_core_spec. simpl xorb.
  set (e' := div_exponent mx ex my ey) in *.
  set (m' := Zpos mx * 2 ^ (ex - ey - e')).
  assert (Mc * Zpos my * 2 ^ (Ec + ey + 2148) <= Zpos mx * 2 ^ (ex + 2148)) as H2.
  { unfold val in H.
    replace (ex + 2148) with ((ex + 1074) + 1074) by lia.
    rewrite (Z.pow_add_r 2 (ex + 1074) 1074) by lia.
    replace (Ec + ey + 2148) with ((Ec + 1074) + (ey + 1074)) by lia.
    rewrite (Z.pow_add_r 2 (Ec + 1074) (ey + 1074)) by lia. lia. }
  assert (0 <= ex - ey - e') as Hs by (unfold e', div_exponent; lia).
  assert (0 <= ey + e' + 2148) as Hb.
  { unfold e', div_exponent. rewrite fexp_eq. lia. }
  pose proof (pow2_pos (ey + e' + 2148) Hb) as Hpb.
  pose proof (pow2_pos (ex - ey - e') Hs) as Hps.
  pose proof (pow2_pos (Ec - e') ltac:(lia)) as Hpc.
  assert (Mc * 2 ^ (Ec - e') * Zpos my <= m') as Hm'.
  { replace (ex + 2148) with ((ex - ey - e') + (ey + e' + 2148)) in H2 by lia.
    replace (Ec + ey + 2148) with ((Ec - e') + (ey + e' + 2148)) in H2 by lia.
    rewrite (Z.pow_add_r 2 (ex - ey - e') (ey + e' + 2148)) in H2 by lia.
      rewrite (Z.pow_add_r 2 (Ec - e') (ey + e' + 2148)) in H2 by lia.
    apply (Z.mul_le_mono_pos_r _ _ (2 ^ (ey + e' + 2148)) Hpb).
    unfold m'.
    replace (Zpos mx * 2 ^ (ex - ey - e') * 2 ^ (ey + e' + 2148))
      with (Zpos mx * (2 ^ (ex - ey - e') * 2 ^ (ey + e' + 2148))) by ring.
    replace (Mc * 2 ^ (Ec - e') * Zpos my * 2 ^ (ey + e' + 2148))
      with (Mc * Zpos my * (2 ^ (Ec - e') * 2 ^ (ey + e' + 2148))) by ring.
    exact H2. }
  assert (0 <= m') as Hm0 by (unfold m'; nia).
  assert (Mc * 2 ^ (Ec - e') <= m' / Zpos my) as Hq.
  { apply Z.div_le_lower_bound; lia. }
  assert (0 <= m' / Zpos my) as Hq0 by (apply Z.div_pos; lia).
  destruct (round_low false (m' / Zpos my) e' (new_location (Zpos my) (m' mod Zpos my))
              Mc Ec Hq0 He' HEc HMc Hq)
    as [-> | (q & e3 & -> & He3 & Hv)].
  - left. reflexivity.
  - right. exists q, e3. split; [reflexivity | exact Hv].
Qed.

(** *** The constants of getWind as doubles *)

Lemma Prim2SF_one : Prim2SF 1 = S754_finite false M_one (-52).
Proof. reflexivity. Qed.

Lemma Prim2SF_two : Prim2SF 2 = S754_finite false M_one (-51).
Proof. reflexivity. Qed.

Lemma Prim2SF_k : Prim2SF k = S754_finite false M_k (-61).
Proof. reflexivity. Qed.

Lemma Prim2SF_hundred : Prim2SF 100 = S754_finite false M_hundred (-46).
Proof. reflexivity. Qed.

Lemma Prim2SF_two_hundred : Prim2SF 200 = S754_finite false M_hundred (-45).
Proof. reflexivity. Qed.

Lemma val_one : val (Zpos M_one) (-52) = 2 ^ 1074.
Proof.
  unfold val. change (Zpos M_one) with (2 ^ 52). change (-52 + 1074) with 1022.
  rewrite <- Z.pow_add_r by lia. reflexivity.
Qed.

Lemma val_two : val (Zpos M_one) (-51) = 2 * 2 ^ 1074.
Proof.
  unfold val. change (Zpos M_one) with (2 ^ 52). change (-51 + 1074) with 1023.
  rewrite <- Z.pow_add_r by lia. change (52 + 1023) with (Z.succ 1074).
  rewrite Z.pow_succ_r by lia. reflexivity.
Qed.

Lemma val_integer (c j : Z) :
  0 <= j <= 1074 -> val (c * 2 ^ j) (- j) = c * 2 ^ 1074.
Proof.
  intros H. unfold val. rewrite <- Z.mul_assoc, <- Z.pow_add_r by lia.
  do 2 f_equal. lia.
Qed.

Lemma val_hundred : val (Zpos M_hundred) (-46) = 100 * 2 ^ 1074.
Proof. apply (val_integer 100 46). lia. Qed.

Lemma val_two_hundred : val (Zpos M_hundred) (-45) = 200 * 2 ^ 1074.
Proof.
  change (Zpos M_hundred) with (200 * 2 ^ 45). apply (val_integer 200 45). lia.
Qed.

Lemma val_k_le_one : val (Zpos M_k) (-61) <= val (Zpos M_one) (-52).
Proof. apply val_le_scaled; [lia |]. vm_compute. discriminate. Qed.

Lemma M_k_range : 0 < Zpos M_k < 2 ^ 53.
Proof. split; reflexivity. Qed.

Lemma M_hundred_range : 0 < Zpos M_hundred < 2 ^ 53.
Proof. split; reflexivity. Qed.

(** *** Rounding to the nearest integer *)

Lemma SFnearest_bounds (x : spec_float) (c : Z) :
  valid x = true -> SFnonneg x -> 0 <= c ->
  SFval x <= c * 2 ^ 1074 ->
  exists z, SFnearest x = Some z /\ 0 <= z <= c.
Proof.
  intros Vx Nx Hc H.
  destruct Nx as [-> | (m & e & ->)].
  - exists 0. split; [reflexivity | lia].
  - simpl in H. destruct (valid_finite _ _ _ Vx) as (He & _ & _).
    unfold val in H. unfold SFnearest.
    destruct e as [| p | p].
    + exists (Zpos m). split; [reflexivity |].
      simpl in H. pose proof (pow2_pos 1074 ltac:(lia)). nia.
    + eexists. split; [reflexivity |].
      rewrite Z.shiftl_mul_pow2 by lia.
      rewrite Z.pow_add_r, Z.mul_assoc in H by lia.
      pose proof (pow2_pos 1074 ltac:(lia)) as H1.
      pose proof (pow2_pos (Zpos p) ltac:(lia)) as H2.
      split; [lia |].
      apply (Z.mul_le_mono_pos_r _ _ (2 ^ 1074) H1). exact H.
    + eexists. split; [reflexivity |].
      rewrite Z.shiftr_div_pow2 by lia.
      pose proof (pow2_pos (Zpos p) ltac:(lia)) as Hp.
      pose proof (pow2_pos (Zneg p + 1074) ltac:(lia)) as Hq.
      assert (2 ^ 1074 = 2 ^ Zpos p * 2 ^ (Zneg p + 1074)) as E.
      { rewrite <- Z.pow_add_r by lia. f_equal. lia. }
      rewrite E, !Z.mul_assoc in H.
      assert (Zpos m <= c * 2 ^ Zpos p) as Hm.
      { apply (Z.mul_le_mono_pos_r _ _ (2 ^ (Zneg p + 1074)) Hq). exact H. }
      rewrite Z.pow_add_r by lia. change (2 ^ 1) with 2.
      split.
      * apply Z.div_pos; lia.
      * assert ((2 * Zpos m + 2 ^ Zpos p) / (2 ^ Zpos p * 2) < c + 1); [| lia].
        apply Z.div_lt_upper_bound; [lia |]. nia.
Qed.

(** *** From spec_float to float *)

Lemma iround_bounds (x : float) (c : Z) :
  fnonneg x -> 0 <= c <= INT_MAX -> fval x <= c * 2 ^ 1074 ->
  0 <= iround x <= c.
Proof.
  intros Nx Hc H.
  destruct (SFnearest_bounds (Prim2SF x) c (Prim2SF_valid x) Nx ltac:(lia) H)
    as (z & Hz & Hr).
  unfold iround. rewrite Hz.
  unfold INT_MIN, INT_MAX in *.
  destruct (Z.leb_spec (- 2 ^ 31) z); [| lia].
  destruct (Z.leb_spec z (2 ^ 31 - 1)); simpl; lia.
Qed.

(** For valid positive doubles the comparison follows the values. *)
Lemma SFltb_val (m1 : positive) (e1 : Z) (m2 : positive) (e2 : Z) :
  valid (S754_finite false m1 e1) = true ->
  valid (S754_finite false m2 e2) = true ->
  SFltb (S754_finite false m1 e1) (S754_finite false m2 e2) = true ->
  val (Zpos m1) e1 <= val (Zpos m2) e2.
Proof.
  intros V1 V2 H.
  destruct (valid_finite _ _ _ V1) as (He1 & Hm1 & _).
  destruct (valid_finite _ _ _ V2) as (He2 & Hm2 & Hn2).
  unfold SFltb, SFcompare in H.
  change (IntDef.Z.compare e1 e2) with (Z.compare e1 e2) in H.
  change (PosDef.Pos.compare_cont Eq m1 m2) with (Pos.compare m1 m2) in H.
  destruct (Z.compare e1 e2) eqn:Ecmp.
  - apply Z.compare_eq in Ecmp. subst e2.
    destruct (Pos.compare m1 m2) eqn:Epos; try discriminate.
    unfold val. apply Z.mul_le_mono_nonneg_r; [apply Z.pow_nonneg; lia |].
    apply Z.lt_le_incl. exact Epos.
  - change (e1 < e2) in Ecmp.
    assert (-1074 < e2) as Hlt by lia. specialize (Hn2 Hlt).
    unfold val.
    rewrite (pow2_split (e1 + 1074) (e2 + 1074)) by lia.
    pose proof (pow2_pos (e1 + 1074) ltac:(lia)) as Hp.
    assert (2 <= 2 ^ (e2 + 1074 - (e1 + 1074))) as H2.
    { change 2 with (2 ^ 1) at 1. apply pow2_le. lia. }
    change (2 ^ 53) with (2 * 2 ^ 52) in Hm1.
    assert (Zpos m1 <= Zpos m2 * 2 ^ (e2 + 1074 - (e1 + 1074))) by nia.
    nia.
  - discriminate.
Qed.

(** A double that compares below 1 in absolute value: its absolute value
    is zero or positive and at most 1. *)
Lemma abs_lt_one (x : float) :
  (abs x <? 1)%float = true ->
  SFnonneg (SFabs (Prim2SF x)) /\ SFval (SFabs (Prim2SF x)) <= val (Zpos M_one) (-52).
Proof.
  rewrite ltb_spec, abs_spec, Prim2SF_one.
  pose proof (Prim2SF_valid x) as V.
  pose proof (Prim2SF_valid 1) as V1. rewrite Prim2SF_one in V1.
  destruct (Prim2SF x) as [s | s | | s m e]; intros H.
  - split; [left; reflexivity |]. apply val_nonneg. lia.
  - destruct s; discriminate.
  - discriminate.
  - split; [right; exists m, e; reflexivity |].
    apply (SFltb_val m e M_one (-52)); [| exact V1 | exact H].
    destruct s; exact V.
Qed.

Lemma valid_abs (x : spec_float) : valid x = true -> valid (SFabs x) = true.
Proof. destruct x; simpl; auto. Qed.

Lemma SFmul_square (x : spec_float) : SF64mul x x = SF64mul (SFabs x) (SFabs x).
Proof. destruct x as [[] | [] | | [] m e]; reflexivity. Qed.

(** *** The bounds on doubles *)

Lemma valid_digits (s : bool) (m : positive) (e : Z) :
  valid (S754_finite s m e) = true -> -1074 < e -> Zpos (digits2_pos m) = 53.
Proof.
  unfold SpecFloat.valid_binary, bounded, canonical_mantissa.
  intros H He. apply andb_prop in H as [H1 _].
  apply Z.eqb_eq in H1. rewrite fexp_eq in H1. lia.
Qed.

Lemma fmul_le (a b : float) (Mc Ec : Z) :
  fnonneg a -> fnonneg b -> 0 < Mc < 2 ^ 53 -> -1074 <= Ec <= 971 ->
  fval a <= val (2 ^ 52) (-52) -> fval b <= val Mc Ec ->
  fnonneg (a * b) /\ fval (a * b) <= val Mc Ec.
Proof.
  unfold fnonneg, fval. intros Na Nb HM HE Ha Hb. rewrite mul_spec.
  apply SFmul_le; auto using Prim2SF_valid.
Qed.

Lemma fmul_le_r (a b : float) (Mc Ec : Z) :
  fnonneg a -> fnonneg b -> 0 < Mc < 2 ^ 53 -> -1074 <= Ec <= 971 ->
  fval a <= val Mc Ec -> fval b <= val (2 ^ 52) (-52) ->
  fnonneg (a * b) /\ fval (a * b) <= val Mc Ec.
Proof.
  unfold fnonneg, fval. intros Na Nb HM HE Ha Hb. rewrite mul_spec.
  apply SFmul_le_r; auto using Prim2SF_valid.
Qed.

(** The square of a double below 1 in absolute value is at most 1. *)
Lemma fsquare_le (a : float) :
  (abs a <? 1)%float = true ->
  fnonneg (a * a) /\ fval (a * a) <= val (2 ^ 52) (-52).
Proof.
  intros H. apply abs_lt_one in H as [N L].
  unfold fnonneg, fval. rewrite mul_spec, SFmul_square.
  pose proof (valid_abs _ (Prim2SF_valid a)) as V.
  apply SFmul_le; auto; [exact two52_range | lia].
Qed.

Lemma fabs_le (a : float) :
  (abs a <? 1)%float = true ->
  fnonneg (abs a) /\ fval (abs a) <= val (2 ^ 52) (-52).
Proof.
  intros H. apply abs_lt_one in H. unfold fnonneg, fval.
  rewrite abs_spec. exact H.
Qed.

(** A valid double of value at least 1 has an exponent of at least -52. *)
Lemma valid_ge_one (s : bool) (m : positive) (e : Z) :
  valid (S754_finite s m e) = true ->
  val (2 ^ 52) (-52) <= val (Zpos m) e -> -52 <= e.
Proof.
  intros V H. destruct (valid_finite _ _ _ V) as (He & Hm & _).
  destruct (Z.le_gt_cases (-52) e) as [| Hlt]; [assumption | exfalso].
  assert (-1074 <= e <= -52) as Hr by lia.
  pose proof (scaled_ge_val _ _ _ _ Hr H) as Hs.
  assert (2 ^ 1 <= 2 ^ (-52 - e)) as Hp by (apply pow2_le; lia).
  change (2 ^ 1) with 2 in Hp. change (2 ^ 53) with (2 ^ 52 * 2) in Hm.
  pose proof two52_range as [H52 _].
  assert (2 ^ 52 * 2 <= 2 ^ 52 * 2 ^ (-52 - e)); [| lia].
  apply Z.mul_le_mono_nonneg_l; lia.
Qed.

(** [2 / s] for a double [s] between 1 and 2: between 1 and 2. *)
Lemma SFdiv_two (q : positive) (e3 : Z) :
  valid (S754_finite false q e3) = true ->
  val (2 ^ 52) (-52) <= val (Zpos q) e3 <= val (2 ^ 52) (-51) ->
  exists q' e',
    SF64div (S754_finite false M_one (-51)) (S754_finite false q e3) =
    S754_finite false q' e' /\
    val (2 ^ 52) (-52) <= val (Zpos q') e' <= val (2 ^ 52) (-51).
Proof.
  intros Vs [Hs1 Hs2].
  pose proof (Prim2SF_valid 2) as V2. rewrite Prim2SF_two in V2.
  pose proof (valid_ge_one _ _ _ Vs Hs1) as Hlo.
  assert (-1074 <= -51) as H51 by lia.
  destruct (valid_le_scaled _ _ _ _ _ Vs two52_range H51 Hs2) as [Hhi _].
  assert (-1074 < e3) as Hn by lia.
  pose proof (valid_digits _ _ _ Vs Hn) as Dq.
  assert (SFnonneg (S754_finite false M_one (-51))) as N2
    by (right; exists M_one, (-51); reflexivity).
  assert (-1074 <= -51 <= 971) as R51 by lia.
  assert (-1074 <= -52) as R52 by lia.
  pose proof (pow2_pos 1074 ltac:(lia)) as HU.
  change (val (2 ^ 52) (-52)) with (val (Zpos M_one) (-52)) in Hs1 |- *.
  change (val (2 ^ 52) (-51)) with (val (Zpos M_one) (-51)) in Hs2 |- *.
  rewrite val_one in Hs1 |- *. rewrite val_two in Hs2 |- *.
  assert (SFval (S754_finite false M_one (-51)) * 2 ^ 1074 <=
          val (2 ^ 52) (-51) * val (Zpos q) e3) as Hup.
  { change (SFval (S754_finite false M_one (-51))) with (val (Zpos M_one) (-51)).
    change (val (2 ^ 52) (-51)) with (val (Zpos M_one) (-51)).
    rewrite val_two. apply Z.mul_le_mono_nonneg_l; lia. }
  destruct (SFdiv_up _ q e3 (2 ^ 52) (-51) V2 Vs N2 two52_range R51 Hup)
    as [Nt Lt].
  assert (div_exponent M_one (-51) q e3 <= -52) as Hd.
  { unfold div_exponent. rewrite Dq, fexp_eq.
    change (Zpos (digits2_pos M_one)) with 53. lia. }
  assert (val (2 ^ 52) (-52) * val (Zpos q) e3 <=
          val (Zpos M_one) (-51) * 2 ^ 1074) as Hlow.
  { change (val (2 ^ 52) (-52)) with (val (Zpos M_one) (-52)).
    rewrite val_one, val_two. rewrite (Z.mul_comm (2 * 2 ^ 1074)).
    apply Z.mul_le_mono_nonneg_l; lia. }
  destruct (SFdiv_low M_one (-51) q e3 (2 ^ 52) (-52) V2 Vs two52_range R52 Hd Hlow)
    as [Einf | (q' & e' & Et & Ht)].
  - rewrite Einf in Nt. destruct Nt as [? | (? & ? & ?)]; discriminate.
  - exists q', e'. split; [exact Et |]. rewrite Et in Lt. simpl in Lt.
    change (val (2 ^ 52) (-52)) with (val (Zpos M_one) (-52)) in Ht.
    change (val (2 ^ 52) (-51)) with (val (Zpos M_one) (-51)) in Lt.
    rewrite val_one in Ht. rewrite val_two in Lt. split; assumption.
Qed.

Lemma double_of_Z_hundred : double_of_Z REL_FACTOR_ALTITUDE = 100%float.
Proof. vm_compute. reflexivity. Qed.

Lemma double_of_Z_two_hundred : double_of_Z REL_FACTOR_TIME = 200%float.
Proof. vm_compute. reflexivity. Qed.

(** The altitude weight of a sample inside the altitude window. *)
Lemma altitude_weight_bounds (ad : float) :
  (abs ad <? 1)%float = true ->
  0 <= iround ((2 / (ad * ad + 1) - 1) * 100)%float <= 100.
Proof.
  intros H. destruct (fsquare_le ad H) as [Np Lp].
  pose proof (Prim2SF_valid (ad * ad)) as Vp.
  pose proof (Prim2SF_valid 1) as V1. rewrite Prim2SF_one in V1.
  assert (val (Zpos M_one) (-52) <= val (2 ^ 52) (-52)) as H11 by apply Z.le_refl.
  destruct (SFadd_const _ M_one (-52) Vp V1 Np Lp H11)
    as (q & e3 & Es & Hs).
  pose proof (Prim2SF_valid (ad * ad + 1)) as Vs.
  rewrite add_spec, Prim2SF_one, Es in Vs.
  destruct (SFdiv_two q e3 Vs Hs) as (q' & e' & Et & Ht1 & Ht2).
  pose proof (Prim2SF_valid (2 / (ad * ad + 1))) as Vt.
  rewrite div_spec, add_spec, Prim2SF_two, Prim2SF_one, Es, Et in Vt.
  assert (-1074 <= -52 <= 971) as R52 by lia.
  assert (SFnonneg (S754_finite false M_one (-52))) as N1
    by (right; exists M_one, (-52); reflexivity).
  pose proof (pow2_pos 1074 ltac:(lia)) as HU.
  assert (SFval (S754_finite false M_one (-52)) <= val (Zpos q') e') as Hge
    by exact Ht1.
  assert (val (Zpos q') e' - SFval (S754_finite false M_one (-52)) <=
          val (2 ^ 52) (-52)) as Hdiff.
  { change (SFval (S754_finite false M_one (-52))) with (val (Zpos M_one) (-52)).
    change (val (2 ^ 52) (-51)) with (val (Zpos M_one) (-51)) in Ht2.
    change (val (2 ^ 52) (-52)) with (val (Zpos M_one) (-52)).
    rewrite val_two in Ht2. rewrite val_one. lia. }
  assert (forall my ey, S754_finite false M_one (-52) = S754_finite false my ey ->
                        Z.min e' ey <= -52) as Hmin.
  { intros my ey E. injection E as _ <-. lia. }
  destruct (SFsub_le q' e' _ (2 ^ 52) (-52) Vt V1 N1 two52_range R52 Hge Hdiff Hmin)
    as [Nu Lu].
  assert (fnonneg (2 / (ad * ad + 1) - 1)) as Nu'.
  { unfold fnonneg.
    rewrite sub_spec, div_spec, add_spec, Prim2SF_two, Prim2SF_one, Es, Et.
    exact Nu. }
  assert (fval (2 / (ad * ad + 1) - 1) <= val (2 ^ 52) (-52)) as Lu'.
  { unfold fval.
    rewrite sub_spec, div_spec, add_spec, Prim2SF_two, Prim2SF_one, Es, Et.
    exact Lu. }
  assert (fnonneg 100) as Nh
    by (right; exists M_hundred, (-46); reflexivity).
  assert (fval 100 <= val (Zpos M_hundred) (-46)) as Lh by apply Z.le_refl.
  assert (-1074 <= -46 <= 971) as R46 by lia.
  destruct (fmul_le _ _ _ _ Nu' Nh M_hundred_range R46 Lu' Lh) as [Nw Lw].
  rewrite val_hundred in Lw.
  apply iround_bounds; [exact Nw | unfold INT_MAX; lia | exact Lw].
Qed.

(** The time weight of a sample inside the time window; [z] is the
    quotient whose absolute value is [timediff]. *)
Lemma time_weight_bounds (z : float) :
  (abs z <? 1)%float = true ->
  0 <= iround (k * (1 - abs z) / (abs z * abs z + k) * 200)%float <= 200.
Proof.
  intros H. destruct (fabs_le z H) as [Ntd Ltd].
  pose proof (pow2_pos 1074 ltac:(lia)) as HU.
  assert (-1074 <= -52 <= 971) as R52 by lia.
  pose proof (Prim2SF_valid 1) as V1. rewrite Prim2SF_one in V1.
  pose proof (Prim2SF_valid k) as Vk. rewrite Prim2SF_k in Vk.
  (* u = 1 - timediff *)
  assert (fnonneg (1 - abs z) /\ fval (1 - abs z) <= val (2 ^ 52) (-52))
    as [Nu Lu].
  { unfold fnonneg, fval. rewrite sub_spec, Prim2SF_one.
    pose proof (SFval_nonneg (Prim2SF (abs z))) as H0.
    apply SFsub_le;
      [exact V1 | apply Prim2SF_valid | exact Ntd | exact two52_range
      | exact R52 | exact Ltd | | intros my ey _; lia].
    change (val (2 ^ 52) (-52)) with (val (Zpos M_one) (-52)). lia. }
  (* n = k * u *)
  assert (fnonneg k) as Nk by (right; exists M_k, (-61); reflexivity).
  assert (fval k <= val (Zpos M_k) (-61)) as Lk by apply Z.le_refl.
  assert (-1074 <= -61 <= 971) as R61 by lia.
  destruct (fmul_le_r _ _ _ _ Nk Nu M_k_range R61 Lk Lu) as [Nn Ln].
  (* p = timediff * timediff *)
  destruct (fmul_le _ _ _ _ Ntd Ntd two52_range R52 Ltd Ltd) as [Np Lp].
  (* d = p + k *)
  pose proof (Prim2SF_valid (abs z * abs z)) as Vp.
  destruct (SFadd_const _ M_k (-61) Vp Vk Np Lp val_k_le_one)
    as (q & e3 & Ed & Hd1 & Hd2).
  pose proof (Prim2SF_valid (abs z * abs z + k)) as Vd.
  rewrite add_spec, Prim2SF_k, Ed in Vd.
  (* r = n / d *)
  assert (SFval (Prim2SF (k * (1 - abs z))) * 2 ^ 1074 <=
          val (2 ^ 52) (-52) * val (Zpos q) e3) as Hup.
  { change (val (2 ^ 52) (-52)) with (val (Zpos M_one) (-52)).
    rewrite val_one, Z.mul_comm. apply Z.mul_le_mono_nonneg_l; [lia |].
    unfold fval in Ln. lia. }
  destruct (SFdiv_up _ q e3 (2 ^ 52) (-52) (Prim2SF_valid _) Vd Nn
              two52_range R52 Hup) as [Nr Lr].
  assert (fnonneg (k * (1 - abs z) / (abs z * abs z + k))) as Nr'.
  { unfold fnonneg. rewrite div_spec, (add_spec (abs z * abs z)), Prim2SF_k, Ed.
    exact Nr. }
  assert (fval (k * (1 - abs z) / (abs z * abs z + k)) <= val (2 ^ 52) (-52))
    as Lr'.
  { unfold fval. rewrite div_spec, (add_spec (abs z * abs z)), Prim2SF_k, Ed.
    exact Lr. }
  (* w = r * 200 *)
  assert (fnonneg 200) as Nh
    by (right; exists M_hundred, (-45); reflexivity).
  assert (fval 200 <= val (Zpos M_hundred) (-45)) as Lh by apply Z.le_refl.
  assert (-1074 <= -45 <= 971) as R45 by lia.
  destruct (fmul_le _ _ _ _ Nr' Nh M_hundred_range R45 Lr' Lh) as [Nw Lw].
  rewrite val_two_hundred in Lw.
  apply iround_bounds; [exact Nw | unfold INT_MAX; lia | exact Lw].
Qed.

(** *** The weights of a sample inside both windows *)

Lemma in_range_windows (now : Z) (alt : float) (m : WindMeasurement) :
  in_range now alt m = true ->
  (abs (altdiff alt m) <? 1)%float = true /\ (timediff now m <? 1)%float = true.
Proof. unfold in_range. intros H. apply andb_prop in H. exact H. Qed.

Lemma a_quality_bounds (now : Z) (alt : float) (m : WindMeasurement) :
  in_range now alt m = true -> 0 <= a_quality alt m <= 100.
Proof.
  intros H. apply in_range_windows in H as [Ha _].
  unfold a_quality. rewrite double_of_Z_hundred.
  pose proof (altitude_weight_bounds _ Ha) as B.
  rewrite uint_wrap_small; [exact B | lia].
Qed.

Lemma t_quality_bounds (now : Z) (alt : float) (m : WindMeasurement) :
  in_range now alt m = true -> 0 <= t_quality now m <= 200.
Proof.
  intros H. apply in_range_windows in H as [_ Ht].
  unfold t_quality. rewrite double_of_Z_two_hundred.
  unfold timediff in *.
  pose proof (time_weight_bounds _ Ht) as B.
  rewrite uint_wrap_small; [exact B | lia].
Qed.
(** ** The scan of [getLeastImportantItem] *)

Section Scan.
Variable Time : float.
Variable l : list WindMeasurement.

Lemma scores_at_most_S (i : nat) (bound : Z) (m : WindMeasurement) :
  l !! i = Some m -> item_score Time m <= bound ->
  scores_at_most Time l i bound -> scores_at_most Time l (S i) bound.
Proof.
  intros Hm Hs Hbelow i' m' Hi' Hm'.
  destruct (decide (i' = i)) as [-> | Hne].
  - rewrite Hm in Hm'. injection Hm' as <-. exact Hs.
  - apply (Hbelow i' m'); [lia | exact Hm'].
Qed.

Lemma scores_at_most_S_None (i : nat) (bound : Z) :
  l !! i = None -> scores_at_most Time l i bound -> scores_at_most Time l (S i) bound.
Proof.
  intros Hm Hbelow i' m' Hi' Hm'.
  destruct (decide (i' = i)) as [-> | Hne].
  - rewrite Hm in Hm'. discriminate.
  - apply (Hbelow i' m'); [lia | exact Hm'].
Qed.

Lemma scan_winner_S (i : nat) (maxscore : Z) (j : nat) (m : WindMeasurement) :
  l !! i = Some m -> item_score Time m <= maxscore ->
  scan_winner Time l i maxscore j -> scan_winner Time l (S i) maxscore j.
Proof.
  intros Hm Hs (mj & Hj & Hmj & Hgt & Hmax & Hties).
  exists mj. repeat split; try assumption; try lia.
  - apply (scores_at_most_S i _ m); [assumption | lia | assumption].
  - intros i' m' Hi' Hm'.
    destruct (decide (i' = i)) as [-> | Hne].
    + rewrite Hm in Hm'. injection Hm' as <-. lia.
    + apply (Hties i' m'); [lia | exact Hm'].
Qed.

Lemma scan_winner_S_None (i : nat) (maxscore : Z) (j : nat) :
  l !! i = None -> scan_winner Time l i maxscore j -> scan_winner Time l (S i) maxscore j.
Proof.
  intros Hm (mj & Hj & Hmj & Hgt & Hmax & Hties).
  exists mj. repeat split; try assumption; try lia.
  - apply scores_at_most_S_None; assumption.
  - intros i' m' Hi' Hm'.
    destruct (decide (i' = i)) as [-> | Hne].
    + rewrite Hm in Hm'. discriminate.
    + apply (Hties i' m'); [lia | exact Hm'].
Qed.

(** What the loop returns: the slot it started with when no visited
    sample beats the starting maximum, the winner of the scan otherwise. *)
Lemma getLeastImportantItem_loop_spec (count : nat) :
  forall maxscore founditem,
    let r := getLeastImportantItem_loop Time l count maxscore founditem in
    (scores_at_most Time l count maxscore /\ r = founditem) \/
    (exists j, scan_winner Time l count maxscore j /\ r = Z.of_nat j).
Proof.
  induction count as [| i IH]; intros maxscore founditem; simpl.
  - left. split; [intros i m Hi; lia | reflexivity].
  - destruct (l !! i) as [m |] eqn:Hm.
    + destruct (item_score Time m >? maxscore) eqn:Hcmp.
      * apply Z.gtb_lt in Hcmp.
        destruct (IH (item_score Time m) (Z.of_nat i)) as [[Hbelow ->] | (j & Hw & ->)].
        -- right. exists i. split; [| reflexivity].
           exists m. repeat split; try assumption; try lia.
           apply (scores_at_most_S i _ m); [assumption | lia | assumption].
        -- right. exists j. split; [| reflexivity].
           destruct Hw as (mj & Hj & Hmj & Hgt & Hmax & Hties).
           exists mj. repeat split; try assumption; try lia.
           ++ apply (scores_at_most_S i _ m); [assumption | lia | assumption].
           ++ intros i' m' Hi' Hm'.
              destruct (decide (i' = i)) as [-> | Hne].
              ** rewrite Hm in Hm'. injection Hm' as <-. lia.
              ** apply (Hties i' m'); [lia | exact Hm'].
      * assert (item_score Time m <= maxscore) as Hle.
        { destruct (Z.gtb_spec (item_score Time m) maxscore); [discriminate | lia]. }
        destruct (IH maxscore founditem) as [[Hbelow ->] | (j & Hw & ->)].
        -- left. split; [| reflexivity].
           apply (scores_at_most_S i _ m); assumption.
        -- right. exists j. split; [| reflexivity].
           apply (scan_winner_S i _ j m); assumption.
    + destruct (IH maxscore founditem) as [[Hbelow ->] | (j & Hw & ->)].
      * left. split; [| reflexivity]. apply scores_at_most_S_None; assumption.
      * right. exists j. split; [| reflexivity].
        apply scan_winner_S_None; assumption.
Qed.
End Scan.

(** ** getLeastImportantItem on a store that is not empty *)

Lemma getLeastImportantItem_unfold (Time : float) (s : WindMeasurementList) :
  1 <= nummeasurementlist s <= MAX_MEASUREMENTS ->
  getLeastImportantItem Time s =
  getLeastImportantItem_loop Time (measurementlist s)
    (length (measurementlist s)) 0 (nummeasurementlist s - 1).
Proof.
  unfold getLeastImportantItem, nummeasurementlist, MAX_MEASUREMENTS.
  intros H.
  rewrite (uint_wrap_small (_ - 1)) by lia.
  rewrite int_wrap_small by (unfold INT_MIN, INT_MAX; lia).
  f_equal. lia.
Qed.

(** The index returned for a store that is not empty is one of its slots. *)
Lemma getLeastImportantItem_range (Time : float) (s : WindMeasurementList) :
  1 <= nummeasurementlist s <= MAX_MEASUREMENTS ->
  0 <= getLeastImportantItem Time s < nummeasurementlist s.
Proof.
  intros H. rewrite getLeastImportantItem_unfold by exact H.
  destruct (getLeastImportantItem_loop_spec Time (measurementlist s)
              (length (measurementlist s)) 0 (nummeasurementlist s - 1))
    as [[_ ->] | (j & (mj & Hj & _) & ->)].
  - lia.
  - unfold nummeasurementlist. lia.
Qed.

(** ** addMeasurement and the counter *)

Lemma nummeasurementlist_nonneg (s : WindMeasurementList) :
  0 <= nummeasurementlist s.
Proof. unfold nummeasurementlist. lia. Qed.

Lemma addMeasurement_not_full (Time : float) (v : Vector) (alt : float)
    (q : Z) (s : WindMeasurementList) :
  nummeasurementlist s <> MAX_MEASUREMENTS ->
  measurementlist (addMeasurement Time v alt q s) =
  measurementlist s ++ [new_measurement Time v alt q].
Proof.
  intros H. unfold addMeasurement, insert_index, slot_store. simpl.
  destruct (nummeasurementlist s =? MAX_MEASUREMENTS) eqn:E.
  - apply Z.eqb_eq in E. contradiction.
  - unfold nummeasurementlist. rewrite Z.eqb_refl. reflexivity.
Qed.

Lemma addMeasurement_full (Time : float) (v : Vector) (alt : float)
    (q : Z) (s : WindMeasurementList) :
  nummeasurementlist s = MAX_MEASUREMENTS ->
  measurementlist (addMeasurement Time v alt q s) =
  <[Z.to_nat (getLeastImportantItem Time s) := new_measurement Time v alt q]>
    (measurementlist s).
Proof.
  intros H. unfold addMeasurement, insert_index, slot_store. simpl.
  rewrite H, Z.eqb_refl.
  pose proof (getLeastImportantItem_range Time s) as Hr.
  rewrite H in Hr. specialize (Hr ltac:(unfold MAX_MEASUREMENTS; lia)).
  destruct (getLeastImportantItem Time s =? Z.of_nat (length (measurementlist s))) eqn:E.
  - apply Z.eqb_eq in E. unfold nummeasurementlist in H. lia.
  - reflexivity.
Qed.

Lemma nummeasurementlist_addMeasurement_not_full (Time : float) (v : Vector)
    (alt : float) (q : Z) (s : WindMeasurementList) :
  nummeasurementlist s <> MAX_MEASUREMENTS ->
  nummeasurementlist (addMeasurement Time v alt q s) = nummeasurementlist s + 1.
Proof.
  intros H. unfold nummeasurementlist at 1.
  rewrite addMeasurement_not_full by exact H.
  rewrite length_app. simpl. unfold nummeasurementlist. lia.
Qed.

Lemma nummeasurementlist_addMeasurement_full (Time : float) (v : Vector)
    (alt : float) (q : Z) (s : WindMeasurementList) :
  nummeasurementlist s = MAX_MEASUREMENTS ->
  nummeasurementlist (addMeasurement Time v alt q s) = MAX_MEASUREMENTS.
Proof.
  intros H. unfold nummeasurementlist at 1.
  rewrite addMeasurement_full by exact H.
  rewrite length_insert. exact H.
Qed.

Lemma run_snoc (cs : list call) (c : call) :
  run (cs ++ [c]) = do_call (run cs) c.
Proof. unfold run. rewrite fold_left_app. reflexivity. Qed.

Lemma run_bounded (cs : list call) :
  0 <= nummeasurementlist (run cs) <= MAX_MEASUREMENTS.
Proof.
  induction cs as [| c cs IH] using rev_ind.
  - unfold run, nummeasurementlist, MAX_MEASUREMENTS. simpl. lia.
  - rewrite run_snoc. unfold do_call.
    destruct (decide (nummeasurementlist (run cs) = MAX_MEASUREMENTS)) as [E | E].
    + rewrite nummeasurementlist_addMeasurement_full by exact E.
      unfold MAX_MEASUREMENTS. lia.
    + rewrite nummeasurementlist_addMeasurement_not_full by exact E. lia.
Qed.

(** C2.  After every sequence of [addMeasurement] calls on a new store the
    counter lies between 0 and 200; a call made while the counter is below
    200 increases it by exactly one, and a call made while it is 200
    leaves it at 200. *)
Theorem capacity_invariant (cs : list call) :
  0 <= nummeasurementlist (run cs) <= MAX_MEASUREMENTS /\
  forall (Time : float) (v : Vector) (alt : float) (q : Z),
    (nummeasurementlist (run cs) < MAX_MEASUREMENTS ->
     nummeasurementlist (addMeasurement Time v alt q (run cs)) =
     nummeasurementlist (run cs) + 1) /\
    (nummeasurementlist (run cs) = MAX_MEASUREMENTS ->
     nummeasurementlist (addMeasurement Time v alt q (run cs)) =
     MAX_MEASUREMENTS).
Proof.
  split; [apply run_bounded |].
  intros Time v alt q. split; intros H.
  - apply nummeasurementlist_addMeasurement_not_full. lia.
  - apply nummeasurementlist_addMeasurement_full. exact H.
Qed.

(** ** Which sample is evicted *)

(** X1.  When some stored sample has a positive score, the slot returned is
    the winner of the scan: its score is the largest one in the store,
    and it is the highest slot with that score. *)
Theorem getLeastImportantItem_positive (Time : float) (s : WindMeasurementList) :
  1 <= nummeasurementlist s <= MAX_MEASUREMENTS ->
  (exists i m, measurementlist s !! i = Some m /\ 0 < item_score Time m) ->
  exists j,
    getLeastImportantItem Time s = Z.of_nat j /\
    scan_winner Time (measurementlist s) (length (measurementlist s)) 0 j.
Proof.
  intros Hn (i & m & Hm & Hpos).
  rewrite getLeastImportantItem_unfold by exact Hn.
  destruct (getLeastImportantItem_loop_spec Time (measurementlist s)
              (length (measurementlist s)) 0 (nummeasurementlist s - 1))
    as [[Hbelow _] | (j & Hw & ->)].
  - exfalso. specialize (Hbelow i m (lookup_lt_Some _ _ _ Hm) Hm). lia.
  - exists j. split; [reflexivity | exact Hw].
Qed.

(** X2.  When no stored sample has a positive score, the running maximum
    never leaves its starting value 0 and the last slot is returned,
    whatever the scores are. *)
Theorem getLeastImportantItem_no_positive (Time : float) (s : WindMeasurementList) :
  1 <= nummeasurementlist s <= MAX_MEASUREMENTS ->
  scores_at_most Time (measurementlist s) (length (measurementlist s)) 0 ->
  getLeastImportantItem Time s = nummeasurementlist s - 1.
Proof.
  intros Hn Hbelow.
  rewrite getLeastImportantItem_unfold by exact Hn.
  destruct (getLeastImportantItem_loop_spec Time (measurementlist s)
              (length (measurementlist s)) 0 (nummeasurementlist s - 1))
    as [[_ ->] | (j & (mj & Hj & Hmj & Hgt & _) & _)].
  - reflexivity.
  - exfalso. specialize (Hbelow j mj Hj Hmj). lia.
Qed.

(** On closed stores the scores are found by evaluation. *)
Lemma scores_bounded_by_evaluation (Time : float) (l : list WindMeasurement)
    (bound : Z) :
  forallb (fun m => item_score Time m <=? bound) l = true ->
  forall i m, l !! i = Some m -> item_score Time m <= bound.
Proof.
  intros H i m Hm. rewrite forallb_forall in H.
  apply Z.leb_le, H. apply list_elem_of_In, list_elem_of_lookup. exists i. exact Hm.
Qed.

(** C1.  On the full store [store_before_midnight] and the reference time
    100 (shortly after midnight) every score is negative; the scan
    returns the last slot, 199, whose sample scores -85300, although the
    sample in slot 0 scores -82900: the evicted sample is not one of
    maximal score. *)
Theorem eviction_misses_the_maximum :
  nummeasurementlist store_before_midnight = MAX_MEASUREMENTS /\
  getLeastImportantItem 100 store_before_midnight = 199 /\
  item_score 100 <$> (measurementlist store_before_midnight !! 199%nat) = Some (-85300) /\
  item_score 100 <$> (measurementlist store_before_midnight !! 0%nat) = Some (-82900) /\
  ~ evicts_a_maximum 100 store_before_midnight.
Proof.
  assert (getLeastImportantItem 100 store_before_midnight = 199) as E
    by (vm_compute; reflexivity).
  split; [vm_compute; reflexivity |].
  split; [exact E |].
  split; [vm_compute; reflexivity |].
  split; [vm_compute; reflexivity |].
  intros (mj & Hmj & Hmax). rewrite E in Hmj.
  assert (exists m0, measurementlist store_before_midnight !! 0%nat = Some m0 /\
                     item_score 100 m0 = -82900) as (m0 & Hm0 & Hs0)
    by (eexists; split; [vm_compute; reflexivity | vm_compute; reflexivity]).
  assert (exists m199, measurementlist store_before_midnight !! Z.to_nat 199 = Some m199 /\
                       item_score 100 m199 = -85300) as (m199 & Hm199 & Hs199)
    by (eexists; split; [vm_compute; reflexivity | vm_compute; reflexivity]).
  rewrite Hm199 in Hmj. injection Hmj as <-.
  specialize (Hmax 0%nat m0 Hm0). lia.
Qed.

(** C7.  On the full store [store_before_midnight_tied] and the reference
    time 100 the samples in the slots 0 and 1 are tied at the largest
    score, -82900; the scan returns slot 199, not slot 1, the highest
    slot of the tied samples. *)
Theorem eviction_misses_the_tied_maximum :
  nummeasurementlist store_before_midnight_tied = MAX_MEASUREMENTS /\
  highest_slot_of_maximum 100 store_before_midnight_tied 1 /\
  item_score 100 <$> (measurementlist store_before_midnight_tied !! 0%nat) = Some (-82900) /\
  item_score 100 <$> (measurementlist store_before_midnight_tied !! 1%nat) = Some (-82900) /\
  getLeastImportantItem 100 store_before_midnight_tied = 199.
Proof.
  split; [vm_compute; reflexivity |].
  split; [| repeat split; vm_compute; reflexivity].
  assert (exists m1, measurementlist store_before_midnight_tied !! 1%nat = Some m1 /\
                     item_score 100 m1 = -82900) as (m1 & Hm1 & Hs1)
    by (eexists; split; [vm_compute; reflexivity | vm_compute; reflexivity]).
  exists m1. split; [exact Hm1 |]. rewrite Hs1. split.
  - apply scores_bounded_by_evaluation. vm_compute. reflexivity.
  - intros i m Hi Hm.
    assert (item_score 100 m <= -82901); [| lia].
    apply (scores_bounded_by_evaluation 100
             (drop 2 (measurementlist store_before_midnight_tied)) (-82901)
             ltac:(vm_compute; reflexivity) (i - 2)%nat m).
    rewrite lookup_drop. replace (2 + (i - 2))%nat with i by lia. exact Hm.
Qed.

(** ** The loop of getWind *)

Lemma getWind_step_skip (now : Z) (alt : float) (st : getWind_state)
    (m : WindMeasurement) :
  in_range now alt m = false -> getWind_step now alt st m = st.
Proof. intros H. unfold getWind_step. rewrite H. reflexivity. Qed.

(** The loop over a store is the loop over its samples in the window. *)
Lemma getWind_loop_contributing (now : Z) (alt : float)
    (l : list WindMeasurement) :
  forall st,
    getWind_loop now alt l st = getWind_loop now alt (contributing now alt l) st.
Proof.
  unfold getWind_loop, contributing.
  induction l as [| m l IH]; intros st; simpl; [reflexivity |].
  destruct (in_range now alt m) eqn:E; simpl.
  - apply IH.
  - rewrite getWind_step_skip by exact E. apply IH.
Qed.

Lemma contributing_idempotent (now : Z) (alt : float) (l : list WindMeasurement) :
  contributing now alt (contributing now alt l) = contributing now alt l.
Proof.
  unfold contributing. induction l as [| m l IH]; simpl; [reflexivity |].
  destruct (in_range now alt m) eqn:E; simpl; [rewrite E, IH |]; auto.
Qed.

Lemma contributing_app (now : Z) (alt : float) (l1 l2 : list WindMeasurement) :
  contributing now alt (l1 ++ l2) = contributing now alt l1 ++ contributing now alt l2.
Proof. apply List.filter_app. Qed.

Lemma getWind_loop_x (now : Z) (alt : float) (l : list WindMeasurement) :
  forall st,
    x (result (getWind_loop now alt l st)) =
    fold_left
      (fun acc m => (acc + x (vector m) * double_of_Z (sample_quality now alt m))%float)
      (contributing now alt l) (x (result st)).
Proof.
  unfold getWind_loop, contributing.
  induction l as [| m l IH]; intros st; simpl; [reflexivity |].
  rewrite IH. unfold getWind_step.
  destruct (in_range now alt m); reflexivity.
Qed.

Lemma getWind_loop_y (now : Z) (alt : float) (l : list WindMeasurement) :
  forall st,
    y (result (getWind_loop now alt l st)) =
    fold_left
      (fun acc m => (acc + y (vector m) * double_of_Z (sample_quality now alt m))%float)
      (contributing now alt l) (y (result st)).
Proof.
  unfold getWind_loop, contributing.
  induction l as [| m l IH]; intros st; simpl; [reflexivity |].
  rewrite IH. unfold getWind_step.
  destruct (in_range now alt m); reflexivity.
Qed.

Lemma getWind_loop_total (now : Z) (alt : float) (l : list WindMeasurement) :
  forall st,
    0 <= total_quality st < 2 ^ 32 ->
    total_quality (getWind_loop now alt l st) =
    uint_wrap (total_quality st + total_weight now alt l).
Proof.
  unfold getWind_loop, total_weight, contributing.
  induction l as [| m l IH]; intros st Hst; simpl.
  - rewrite Z.add_0_r. symmetry. apply uint_wrap_small. exact Hst.
  - unfold getWind_step at 2.
    destruct (in_range now alt m); simpl.
    + rewrite IH by (simpl; apply uint_wrap_range). simpl.
      unfold uint_wrap. rewrite Z.add_mod_idemp_l by discriminate.
      f_equal. rewrite <- Z.add_assoc. reflexivity.
    + apply IH. exact Hst.
Qed.

Lemma sample_quality_range (now : Z) (alt : float) (m : WindMeasurement) :
  0 <= sample_quality now alt m < 2 ^ 32.
Proof. apply uint_wrap_range. Qed.

Lemma total_weight_nonneg (now : Z) (alt : float) (l : list WindMeasurement) :
  0 <= total_weight now alt l.
Proof.
  unfold total_weight.
  induction (contributing now alt l) as [| m c IH]; simpl; [lia |].
  pose proof (sample_quality_range now alt m). lia.
Qed.

(** A total weight of zero means that every sample in the window has the
    weight zero. *)
Lemma total_weight_zero (now : Z) (alt : float) (l : list WindMeasurement) :
  total_weight now alt l = 0 ->
  Forall (fun m => sample_quality now alt m = 0) (contributing now alt l).
Proof.
  unfold total_weight.
  induction (contributing now alt l) as [| m c IH]; simpl; intros H.
  - constructor.
  - pose proof (sample_quality_range now alt m) as Hm.
    assert (0 <= fold_right Z.add 0 (List.map (sample_quality now alt) c)) as Hc.
    { clear. induction c as [| m' c IH]; simpl; [lia |].
      pose proof (sample_quality_range now alt m'). lia. }
    constructor; [lia | apply IH; lia].
Qed.

(** With finite vectors and weights zero the sums stay at the positive
    zero they start from. *)
Lemma weighted_sum_zero (component : Vector -> float) (now : Z) (alt : float)
    (c : list WindMeasurement) :
  Forall (fun m => sample_quality now alt m = 0) c ->
  Forall (fun m => is_finite (component (vector m)) = true) c ->
  fold_left
    (fun acc m =>
       (acc + component (vector m) * double_of_Z (sample_quality now alt m))%float)
    c 0%float = 0%float.
Proof.
  induction c as [| m c IH]; intros Hw Hf; simpl; [reflexivity |].
  inversion Hw as [| ? ? Hw1 Hw2]; subst.
  inversion Hf as [| ? ? Hf1 Hf2]; subst.
  rewrite Hw1. change (double_of_Z 0) with 0%float.
  rewrite add_zero_mul_zero_finite by exact Hf1.
  apply IH; assumption.
Qed.

(** ** The sizes of the weights *)

(** For a quality between 0 and 10737 the weight of a sample in the
    window is the product of its three factors, without wrap-around. *)
Lemma sample_quality_product (now : Z) (alt : float) (m : WindMeasurement) :
  in_range now alt m = true ->
  0 <= quality m <= 10737 ->
  q_quality m = 20 * quality m /\
  sample_quality now alt m = 20 * quality m * (a_quality alt m * t_quality now m).
Proof.
  intros Hin Hq.
  pose proof (a_quality_bounds now alt m Hin) as Ha.
  pose proof (t_quality_bounds now alt m Hin) as Ht.
  assert (q_quality m = 20 * quality m) as Eq.
  { unfold q_quality, REL_FACTOR_QUALITY.
    rewrite int_wrap_small by (unfold INT_MIN, INT_MAX; lia).
    replace (quality m * 100) with (20 * quality m * 5) by lia.
    rewrite Z.quot_mul by discriminate.
    apply uint_wrap_small. lia. }
  split; [exact Eq |].
  unfold sample_quality. rewrite Eq.
  assert (0 <= a_quality alt m * t_quality now m <= 100 * 200) as Hc by nia.
  rewrite (uint_wrap_small (a_quality alt m * t_quality now m)) by lia.
  apply uint_wrap_small. nia.
Qed.

Lemma sample_quality_bound (now : Z) (alt : float) (m : WindMeasurement) :
  in_range now alt m = true ->
  0 <= quality m <= 5 ->
  0 <= sample_quality now alt m <= 2000000.
Proof.
  intros Hin Hq.
  pose proof (a_quality_bounds now alt m Hin) as Ha.
  pose proof (t_quality_bounds now alt m Hin) as Ht.
  destruct (sample_quality_product now alt m Hin ltac:(lia)) as [_ ->].
  assert (0 <= a_quality alt m * t_quality now m <= 100 * 200) as Hc by nia.
  nia.
Qed.

(** The weights of [l] add up to at most 2,000,000 for each sample, when
    the qualities lie between 0 and 5. *)
Lemma total_weight_bound (now : Z) (alt : float) (l : list WindMeasurement) :
  Forall (fun m => 0 <= quality m <= 5) l ->
  total_weight now alt l <= 2000000 * Z.of_nat (length l).
Proof.
  unfold total_weight, contributing.
  induction 1 as [| m l Hm Hl IH]; [simpl; lia |].
  cbn [List.filter length]. rewrite Nat2Z.inj_succ.
  destruct (in_range now alt m) eqn:Hin.
  - cbn [List.map fold_right].
    pose proof (sample_quality_bound now alt m Hin Hm). lia.
  - lia.
Qed.

(** On a store within its capacity whose qualities lie between 0 and 5,
    the total weight stays below 2^31. *)
Lemma total_weight_capacity (now : Z) (alt : float) (s : WindMeasurementList) :
  nummeasurementlist s <= MAX_MEASUREMENTS ->
  Forall (fun m => 0 <= quality m <= 5) (measurementlist s) ->
  total_weight now alt (measurementlist s) < 2 ^ 31.
Proof.
  intros Hn Hq. pose proof (total_weight_bound now alt _ Hq) as H.
  unfold nummeasurementlist, MAX_MEASUREMENTS in Hn.
  change (2 ^ 31) with 2147483648. lia.
Qed.

(** The altitude and time factors of the spec, for a sample in the window. *)
Lemma spec_aw_bounds (now : Z) (alt : float) (m : WindMeasurement) :
  in_range now alt m = true -> 0 <= spec_aw alt m <= 100.
Proof.
  intros H. apply in_range_windows in H as [Ha _].
  apply altitude_weight_bounds. exact Ha.
Qed.

Lemma spec_tw_bounds (now : Z) (alt : float) (m : WindMeasurement) :
  in_range now alt m = true -> 0 <= spec_tw now m <= 200.
Proof.
  intros H. apply in_range_windows in H as [_ Ht].
  unfold spec_tw, timediff in *. apply time_weight_bounds. exact Ht.
Qed.

(** ** The result of getWind *)

Lemma Forall_contributing (P : WindMeasurement -> Prop) (now : Z) (alt : float)
    (l : list WindMeasurement) :
  Forall P l -> Forall P (contributing now alt l).
Proof.
  unfold contributing. induction 1 as [| m l Hm Hl IH]; simpl; [constructor |].
  destruct (in_range now alt m); [constructor |]; assumption.
Qed.

Lemma Vector_eta (v : Vector) : {| x := x v; y := y v |} = v.
Proof. destruct v. reflexivity. Qed.

(** What [getWind] returns, in terms of the wrapped total weight. *)
Lemma getWind_unfold (Time alt : float) (s : WindMeasurementList) :
  let now := double_to_int Time in
  let l := measurementlist s in
  let T := uint_wrap (total_weight now alt l) in
  let sums := {| x := weighted_sum x now alt l; y := weighted_sum y now alt l |} in
  getWind Time alt s =
  if 0 <? T
  then ({| x := (x sums / double_of_Z (int_wrap T))%float;
           y := (y sums / double_of_Z (int_wrap T))%float |}, true)
  else (sums, false).
Proof.
  intros now l T sums. unfold getWind. fold now. fold l.
  assert (total_quality (getWind_loop now alt l getWind_init) = T) as HT.
  { rewrite getWind_loop_total by (simpl; lia). reflexivity. }
  assert (result (getWind_loop now alt l getWind_init) = sums) as Hsums.
  { rewrite <- (Vector_eta (result _)). unfold sums, weighted_sum.
    rewrite getWind_loop_x, getWind_loop_y. reflexivity. }
  rewrite HT, Hsums, Z.gtb_ltb. reflexivity.
Qed.

(** X27.  On a new store [getWind] returns [found = false] and the zero
    vector.  On a store whose weights in the window add up to less than
    2^31, whose qualities times 100 fit an [int] and whose vectors are
    finite, [getWind] returns [found = true] and the weighted sums
    divided by the total weight when the total weight is positive, and
    [found = false] and the zero vector otherwise.  This is so on every
    store within its capacity of 200 samples whose qualities lie between
    0 and 5 and whose vectors are finite. *)
Theorem getWind_found_iff_weight_positive :
  (forall Time alt : float,
     getWind Time alt WindMeasurementList_new = (zero_vector, false)) /\
  (forall (Time alt : float) (s : WindMeasurementList),
     let now := double_to_int Time in
     let l := measurementlist s in
     let W := total_weight now alt l in
     W < 2 ^ 31 ->
     Forall (fun m => INT_MIN <= quality m * 100 <= INT_MAX) l ->
     Forall finite_vector l ->
     getWind Time alt s =
     if 0 <? W
     then ({| x := (weighted_sum x now alt l / double_of_Z W)%float;
              y := (weighted_sum y now alt l / double_of_Z W)%float |}, true)
     else (zero_vector, false)) /\
  (forall (Time alt : float) (s : WindMeasurementList),
     let now := double_to_int Time in
     let l := measurementlist s in
     let W := total_weight now alt l in
     nummeasurementlist s <= MAX_MEASUREMENTS ->
     Forall (fun m => 0 <= quality m <= 5) l ->
     Forall finite_vector l ->
     W <= 2000000 * nummeasurementlist s /\
     getWind Time alt s =
     if 0 <? W
     then ({| x := (weighted_sum x now alt l / double_of_Z W)%float;
              y := (weighted_sum y now alt l / double_of_Z W)%float |}, true)
     else (zero_vector, false)).
Proof.
  assert (forall (Time alt : float) (s : WindMeasurementList),
            total_weight (double_to_int Time) alt (measurementlist s) < 2 ^ 31 ->
            Forall finite_vector (measurementlist s) ->
            getWind Time alt s =
            if 0 <? total_weight (double_to_int Time) alt (measurementlist s)
            then ({| x := (weighted_sum x (double_to_int Time) alt (measurementlist s)
                           / double_of_Z (total_weight (double_to_int Time) alt
                                            (measurementlist s)))%float;
                     y := (weighted_sum y (double_to_int Time) alt (measurementlist s)
                           / double_of_Z (total_weight (double_to_int Time) alt
                                            (measurementlist s)))%float |}, true)
            else (zero_vector, false)) as Hgen.
  { intros Time alt s.
    set (now := double_to_int Time). set (l := measurementlist s).
    set (W := total_weight now alt l). intros HW Hfin.
    pose proof (total_weight_nonneg now alt l) as H0. fold W in H0.
    rewrite getWind_unfold. fold now. fold l. fold W.
    rewrite (uint_wrap_small W) by lia.
    destruct (Z.ltb_spec 0 W) as [Hpos | Hzero].
    - rewrite int_wrap_small by (unfold INT_MIN, INT_MAX; lia). reflexivity.
    - assert (W = 0) as HW0 by lia.
      pose proof (total_weight_zero now alt l HW0) as Hweights.
      unfold zero_vector, weighted_sum.
      rewrite !weighted_sum_zero; try exact Hweights; try reflexivity.
      + apply Forall_contributing.
        apply (Forall_impl _ _ _ Hfin). intros m Hm. apply Hm.
      + apply Forall_contributing.
        apply (Forall_impl _ _ _ Hfin). intros m Hm. apply Hm. }
  split; [reflexivity |]. split.
  { intros Time alt s now l W HW _ Hfin. apply Hgen; assumption. }
  intros Time alt s now l W Hn Hq Hfin. split.
  - apply total_weight_bound. exact Hq.
  - apply Hgen; [| exact Hfin].
    apply total_weight_capacity; assumption.
Qed.

Lemma getWind_found_iff_weight_positive_witness :
  nummeasurementlist store_two_samples <= MAX_MEASUREMENTS /\
  Forall (fun m => 0 <= quality m <= 5) (measurementlist store_two_samples) /\
  Forall finite_vector (measurementlist store_two_samples) /\
  total_weight (double_to_int 100) 600 (measurementlist store_two_samples) = 2847280 /\
  getWind 100 600 store_two_samples =
  ({| x := (-1108160 / 2847280)%float; y := (19109120 / 2847280)%float |}, true).
Proof.
  assert (nummeasurementlist store_two_samples <= MAX_MEASUREMENTS) as Hn
    by (vm_compute; discriminate).
  assert (Forall (fun m => 0 <= quality m <= 5) (measurementlist store_two_samples))
    as Hq by (vm_compute; repeat constructor; discriminate).
  assert (Forall finite_vector (measurementlist store_two_samples)) as Hfin
    by (vm_compute; repeat constructor).
  split; [exact Hn |]. split; [exact Hq |]. split; [exact Hfin |].
  split; [vm_compute; reflexivity |].
  rewrite (proj2 (proj2 (proj2 getWind_found_iff_weight_positive) 100%float 600%float
                    store_two_samples Hn Hq Hfin)).
  vm_compute. reflexivity.
Defined.

(** C3.  On [store_opposite_qualities], the store after
    [addMeasurement(0, (1, 0), 0, 1)] and
    [addMeasurement(0, (0, 0), 0, -1)], the two weights, 400000 and
    2^32 - 400000, add up to 0 in [unsigned int]: [getWind(0, 0)] returns
    [found = false] with the vector (400000, 0), and not with the vector
    0 that the claim and the comment of [getWind] ("or 0 if no valid
    vector could be calculated") promise. *)
Lemma getWind_not_found_not_zero :
  getWind 0 0 store_opposite_qualities = ({| x := 400000; y := 0 |}, false) /\
  ~ (forall (Time alt : float) (s : WindMeasurementList),
       snd (getWind Time alt s) = false -> fst (getWind Time alt s) = zero_vector).
Proof.
  assert (getWind 0 0 store_opposite_qualities = ({| x := 400000; y := 0 |}, false)) as E
    by (vm_compute; reflexivity).
  split; [exact E |].
  intros H. specialize (H 0%float 0%float store_opposite_qualities).
  rewrite E in H. specialize (H eq_refl). simpl in H.
  apply (f_equal (fun v => (x v =? 0)%float)) in H.
  vm_compute in H. discriminate.
Qed.

(** ** Samples that fail the window test *)

Lemma getWind_contributing (Time alt : float) (s : WindMeasurementList) :
  getWind Time alt s =
  getWind Time alt
    {| measurementlist := contributing (double_to_int Time) alt (measurementlist s) |}.
Proof.
  unfold getWind. simpl.
  rewrite <- getWind_loop_contributing. reflexivity.
Qed.

Lemma getWind_skip (Time alt : float) (l1 l2 : list WindMeasurement)
    (m : WindMeasurement) :
  in_range (double_to_int Time) alt m = false ->
  getWind Time alt {| measurementlist := l1 ++ m :: l2 |} =
  getWind Time alt {| measurementlist := l1 ++ l2 |}.
Proof.
  intros H.
  rewrite getWind_contributing, (getWind_contributing _ _ (mkWindMeasurementList (l1 ++ l2))).
  simpl. rewrite !contributing_app. unfold contributing at 2. simpl.
  rewrite H. reflexivity.
Qed.

(** ** One sample, queried at its own time and altitude *)

Lemma altdiff_same_altitude (alt : float) (m : WindMeasurement) :
  is_finite alt = true -> altitude m = alt -> altdiff alt m = 0%float.
Proof.
  intros Hfin Halt. unfold altdiff. rewrite Halt, sub_diag_finite by exact Hfin.
  vm_compute. reflexivity.
Qed.

Lemma timediff_same_time (now : Z) (m : WindMeasurement) :
  time m = now -> timediff now m = 0%float.
Proof.
  intros Htime. unfold timediff. rewrite Htime, Z.sub_diag.
  vm_compute. reflexivity.
Qed.

Lemma addMeasurement_new (Time : float) (v : Vector) (alt : float) (q : Z) :
  measurementlist (addMeasurement Time v alt q WindMeasurementList_new) =
  [new_measurement Time v alt q].
Proof. reflexivity. Qed.

(** The weights of a sample of quality [q] at distance zero in altitude
    and time. *)
Lemma weights_at_distance_zero (now : Z) (alt : float) (m : WindMeasurement) :
  is_finite alt = true -> altitude m = alt -> time m = now ->
  in_range now alt m = true /\
  a_quality alt m = 100 /\
  t_quality now m = 200.
Proof.
  intros Hfin Halt Htime.
  unfold in_range, a_quality, t_quality.
  rewrite (altdiff_same_altitude alt m Hfin Halt), (timediff_same_time now m Htime).
  repeat split; vm_compute; reflexivity.
Qed.

(** C6, as amended.  After one sample of quality 5 is inserted into a new
    store at the time [t0] and the finite altitude [a0], the query at
    [t0] and [a0] finds the weights 100, 100 and 200, the combined weight
    2,000,000, and returns [found = true] with each component of the
    inserted vector multiplied by 2,000,000 and divided by 2,000,000 in
    [double] arithmetic. *)
Theorem single_sample_estimate (t0 a0 : float) (v : Vector) :
  is_finite a0 = true ->
  let s := addMeasurement t0 v a0 5 WindMeasurementList_new in
  let m := new_measurement t0 v a0 5 in
  let now := double_to_int t0 in
  measurementlist s = [m] /\
  q_quality m = 100 /\ a_quality a0 m = 100 /\ t_quality now m = 200 /\
  sample_quality now a0 m = 2000000 /\
  getWind t0 a0 s =
  ({| x := ((0 + x v * 2000000) / 2000000)%float;
      y := ((0 + y v * 2000000) / 2000000)%float |}, true).
Proof.
  intros Hfin s m now.
  destruct (weights_at_distance_zero now a0 m Hfin eq_refl eq_refl)
    as (Hin & Ha & Ht).
  assert (q_quality m = 100) as Hq by (vm_compute; reflexivity).
  assert (sample_quality now a0 m = 2000000) as Hw.
  { unfold sample_quality. rewrite Hq, Ha, Ht. vm_compute. reflexivity. }
  repeat split; try assumption.
  unfold getWind. fold now. change (measurementlist s) with [m].
  unfold getWind_loop. simpl fold_left. unfold getWind_step.
  rewrite Hin, Hw.
  cbn [total_quality result x y getWind_init].
  change (uint_wrap (0 + 2000000)) with 2000000.
  change (double_of_Z (int_wrap 2000000)) with 2000000%float.
  change (double_of_Z 2000000) with 2000000%float.
  reflexivity.
Qed.

Lemma single_sample_estimate_witness :
  is_finite 650 = true /\
  getWind 1234.5 650 (addMeasurement 1234.5 {| x := 3; y := -4 |} 650 5
                        WindMeasurementList_new) =
  ({| x := 3; y := -4 |}, true).
Proof.
  split; [reflexivity |].
  rewrite (proj2 (proj2 (proj2 (proj2 (proj2
             (single_sample_estimate 1234.5 650 {| x := 3; y := -4 |} eq_refl)))))).
  vm_compute. reflexivity.
Defined.

(** The claim C6 fails for the vector [wind_inexact]: the component
    1.5 + 2^-39 comes back as 0x1.8000000001fffp+0, one unit in the last
    place below it. *)
Lemma single_sample_not_exact :
  getWind 0 0 (addMeasurement 0 wind_inexact 0 5 WindMeasurementList_new) =
  ({| x := 0x1.8000000001fffp+0; y := 0 |}, true) /\
  fst (getWind 0 0 (addMeasurement 0 wind_inexact 0 5 WindMeasurementList_new))
  <> wind_inexact.
Proof.
  assert (getWind 0 0 (addMeasurement 0 wind_inexact 0 5 WindMeasurementList_new) =
          ({| x := 0x1.8000000001fffp+0; y := 0 |}, true)) as E
    by (vm_compute; reflexivity).
  split; [exact E |].
  rewrite E. simpl. intros H.
  apply (f_equal (fun v => (x v =? 0x1.8000000002p+0)%float)) in H.
  vm_compute in H. discriminate.
Qed.

(** ** Times are truncated to integers *)

(** [getWind] uses its reference time only through [(int)(Time)]. *)
Lemma getWind_same_now (T1 T2 alt : float) (s : WindMeasurementList) :
  double_to_int T1 = double_to_int T2 -> getWind T1 alt s = getWind T2 alt s.
Proof. intros H. unfold getWind. rewrite H. reflexivity. Qed.

(** The sample a call builds is found in the slot it is written to. *)
Lemma addMeasurement_lookup (Time : float) (v : Vector) (alt : float) (q : Z)
    (s : WindMeasurementList) :
  nummeasurementlist s <= MAX_MEASUREMENTS ->
  measurementlist (addMeasurement Time v alt q s) !! Z.to_nat (insert_index Time s) =
  Some (new_measurement Time v alt q).
Proof.
  intros Hn.
  destruct (decide (nummeasurementlist s = MAX_MEASUREMENTS)) as [E | E].
  - rewrite addMeasurement_full by exact E.
    unfold insert_index. rewrite E, Z.eqb_refl.
    pose proof (getLeastImportantItem_range Time s) as Hr.
    rewrite E in Hr. specialize (Hr ltac:(unfold MAX_MEASUREMENTS; lia)).
    apply list_lookup_insert_eq.
    unfold nummeasurementlist in E. lia.
  - rewrite addMeasurement_not_full by exact E.
    unfold insert_index.
    destruct (nummeasurementlist s =? MAX_MEASUREMENTS) eqn:E'.
    + apply Z.eqb_eq in E'. contradiction.
    + unfold nummeasurementlist. rewrite Nat2Z.id.
      rewrite lookup_app_r by lia. rewrite Nat.sub_diag. reflexivity.
Qed.

(** C10.  [getWind] gives the same result for a reference time and for
    that time truncated to an integer; [addMeasurement] stores the
    truncated time, so that two calls whose times have the same
    truncation, with the same vector, altitude and quality, store the
    same sample, and lead to the same store when the store is not full. *)
Theorem times_are_truncated :
  (forall (Time alt : float) (s : WindMeasurementList),
     getWind Time alt s = getWind (double_of_Z (double_to_int Time)) alt s) /\
  (forall (Time : float) (v : Vector) (alt : float) (q : Z),
     time (new_measurement Time v alt q) = double_to_long Time) /\
  (forall (T1 T2 : float) (v : Vector) (alt : float) (q : Z) (s : WindMeasurementList),
     double_to_long T1 = double_to_long T2 ->
     nummeasurementlist s <= MAX_MEASUREMENTS ->
     let w := new_measurement T1 v alt q in
     measurementlist (addMeasurement T1 v alt q s) !! Z.to_nat (insert_index T1 s)
       = Some w /\
     measurementlist (addMeasurement T2 v alt q s) !! Z.to_nat (insert_index T2 s)
       = Some w /\
     (nummeasurementlist s < MAX_MEASUREMENTS ->
      addMeasurement T1 v alt q s = addMeasurement T2 v alt q s)).
Proof.
  split; [| split].
  - intros Time alt s. apply getWind_same_now.
    symmetry. apply double_to_int_idempotent.
  - reflexivity.
  - intros T1 T2 v alt q s HT Hn w.
    assert (new_measurement T2 v alt q = w) as Hw.
    { unfold w, new_measurement. rewrite HT. reflexivity. }
    split; [apply addMeasurement_lookup; exact Hn |].
    split; [rewrite <- Hw; apply addMeasurement_lookup; exact Hn |].
    intros Hlt.
    unfold addMeasurement, insert_index. rewrite Hw. fold w.
    destruct (nummeasurementlist s =? MAX_MEASUREMENTS) eqn:E.
    + apply Z.eqb_eq in E. lia.
    + reflexivity.
Qed.

Lemma times_are_truncated_witness :
  double_to_long 1234.5 = double_to_long 1234.25 /\
  nummeasurementlist store_two_samples < MAX_MEASUREMENTS /\
  addMeasurement 1234.5 unit_wind 650 4 store_two_samples =
  addMeasurement 1234.25 unit_wind 650 4 store_two_samples /\
  getWind 1234.5 650 store_two_samples = getWind 1234 650 store_two_samples.
Proof.
  assert (double_to_long 1234.5 = double_to_long 1234.25) as HT
    by (vm_compute; reflexivity).
  assert (nummeasurementlist store_two_samples < MAX_MEASUREMENTS) as Hn
    by (vm_compute; reflexivity).
  split; [exact HT |]. split; [exact Hn |]. split.
  - apply (proj2 (proj2 times_are_truncated) 1234.5%float 1234.25%float
             unit_wind 650%float 4 store_two_samples HT);
      [unfold MAX_MEASUREMENTS in *; lia | exact Hn].
  - apply (proj1 times_are_truncated 1234.5%float 650%float store_two_samples).
Defined.

(** ** The combined weight *)

Lemma spec_qw_exact (m : WindMeasurement) : spec_qw m = 20 * quality m.
Proof.
  unfold spec_qw, round_div. symmetry.
  apply (Z.div_unique _ _ _ 5); lia.
Qed.

Lemma q_quality_spec (m : WindMeasurement) :
  INT_MIN <= quality m * 100 <= INT_MAX ->
  q_quality m = uint_wrap (spec_qw m).
Proof.
  intros H. unfold q_quality, REL_FACTOR_QUALITY.
  rewrite int_wrap_small by exact H.
  rewrite spec_qw_exact. f_equal.
  replace (quality m * 100) with (20 * quality m * 5) by lia.
  apply Z.quot_mul. discriminate.
Qed.

Lemma a_quality_spec (alt : float) (m : WindMeasurement) :
  a_quality alt m = uint_wrap (spec_aw alt m).
Proof. reflexivity. Qed.

Lemma t_quality_spec (now : Z) (m : WindMeasurement) :
  t_quality now m = uint_wrap (spec_tw now m).
Proof. reflexivity. Qed.

Lemma sample_quality_spec (now : Z) (alt : float) (m : WindMeasurement) :
  INT_MIN <= quality m * 100 <= INT_MAX ->
  sample_quality now alt m = spec_weight now alt m mod 2 ^ 32.
Proof.
  intros H. unfold sample_quality, spec_weight.
  rewrite (q_quality_spec m H), a_quality_spec, t_quality_spec.
  rewrite (uint_wrap_mul (spec_aw alt m)), uint_wrap_mul. reflexivity.
Qed.

(** C4, as amended.  For a sample that passes the window test, and whose
    quality times 100 fits an [int], the altitude weight and the time
    weight are the factors [aw] and [tw] of the spec, between 0 and 100
    and between 0 and 200, and the weight [getWind] adds to the total is
    [qw * (aw * tw)] reduced modulo 2^32, where [qw] is the quality
    factor of the spec, 20 times the quality; it is [qw * (aw * tw)]
    itself when that product lies between 0 and 2^32 - 1, as it does for
    every quality between 0 and 10737. *)
Theorem combined_weight_modulo (now : Z) (alt : float) (st : getWind_state)
    (m : WindMeasurement) :
  in_range now alt m = true ->
  INT_MIN <= quality m * 100 <= INT_MAX ->
  q_quality m = spec_qw m mod 2 ^ 32 /\
  (a_quality alt m = spec_aw alt m /\ 0 <= spec_aw alt m <= 100) /\
  (t_quality now m = spec_tw now m /\ 0 <= spec_tw now m <= 200) /\
  sample_quality now alt m = spec_weight now alt m mod 2 ^ 32 /\
  total_quality (getWind_step now alt st m) =
    (total_quality st + spec_weight now alt m mod 2 ^ 32) mod 2 ^ 32 /\
  (0 <= spec_weight now alt m < 2 ^ 32 ->
   sample_quality now alt m = spec_weight now alt m) /\
  (0 <= quality m <= 10737 ->
   0 <= spec_weight now alt m < 2 ^ 32 /\
   sample_quality now alt m = spec_weight now alt m).
Proof.
  intros Hin Hq.
  pose proof (a_quality_bounds now alt m Hin) as Ha.
  pose proof (t_quality_bounds now alt m Hin) as Ht.
  pose proof (spec_aw_bounds now alt m Hin) as Ha'.
  pose proof (spec_tw_bounds now alt m Hin) as Ht'.
  assert (a_quality alt m = spec_aw alt m) as Ea.
  { rewrite a_quality_spec. apply uint_wrap_small. lia. }
  assert (t_quality now m = spec_tw now m) as Et.
  { rewrite t_quality_spec. apply uint_wrap_small. lia. }
  assert (sample_quality now alt m = spec_weight now alt m mod 2 ^ 32) as Ew
    by apply (sample_quality_spec now alt m Hq).
  split; [apply (q_quality_spec m Hq) |].
  split; [split; [exact Ea | rewrite <- Ea; exact Ha] |].
  split; [split; [exact Et | rewrite <- Et; exact Ht] |].
  split; [exact Ew |].
  split; [| split].
  - unfold getWind_step. rewrite Hin. simpl. rewrite Ew. reflexivity.
  - intros Hr. rewrite Ew. apply Z.mod_small. exact Hr.
  - intros Hq5.
    assert (0 <= spec_weight now alt m < 2 ^ 32) as Hr.
    { unfold spec_weight. rewrite spec_qw_exact, <- Ea, <- Et.
      assert (0 <= a_quality alt m * t_quality now m <= 100 * 200) as Hc by nia.
      change (2 ^ 32) with 4294967296. nia. }
    split; [exact Hr |]. rewrite Ew. apply Z.mod_small. exact Hr.
Qed.

Lemma combined_weight_modulo_witness :
  in_range 100 600 sample_in_window = true /\
  INT_MIN <= quality sample_in_window * 100 <= INT_MAX /\
  0 <= quality sample_in_window <= 10737 /\
  spec_weight 100 600 sample_in_window = 1387680 /\
  sample_quality 100 600 sample_in_window = spec_weight 100 600 sample_in_window.
Proof.
  assert (in_range 100 600 sample_in_window = true) as Hin by (vm_compute; reflexivity).
  assert (INT_MIN <= quality sample_in_window * 100 <= INT_MAX) as Hq
    by (vm_compute; split; discriminate).
  assert (0 <= quality sample_in_window <= 10737) as Hq5
    by (vm_compute; split; discriminate).
  assert (spec_weight 100 600 sample_in_window = 1387680) as Hw
    by (vm_compute; reflexivity).
  split; [exact Hin |]. split; [exact Hq |]. split; [exact Hq5 |].
  split; [exact Hw |].
  destruct (combined_weight_modulo 100 600%float getWind_init sample_in_window Hin Hq)
    as (_ & _ & _ & _ & _ & _ & H).
  apply (H Hq5).
Defined.

(** The claim C4 fails for a sample of quality -1 at distance zero: the
    factors are -20, 100 and 200 and their product is -400000, but the
    weight added is 2^32 - 400000. *)
Lemma combined_weight_not_the_product :
  in_range 0 0 sample_negative_quality = true /\
  spec_qw sample_negative_quality = -20 /\
  spec_aw 0 sample_negative_quality = 100 /\
  spec_tw 0 sample_negative_quality = 200 /\
  spec_weight 0 0 sample_negative_quality = -400000 /\
  sample_quality 0 0 sample_negative_quality = 4294567296.
Proof. repeat split; vm_compute; reflexivity. Qed.

(** ** Quality values outside 1..5 *)

(** C9, as amended.  [addMeasurement] stores any quality unchanged.  The
    quality weight of [getWind] is the quality times 20, reduced modulo
    2^32 into an [unsigned int].  The combined weight is an unsigned
    value and is never negative: a sample of quality -1 at distance zero
    gets the weight 2^32 - 400000, and a sample of quality 10000 gets the
    weight 4,000,000,000, which the conversion [(int)total_quality] of
    the final division turns into the divisor -294,967,296. *)
Theorem quality_not_validated :
  (forall (Time : float) (v : Vector) (alt : float) (q : Z) (s : WindMeasurementList),
     nummeasurementlist s <= MAX_MEASUREMENTS ->
     exists w,
       measurementlist (addMeasurement Time v alt q s)
         !! Z.to_nat (insert_index Time s) = Some w /\
       quality w = q) /\
  (forall m : WindMeasurement,
     INT_MIN <= quality m * 100 <= INT_MAX ->
     q_quality m = (quality m * 100 / 5) mod 2 ^ 32) /\
  (forall (now : Z) (alt : float) (m : WindMeasurement),
     0 <= sample_quality now alt m < 2 ^ 32) /\
  sample_quality 0 0 sample_negative_quality = 2 ^ 32 - 400000 /\
  sample_quality 0 0 sample_huge_quality = 4000000000 /\
  getWind 0 0 {| measurementlist := [sample_huge_quality] |} =
  ({| x := (4000000000 / -294967296)%float; y := (0 / -294967296)%float |}, true).
Proof.
  split; [| split; [| split; [| repeat split; vm_compute; reflexivity]]].
  - intros Time v alt q s Hn. exists (new_measurement Time v alt q).
    split; [apply addMeasurement_lookup; exact Hn | reflexivity].
  - intros m H. rewrite (q_quality_spec m H), spec_qw_exact.
    unfold uint_wrap. f_equal.
    replace (quality m * 100) with (20 * quality m * 5) by lia.
    symmetry. apply Z.div_mul. discriminate.
  - intros now alt m. apply sample_quality_range.
Qed.

Lemma quality_not_validated_witness :
  nummeasurementlist store_two_samples <= MAX_MEASUREMENTS /\
  INT_MIN <= quality sample_negative_quality * 100 <= INT_MAX /\
  (exists w,
     measurementlist (addMeasurement 0 unit_wind 0 (-1) store_two_samples)
       !! Z.to_nat (insert_index 0 store_two_samples) = Some w /\
     quality w = -1) /\
  q_quality sample_negative_quality = 2 ^ 32 - 20.
Proof.
  assert (nummeasurementlist store_two_samples <= MAX_MEASUREMENTS) as Hn
    by (vm_compute; discriminate).
  assert (INT_MIN <= quality sample_negative_quality * 100 <= INT_MAX) as Hq
    by (vm_compute; split; discriminate).
  split; [exact Hn |]. split; [exact Hq |]. split.
  - apply (proj1 quality_not_validated 0%float unit_wind 0%float (-1)
                 store_two_samples Hn).
  - rewrite (proj1 (proj2 quality_not_validated) sample_negative_quality Hq).
    reflexivity.
Defined.

(** The claim C9 fails in its last part: no quality gives a negative
    combined weight. *)
Lemma combined_weight_never_negative :
  ~ (exists (now : Z) (alt : float) (m : WindMeasurement),
       sample_quality now alt m < 0).
Proof.
  intros (now & alt & m & H).
  pose proof (sample_quality_range now alt m). lia.
Qed.

(** ** Two samples that differ in quality *)

(** C8, as amended.  Take two samples of the same altitude and time, in
    the window of the query, with qualities [1 <= q1 < q2 <= 5], whose
    altitude and time weights are not rounded to zero (the product
    [aw * tw] is positive; it is at most 100 * 200).  Their combined
    weights are [20 * q1 * (aw * tw)] and [20 * q2 * (aw * tw)]: positive,
    and strictly larger for the higher quality.  On the store of the two
    samples [getWind] returns [found = true] and the weighted mean of the
    two vectors with these weights, computed in [double]. *)
Theorem higher_quality_weighs_more (Time alt : float) (v1 v2 : Vector)
    (q1 q2 t : Z) (a : float) :
  let now := double_to_int Time in
  let m1 := {| vector := v1; quality := q1; time := t; altitude := a |} in
  let m2 := {| vector := v2; quality := q2; time := t; altitude := a |} in
  let c := a_quality alt m1 * t_quality now m1 in
  let w1 := sample_quality now alt m1 in
  let w2 := sample_quality now alt m2 in
  1 <= q1 -> q1 < q2 -> q2 <= 5 ->
  in_range now alt m1 = true ->
  0 < c ->
  in_range now alt m2 = true /\
  c <= 100 * 200 /\
  w1 = 20 * q1 * c /\ w2 = 20 * q2 * c /\
  0 < w1 /\ w1 < w2 /\
  getWind Time alt {| measurementlist := [m1; m2] |} =
  ({| x := ((0 + x v1 * double_of_Z w1 + x v2 * double_of_Z w2)
            / double_of_Z (w1 + w2))%float;
      y := ((0 + y v1 * double_of_Z w1 + y v2 * double_of_Z w2)
            / double_of_Z (w1 + w2))%float |}, true).
Proof.
  intros now m1 m2 c w1 w2 Hq1 Hq12 Hq2 Hin Hc0.
  assert (in_range now alt m2 = true) as Hin2 by exact Hin.
  assert (c <= 100 * 200) as Hc1.
  { pose proof (a_quality_bounds now alt m1 Hin) as Ha.
    pose proof (t_quality_bounds now alt m1 Hin) as Ht.
    unfold c. nia. }
  assert (0 < c <= 100 * 200) as Hc by (split; assumption).
  assert (forall q v,
            1 <= q <= 5 ->
            sample_quality now alt
              {| vector := v; quality := q; time := t; altitude := a |} = 20 * q * c)
    as Hw.
  { intros q v Hq. unfold sample_quality.
    change (a_quality alt _ * t_quality now _) with c.
    unfold q_quality, REL_FACTOR_QUALITY. cbn [quality].
    rewrite int_wrap_small by (unfold INT_MIN, INT_MAX; lia).
    replace (q * 100) with (20 * q * 5) by lia.
    rewrite Z.quot_mul by discriminate.
    rewrite (uint_wrap_small (20 * q)) by lia.
    rewrite (uint_wrap_small c) by lia.
    apply uint_wrap_small. nia. }
  assert (w1 = 20 * q1 * c) as Hw1 by (apply Hw; lia).
  assert (w2 = 20 * q2 * c) as Hw2 by (apply Hw; lia).
  split; [exact Hin2 |]. split; [exact Hc1 |].
  split; [exact Hw1 |]. split; [exact Hw2 |].
  split; [nia |]. split; [nia |].
  unfold getWind. fold now.
  unfold getWind_loop. cbn [measurementlist fold_left]. unfold getWind_step.
  rewrite Hin, Hin2. fold w1 w2.
  cbn [total_quality result x y getWind_init vector].
  rewrite Z.add_0_l, (uint_wrap_small w1), (uint_wrap_small (w1 + w2)) by nia.
  destruct (Z.gtb_spec (w1 + w2) 0) as [Hpos | Hneg]; [| nia].
  rewrite int_wrap_small by (unfold INT_MIN, INT_MAX; nia).
  reflexivity.
Qed.

Lemma higher_quality_weighs_more_witness :
  in_range (double_to_int 100) 0 sample_low = true /\
  0 < a_quality 0 sample_low * t_quality (double_to_int 100) sample_low /\
  sample_quality (double_to_int 100) 0 sample_low = 298000 /\
  sample_quality (double_to_int 100) 0 sample_high = 1490000 /\
  getWind 100 0 {| measurementlist := [sample_low; sample_high] |} =
  ({| x := (3278000 / 1788000)%float; y := 0 |}, true).
Proof.
  assert (in_range (double_to_int 100) 0 sample_low = true) as Hin
    by (vm_compute; reflexivity).
  assert (0 < a_quality 0 sample_low * t_quality (double_to_int 100) sample_low)
    as Hc by (vm_compute; reflexivity).
  pose proof (higher_quality_weighs_more 100 0 {| x := 1; y := 0 |} {| x := 2; y := 0 |}
                1 5 0 0 ltac:(lia) ltac:(lia) ltac:(lia) Hin Hc) as H.
  split; [exact Hin |]. split; [exact Hc |].
  destruct H as (_ & _ & H1 & H2 & _ & _ & H).
  unfold sample_low, sample_high.
  split; [rewrite H1; vm_compute; reflexivity |].
  split; [rewrite H2; vm_compute; reflexivity |].
  rewrite H. vm_compute. reflexivity.
Defined.

(** The claim C8 fails in two ways.  Fifty minutes from the samples
    ([now = 3000]) the time weight is rounded to 0: both samples are in
    the window with the combined weight 0, and nothing is found.  And for
    two vectors two units in the last place apart, with the qualities 4
    and 5, the estimate is the [double] half-way between them, as far
    from the one as from the other. *)
Lemma higher_quality_not_always_ahead :
  (in_range 3000 0 sample_low = true /\
   in_range 3000 0 sample_high = true /\
   sample_quality 3000 0 sample_low = 0 /\
   sample_quality 3000 0 sample_high = 0 /\
   getWind 3000 0 {| measurementlist := [sample_low; sample_high] |} =
   (zero_vector, false)) /\
  (sample_quality 0 0 sample_near_low = 1600000 /\
   sample_quality 0 0 sample_near_high = 2000000 /\
   getWind 0 0 {| measurementlist := [sample_near_low; sample_near_high] |} =
   ({| x := 0x1.0000000000001p+0; y := 0 |}, true) /\
   (0x1.0000000000001p+0 - x (vector sample_near_low) =
    x (vector sample_near_high) - 0x1.0000000000001p+0)%float).
Proof. repeat split; vm_compute; reflexivity. Qed.

(** ** Conversions, weights and the replaced slot *)

(** X3.  Converting an [int] to [double] and back with [(int)] gives the
    same [int]. *)
Theorem double_to_int_of_Z (z : Z) :
  INT_MIN <= z <= INT_MAX -> double_to_int (double_of_Z z) = z.
Proof. apply double_to_int_double_of_Z. Qed.

(** X4.  For a sample that passes the window test of [getWind], the
    altitude weight lies between 0 and [REL_FACTOR_ALTITUDE] and the time
    weight between 0 and [REL_FACTOR_TIME], in the [double] arithmetic of
    the code. *)
Theorem window_weights_in_range (now : Z) (alt : float) (m : WindMeasurement) :
  in_range now alt m = true ->
  0 <= a_quality alt m <= REL_FACTOR_ALTITUDE /\
  0 <= t_quality now m <= REL_FACTOR_TIME.
Proof.
  intros H. split.
  - apply (a_quality_bounds now alt m H).
  - apply (t_quality_bounds now alt m H).
Qed.

(** X5.  On a full store [addMeasurement] writes the new sample into the
    slot [getLeastImportantItem] returns and leaves the other slots as
    they are. *)
Theorem addMeasurement_replaces_in_place (Time : float) (v : Vector) (alt : float)
    (q : Z) (s : WindMeasurementList) :
  nummeasurementlist s = MAX_MEASUREMENTS ->
  let index := Z.to_nat (getLeastImportantItem Time s) in
  measurementlist (addMeasurement Time v alt q s) !! index =
    Some (new_measurement Time v alt q) /\
  forall i, i <> index ->
    measurementlist (addMeasurement Time v alt q s) !! i = measurementlist s !! i.
Proof.
  intros H index. rewrite addMeasurement_full by exact H. fold index.
  pose proof (getLeastImportantItem_range Time s) as Hr.
  rewrite H in Hr. specialize (Hr ltac:(unfold MAX_MEASUREMENTS; lia)).
  split.
  - apply list_lookup_insert_eq.
    unfold nummeasurementlist in H. unfold index. lia.
  - intros i Hi. apply list_lookup_insert_ne. congruence.
Qed.

(** *** Instances *)

(** A store in normal use: times do not decrease and every score is
    positive. *)
Lemma getLeastImportantItem_positive_witness :
  1 <= nummeasurementlist store_two_samples <= MAX_MEASUREMENTS /\
  (exists i m, measurementlist store_two_samples !! i = Some m /\
               0 < item_score 100 m) /\
  exists j,
    getLeastImportantItem 100 store_two_samples = Z.of_nat j /\
    scan_winner 100 (measurementlist store_two_samples)
      (length (measurementlist store_two_samples)) 0 j.
Proof.
  assert (1 <= nummeasurementlist store_two_samples <= MAX_MEASUREMENTS) as Hn
    by (vm_compute; split; discriminate).
  assert (exists i m, measurementlist store_two_samples !! i = Some m /\
                      0 < item_score 100 m) as Hpos.
  { exists 0%nat. eexists. split; [vm_compute; reflexivity | vm_compute; reflexivity]. }
  split; [exact Hn |]. split; [exact Hpos |].
  exact (getLeastImportantItem_positive 100 store_two_samples Hn Hpos).
Defined.

Lemma getLeastImportantItem_no_positive_witness :
  1 <= nummeasurementlist store_before_midnight <= MAX_MEASUREMENTS /\
  scores_at_most 100 (measurementlist store_before_midnight)
    (length (measurementlist store_before_midnight)) 0 /\
  getLeastImportantItem 100 store_before_midnight =
  nummeasurementlist store_before_midnight - 1.
Proof.
  assert (1 <= nummeasurementlist store_before_midnight <= MAX_MEASUREMENTS) as Hn
    by (vm_compute; split; discriminate).
  assert (scores_at_most 100 (measurementlist store_before_midnight)
            (length (measurementlist store_before_midnight)) 0) as Hs.
  { intros i m _. apply scores_bounded_by_evaluation. vm_compute. reflexivity. }
  split; [exact Hn |]. split; [exact Hs |].
  exact (getLeastImportantItem_no_positive 100 store_before_midnight Hn Hs).
Defined.

Lemma double_to_int_of_Z_witness :
  INT_MIN <= -86399 <= INT_MAX /\ double_to_int (double_of_Z (-86399)) = -86399.
Proof.
  assert (INT_MIN <= -86399 <= INT_MAX) as H by (vm_compute; split; discriminate).
  split; [exact H |]. exact (double_to_int_of_Z (-86399) H).
Defined.

Lemma window_weights_in_range_witness :
  in_range 100 600 sample_in_window = true /\
  0 <= a_quality 600 sample_in_window <= REL_FACTOR_ALTITUDE /\
  0 <= t_quality 100 sample_in_window <= REL_FACTOR_TIME.
Proof.
  assert (in_range 100 600 sample_in_window = true) as Hin by (vm_compute; reflexivity).
  split; [exact Hin |].
  exact (window_weights_in_range 100 600 sample_in_window Hin).
Defined.

Lemma addMeasurement_replaces_in_place_witness :
  nummeasurementlist store_before_midnight = MAX_MEASUREMENTS /\
  measurementlist (addMeasurement 86100 unit_wind 0 5 store_before_midnight)
    !! Z.to_nat (getLeastImportantItem 86100 store_before_midnight) =
  Some (new_measurement 86100 unit_wind 0 5).
Proof.
  assert (nummeasurementlist store_before_midnight = MAX_MEASUREMENTS) as Hn
    by (vm_compute; reflexivity).
  split; [exact Hn |].
  exact (proj1 (addMeasurement_replaces_in_place 86100 unit_wind 0 5
                  store_before_midnight Hn)).
Defined.

(** ** The store after a sequence of calls *)

Lemma run_measurements_below_capacity (cs : list call) :
  (length cs <= 200)%nat ->
  measurementlist (run cs) = List.map call_measurement cs.
Proof.
  induction cs as [| c cs IH] using rev_ind; intros H; [reflexivity |].
  rewrite length_app in H. simpl in H.
  rewrite run_snoc. unfold do_call.
  assert (nummeasurementlist (run cs) <> MAX_MEASUREMENTS) as Hn.
  { unfold nummeasurementlist, MAX_MEASUREMENTS. rewrite IH by lia.
    rewrite length_map. lia. }
  rewrite addMeasurement_not_full by exact Hn.
  rewrite IH by lia. rewrite List.map_app. reflexivity.
Qed.

Lemma run_count (cs : list call) :
  nummeasurementlist (run cs) = Z.min (Z.of_nat (length cs)) MAX_MEASUREMENTS.
Proof.
  induction cs as [| c cs IH] using rev_ind; [reflexivity |].
  rewrite run_snoc, length_app. simpl length. unfold do_call.
  destruct (decide (nummeasurementlist (run cs) = MAX_MEASUREMENTS)) as [E | E].
  - rewrite nummeasurementlist_addMeasurement_full by exact E.
    rewrite E in IH. lia.
  - rewrite nummeasurementlist_addMeasurement_not_full by exact E.
    pose proof (run_bounded cs). lia.
Qed.

(** X6.  After [n] calls of [addMeasurement] on a new store the counter
    is the smaller of [n] and 200; up to 200 calls the store holds the
    samples of the calls, in the order of the calls, and after any
    number of calls the sample of the last call is in the store. *)
Theorem store_after_calls (cs : list call) :
  nummeasurementlist (run cs) = Z.min (Z.of_nat (length cs)) MAX_MEASUREMENTS /\
  ((length cs <= 200)%nat ->
   measurementlist (run cs) = List.map call_measurement cs) /\
  (forall c, call_measurement c ∈ measurementlist (run (cs ++ [c]))).
Proof.
  split; [apply run_count |]. split; [apply run_measurements_below_capacity |].
  intros c. rewrite run_snoc. unfold do_call, call_measurement.
  apply list_elem_of_lookup.
  exists (Z.to_nat (insert_index (call_Time c) (run cs))).
  apply addMeasurement_lookup. apply run_bounded.
Qed.

Lemma store_after_calls_witness :
  (length [mkCall 10 unit_wind 500 3; mkCall 70 unit_wind 650 5] <= 200)%nat /\
  measurementlist (run [mkCall 10 unit_wind 500 3; mkCall 70 unit_wind 650 5]) =
  [new_measurement 10 unit_wind 500 3; new_measurement 70 unit_wind 650 5].
Proof.
  assert (length [mkCall 10 unit_wind 500 3; mkCall 70 unit_wind 650 5] <= 200)%nat
    as H by (simpl; lia).
  split; [exact H |].
  exact (proj1 (proj2 (store_after_calls _)) H).
Defined.

(** ** Nothing in the window *)

Lemma contributing_nil (now : Z) (alt : float) (l : list WindMeasurement) :
  Forall (fun m => in_range now alt m = false) l -> contributing now alt l = [].
Proof.
  unfold contributing. induction 1 as [| m l Hm Hl IH]; [reflexivity |].
  simpl. rewrite Hm. exact IH.
Qed.

(** X7.  When no stored sample passes the window test, [getWind] returns
    [found = false] and the vector (0, 0), whatever the stored vectors
    are. *)
Theorem getWind_nothing_in_window (Time alt : float) (s : WindMeasurementList) :
  Forall (fun m => in_range (double_to_int Time) alt m = false) (measurementlist s) ->
  getWind Time alt s = (zero_vector, false).
Proof.
  intros H. rewrite getWind_contributing.
  rewrite (contributing_nil _ _ _ H). reflexivity.
Qed.

Lemma getWind_nothing_in_window_witness :
  Forall (fun m => in_range (double_to_int 100) 600 m = false)
         (measurementlist {| measurementlist := [sample_out_of_window] |}) /\
  getWind 100 600 {| measurementlist := [sample_out_of_window] |} = (zero_vector, false).
Proof.
  assert (Forall (fun m => in_range (double_to_int 100) 600 m = false)
                 (measurementlist {| measurementlist := [sample_out_of_window] |})) as H.
  { constructor; [vm_compute; reflexivity | constructor]. }
  split; [exact H |].
  exact (getWind_nothing_in_window 100 600 _ H).
Defined.

(** ** The flag [found] *)

Lemma getWind_found (Time alt : float) (s : WindMeasurementList) :
  snd (getWind Time alt s) =
  (0 <? uint_wrap (total_weight (double_to_int Time) alt (measurementlist s))).
Proof.
  rewrite getWind_unfold. cbv zeta.
  destruct (0 <? uint_wrap _); reflexivity.
Qed.

Lemma total_weight_Permutation (now : Z) (alt : float) (l1 l2 : list WindMeasurement) :
  l1 ≡ₚ l2 -> total_weight now alt l1 = total_weight now alt l2.
Proof.
  unfold total_weight, contributing.
  induction 1 as [| m l1 l2 Hp IH | m1 m2 l | l1 l2 l3 H12 IH12 H23 IH23].
  - reflexivity.
  - simpl. destruct (in_range now alt m); simpl; lia.
  - simpl. destruct (in_range now alt m1), (in_range now alt m2); simpl; lia.
  - lia.
Qed.

(** X8.  [getWind] sets [found] exactly when the weights of the samples
    in the window add up to a number that is not a multiple of 2^32 (the
    total is kept in an [unsigned int]). *)
Theorem found_iff_total_not_zero (Time alt : float) (s : WindMeasurementList) :
  snd (getWind Time alt s) = true <->
  total_weight (double_to_int Time) alt (measurementlist s) mod 2 ^ 32 <> 0.
Proof.
  rewrite getWind_found. unfold uint_wrap.
  pose proof (Z.mod_pos_bound
                (total_weight (double_to_int Time) alt (measurementlist s)) (2 ^ 32)
                ltac:(lia)) as Hr.
  rewrite Z.ltb_lt. lia.
Qed.

(** X9.  The flag [found] does not depend on the order of the samples in
    the slots. *)
Theorem found_order_independent (Time alt : float) (s1 s2 : WindMeasurementList) :
  measurementlist s1 ≡ₚ measurementlist s2 ->
  snd (getWind Time alt s1) = snd (getWind Time alt s2).
Proof.
  intros H. rewrite !getWind_found.
  rewrite (total_weight_Permutation _ _ _ _ H). reflexivity.
Qed.

Lemma found_order_independent_witness :
  measurementlist {| measurementlist := [sample_in_window; sample_out_of_window] |} ≡ₚ
  measurementlist {| measurementlist := [sample_out_of_window; sample_in_window] |} /\
  snd (getWind 100 600 {| measurementlist := [sample_in_window; sample_out_of_window] |}) =
  snd (getWind 100 600 {| measurementlist := [sample_out_of_window; sample_in_window] |}).
Proof.
  assert (measurementlist {| measurementlist := [sample_in_window; sample_out_of_window] |} ≡ₚ
          measurementlist {| measurementlist := [sample_out_of_window; sample_in_window] |})
    as H by apply perm_swap.
  split; [exact H |].
  exact (found_order_independent 100 600 _ _ H).
Defined.

(** *** Integers as doubles *)

Lemma Prim2SF_double_of_Z (z : Z) :
  z <> 0 -> Z.abs z < 2 ^ 52 ->
  exists m e,
    Prim2SF (double_of_Z z) = S754_finite (z <? 0) m e /\
    valid (S754_finite (z <? 0) m e) = true /\
    val (Zpos m) e = Z.abs z * 2 ^ 1074.
Proof.
  intros Hz Hr. unfold double_of_Z, binary_normalize.
  assert (forall (s : bool) (p : positive),
            Zpos p < 2 ^ 52 ->
            exists m e,
              Prim2SF (SF2Prim (binary_round prec emax s p 0)) = S754_finite s m e /\
              valid (S754_finite s m e) = true /\
              val (Zpos m) e = Zpos p * 2 ^ 1074) as Hgen.
  { intros s p Hp.
    destruct (binary_round_small s p Hp) as (j & Hj & ->).
    pose proof (valid_binary_round_small s p j Hj) as V.
    rewrite Prim2SF_SF2Prim by exact V.
    eexists. eexists. split; [reflexivity |]. split; [exact V |].
    rewrite Zpos_iter_xO. unfold val.
    pose proof (digits2_pos_lower p) as Hl.
    assert (0 < Zpos (digits2_pos p)) as Hd by lia.
    rewrite <- Z.mul_assoc, <- Z.pow_add_r by lia.
    do 2 f_equal. lia. }
  destruct z as [| p | p]; [congruence | |].
  - apply (Hgen false p). exact Hr.
  - apply (Hgen true p). exact Hr.
Qed.

Lemma Prim2SF_timeRange :
  Prim2SF (double_of_Z timeRange) = S754_finite false M_timeRange (-41).
Proof. vm_compute. reflexivity. Qed.

Lemma val_timeRange : val (Zpos M_timeRange) (-41) = 3600 * 2 ^ 1074.
Proof.
  change (Zpos M_timeRange) with (3600 * 2 ^ 41).
  apply (val_integer 3600 41). lia.
Qed.

(** *** Signs *)

Lemma SFabs_binary_round_aux (s : bool) (m e : Z) (l : location) :
  SFabs (binary_round_aux prec emax s m e l) = binary_round_aux prec emax false m e l.
Proof.
  unfold binary_round_aux.
  destruct (shr_fexp prec emax m e l) as [mrs' e'].
  destruct (shr_fexp prec emax _ e' loc_Exact) as [mrs'' e''].
  destruct (shr_m mrs''); [reflexivity | | reflexivity].
  destruct (e'' <=? emax - prec); reflexivity.
Qed.

Lemma SFabs_SFdiv (s : bool) (mx : positive) (ex : Z) (my : positive) (ey : Z) :
  SFabs (SF64div (S754_finite s mx ex) (S754_finite false my ey)) =
  SF64div (S754_finite false mx ex) (S754_finite false my ey).
Proof.
  unfold SF64div, SFdiv.
  destruct (SFdiv_core_binary prec emax (Zpos mx) ex (Zpos my) ey) as [[mz ez] lz].
  apply SFabs_binary_round_aux.
Qed.

(** *** Comparison *)

Lemma SFltb_val_lt (m1 : positive) (e1 : Z) (m2 : positive) (e2 : Z) :
  valid (S754_finite false m1 e1) = true ->
  valid (S754_finite false m2 e2) = true ->
  SFltb (S754_finite false m1 e1) (S754_finite false m2 e2) = true ->
  val (Zpos m1) e1 < val (Zpos m2) e2.
Proof.
  intros V1 V2 H.
  destruct (valid_finite _ _ _ V1) as (He1 & Hm1 & _).
  destruct (valid_finite _ _ _ V2) as (He2 & Hm2 & Hn2).
  unfold SFltb, SFcompare in H.
  change (IntDef.Z.compare e1 e2) with (Z.compare e1 e2) in H.
  change (PosDef.Pos.compare_cont Eq m1 m2) with (Pos.compare m1 m2) in H.
  destruct (Z.compare e1 e2) eqn:Ecmp.
  - apply Z.compare_eq in Ecmp. subst e2.
    destruct (Pos.compare m1 m2) eqn:Epos; try discriminate.
    unfold val. apply Z.mul_lt_mono_pos_r; [apply pow2_pos; lia |].
    exact Epos.
  - change (e1 < e2) in Ecmp.
    assert (-1074 < e2) as Hlt by lia. specialize (Hn2 Hlt).
    unfold val.
    rewrite (pow2_split (e1 + 1074) (e2 + 1074)) by lia.
    pose proof (pow2_pos (e1 + 1074) ltac:(lia)) as Hp.
    assert (2 <= 2 ^ (e2 + 1074 - (e1 + 1074))) as H2.
    { change 2 with (2 ^ 1) at 1. apply pow2_le. lia. }
    change (2 ^ 53) with (2 * 2 ^ 52) in Hm1.
    assert (Zpos m1 < Zpos m2 * 2 ^ (e2 + 1074 - (e1 + 1074))) as Hm by nia.
    rewrite Z.mul_assoc. apply Z.mul_lt_mono_pos_r; [exact Hp | exact Hm].
  - discriminate.
Qed.

(** *** Differences of 3600 and more *)

Lemma time_in_window_outside (d : Z) :
  3600 <= Z.abs d <= 2 ^ 31 -> time_in_window d = false.
Proof.
  intros Hd. unfold time_in_window.
  assert (d <> 0) as Hd0 by lia.
  assert (Z.abs d < 2 ^ 52) as Hd52.
  { apply Z.le_lt_trans with (2 ^ 31); [lia | apply pow2_lt; lia]. }
  destruct (Prim2SF_double_of_Z d Hd0 Hd52) as (m & e & Ex & Vx & Hval).
  pose proof (Prim2SF_valid (double_of_Z timeRange)) as Vy.
  rewrite Prim2SF_timeRange in Vy.
  pose proof (Prim2SF_valid (abs (double_of_Z d / double_of_Z timeRange))) as Vq.
  rewrite abs_spec, div_spec, Ex, Prim2SF_timeRange, SFabs_SFdiv in Vq.
  rewrite ltb_spec, abs_spec, div_spec, Ex, Prim2SF_timeRange, SFabs_SFdiv, Prim2SF_one.
  assert (valid (S754_finite false m e) = true) as Vx' by (destruct (d <? 0); exact Vx).
  destruct (valid_finite _ _ _ Vx') as (He & Hm & Hn).
  pose proof (pow2_pos 1074 ltac:(lia)) as HU.
  (* the exponent of the numerator *)
  assert (e <= -21) as He21.
  { assert (-1074 <= -21) as R by lia.
    apply (valid_le_scaled false m e (2 ^ 52) (-21) Vx' two52_range R).
    rewrite Hval. unfold val. change (-21 + 1074) with 1053.
    rewrite <- Z.pow_add_r by lia. change (52 + 1053) with (31 + 1074).
    rewrite Z.pow_add_r by lia.
    apply Z.mul_le_mono_nonneg_r; lia. }
  assert (div_exponent m e M_timeRange (-41) <= 0) as Hdiv.
  { unfold div_exponent. rewrite fexp_eq.
    change (Zpos (digits2_pos M_timeRange)) with 53.
    assert (Zpos (digits2_pos m) <= 53) as Hdg
      by (apply digits2_pos_bound; [lia | exact Hm]).
    lia. }
  assert (0 < 1 < 2 ^ 53) as R1 by (split; reflexivity).
  assert (-1074 <= 0) as R0 by lia.
  assert (val 1 0 * val (Zpos M_timeRange) (-41) <= val (Zpos m) e * 2 ^ 1074) as Hlow.
  { rewrite val_timeRange, Hval.
    replace (val 1 0) with (2 ^ 1074) by (unfold val; rewrite Z.mul_1_l; reflexivity).
    remember (2 ^ 1074) as U eqn:EU.
    replace (U * (3600 * U)) with (3600 * U * U) by ring.
    apply Z.mul_le_mono_nonneg_r; [lia |].
    apply Z.mul_le_mono_nonneg_r; lia. }
  destruct (SFdiv_low m e M_timeRange (-41) 1 0 Vx' Vy R1 R0 Hdiv Hlow)
    as [-> | (q & e3 & Eq & Hq)].
  - reflexivity.
  - rewrite Eq in Vq |- *.
    destruct (SFltb (S754_finite false q e3) (S754_finite false M_one (-52))) eqn:Hlt;
      [exfalso | reflexivity].
    pose proof (Prim2SF_valid 1) as V1. rewrite Prim2SF_one in V1.
    pose proof (SFltb_val_lt q e3 M_one (-52) Vq V1 Hlt) as Hs.
    rewrite val_one in Hs.
    replace (val 1 0) with (2 ^ 1074) in Hq
      by (unfold val; rewrite Z.mul_1_l; reflexivity).
    lia.
Qed.

(** *** Differences below 3600 *)

Lemma time_weight_table : forallb time_weight_row (seq 0 3600) = true.
Proof. vm_compute. reflexivity. Qed.

Lemma time_weight_row_at (d : Z) :
  0 <= d < 3600 ->
  time_in_window d = true /\ time_in_window (- d) = true /\
  time_weight (- d) = time_weight d /\
  time_weight (d + 1) <= time_weight d /\
  (time_weight d = 200 <-> d <= 5) /\
  (0 < time_weight d <-> d <= 2220) /\
  time_weight d <= 200.
Proof.
  intros Hd.
  pose proof (proj1 (forallb_forall _ _) time_weight_table (Z.to_nat d)) as H.
  assert (In (Z.to_nat d) (seq 0 3600)) as Hin by (apply in_seq; lia).
  specialize (H Hin). unfold time_weight_row in H.
  rewrite Z2Nat.id in H by lia.
  repeat (apply andb_prop in H; destruct H as [H ?]).
  repeat match goal with
         | E : Bool.eqb _ _ = true |- _ => apply Bool.eqb_prop in E
         end.
  split; [assumption |]. split; [assumption |].
  split; [apply Z.eqb_eq; assumption |].
  split; [apply Z.leb_le; assumption |].
  split; [| split; [| apply Z.leb_le; assumption]].
  - rewrite <- Z.eqb_eq, <- Z.leb_le.
    match goal with E : (time_weight d =? 200) = _ |- _ => rewrite E end.
    reflexivity.
  - rewrite <- Z.ltb_lt, <- Z.leb_le.
    match goal with E : (0 <? time_weight d) = _ |- _ => rewrite E end.
    reflexivity.
Qed.

Lemma time_weight_abs (d : Z) :
  Z.abs d < 3600 -> time_weight d = time_weight (Z.abs d).
Proof.
  intros H. destruct (Z.abs_spec d) as [[_ ->] | [Hneg E]]; [reflexivity |].
  rewrite E. replace d with (- (- d)) at 1 by lia.
  apply (time_weight_row_at (- d)). lia.
Qed.

Lemma time_weight_decreasing (a : Z) (n : nat) :
  0 <= a -> a + Z.of_nat n < 3600 ->
  time_weight (a + Z.of_nat n) <= time_weight a.
Proof.
  intros Ha. induction n as [| n IH]; intros H.
  - rewrite Z.add_0_r. lia.
  - rewrite Nat2Z.inj_succ in H |- *.
    assert (time_weight (a + Z.of_nat n + 1) <= time_weight (a + Z.of_nat n)) as Hs
      by (apply time_weight_row_at; lia).
    replace (a + Z.succ (Z.of_nat n)) with (a + Z.of_nat n + 1) by lia.
    specialize (IH ltac:(lia)). lia.
Qed.

Lemma time_in_window_iff (d : Z) :
  Z.abs d <= 2 ^ 31 -> (time_in_window d = true <-> Z.abs d < 3600).
Proof.
  intros Hr. split.
  - intros H. destruct (Z.lt_ge_cases (Z.abs d) 3600) as [| Hge]; [assumption |].
    rewrite time_in_window_outside in H by lia. discriminate.
  - intros H. destruct (Z.abs_spec d) as [[Hpos E] | [Hneg E]].
    + apply (time_weight_row_at d). lia.
    + replace d with (- (- d)) by lia. apply (time_weight_row_at (- d)). lia.
Qed.

Lemma abs_int_wrap (z : Z) : Z.abs (int_wrap z) <= 2 ^ 31.
Proof. pose proof (int_wrap_range z). unfold INT_MIN, INT_MAX in *. lia. Qed.

(** The time weight in terms of the distance, and the weight of a sample
    more than 2220 time units away. *)
Lemma t_quality_distance (now : Z) (m : WindMeasurement) :
  Z.abs (int_wrap (now - time m)) < 3600 ->
  t_quality now m = time_weight (Z.abs (int_wrap (now - time m))).
Proof.
  intros H.
  change (t_quality now m) with (time_weight (int_wrap (now - time m))).
  apply time_weight_abs. exact H.
Qed.

Lemma sample_quality_far (now : Z) (alt : float) (m : WindMeasurement) :
  2220 < Z.abs (int_wrap (now - time m)) < 3600 ->
  sample_quality now alt m = 0.
Proof.
  intros Hd. unfold sample_quality.
  rewrite (t_quality_distance now m) by lia.
  set (d := Z.abs (int_wrap (now - time m))) in *.
  destruct (time_weight_row_at d ltac:(unfold d in *; lia))
    as (_ & _ & _ & _ & _ & Hpos & _).
  assert (time_weight d = 0) as ->.
  { assert (0 <= time_weight d)
      by (unfold time_weight, uint_wrap; apply Z.mod_pos_bound; reflexivity).
    destruct (Z.le_gt_cases (time_weight d) 0) as [| Hgt]; [lia |].
    apply Hpos in Hgt. lia. }
  rewrite Z.mul_0_r. unfold uint_wrap.
  rewrite Z.mod_0_l by discriminate. rewrite Z.mul_0_r. reflexivity.
Qed.

(** ** The time window and the time weight *)

(** X10.  A sample passes the time test [timediff < 1.0] of [getWind]
    exactly when the difference [now - m->time], as the program computes
    it in [long], is less than 3600 in absolute value. *)
Theorem time_window_exact (now : Z) (m : WindMeasurement) :
  (timediff now m <? 1)%float = true <-> Z.abs (int_wrap (now - time m)) < 3600.
Proof.
  change ((timediff now m <? 1)%float) with (time_in_window (int_wrap (now - time m))).
  apply time_in_window_iff, abs_int_wrap.
Qed.

(** X11.  Inside the time window the time weight depends only on the
    distance [d = |now - m->time|]: it is at most 200, it is 200
    exactly up to [d = 5], it does not increase with the distance, and it
    is rounded to 0 from [d = 2221] on, so that a sample taken more than
    2220 time units from the reference time gets the weight 0 although it
    passes the window test. *)
Theorem time_weight_profile (now : Z) (m : WindMeasurement) :
  let d := Z.abs (int_wrap (now - time m)) in
  d < 3600 ->
  t_quality now m <= 200 /\
  (t_quality now m = 200 <-> d <= 5) /\
  (0 < t_quality now m <-> d <= 2220) /\
  (forall (alt : float), 2220 < d -> sample_quality now alt m = 0) /\
  (forall (now' : Z) (m' : WindMeasurement),
     let d' := Z.abs (int_wrap (now' - time m')) in
     (d' = d -> t_quality now' m' = t_quality now m) /\
     (d <= d' < 3600 -> t_quality now' m' <= t_quality now m)).
Proof.
  intros d Hd.
  pose proof t_quality_distance as Htw.
  rewrite (Htw now m Hd). fold d.
  assert (0 <= d < 3600) as Hr by (unfold d in *; lia).
  destruct (time_weight_row_at d Hr) as (_ & _ & _ & _ & H200 & Hpos & Hle).
  split; [exact Hle |]. split; [exact H200 |]. split; [exact Hpos |]. split.
  - intros alt Hfar. apply sample_quality_far. fold d. lia.
  - intros now' m' d'. split.
    + intros E. rewrite (Htw now' m') by (fold d'; lia). fold d'. rewrite E. reflexivity.
    + intros Hd'. rewrite (Htw now' m') by (fold d'; lia). fold d'.
      replace d' with (d + Z.of_nat (Z.to_nat (d' - d))) by lia.
      apply time_weight_decreasing; lia.
Qed.

Lemma time_weight_profile_witness :
  Z.abs (int_wrap (3000 - time sample_low)) < 3600 /\
  in_range 3000 0 sample_low = true /\
  t_quality 3000 sample_low = 0 /\
  sample_quality 3000 0 sample_low = 0.
Proof.
  assert (Z.abs (int_wrap (3000 - time sample_low)) < 3600) as H
    by (vm_compute; reflexivity).
  split; [exact H |]. split; [vm_compute; reflexivity |].
  destruct (time_weight_profile 3000 sample_low H) as (_ & _ & Hpos & Hzero & _).
  split.
  - assert (0 <= t_quality 3000 sample_low)
      by (unfold t_quality, uint_wrap; apply Z.mod_pos_bound; reflexivity).
    destruct (Z.le_gt_cases (t_quality 3000 sample_low) 0) as [| Hgt]; [lia |].
    apply Hpos in Hgt. vm_compute in Hgt. exfalso. apply Hgt. reflexivity.
  - apply Hzero. vm_compute. reflexivity.
Defined.

(** ** The store with its pointers: no fault, no leak *)

Lemma mem_represents_length (h : free_store) (a : list address)
    (l : list WindMeasurement) :
  mem_represents (h, a) l -> length a = length l.
Proof. intros (_ & _ & H). apply (Forall2_length _ _ _ H). Qed.

Lemma mem_represents_append (h : free_store) (a : list address)
    (l : list WindMeasurement) (p : address) (w : WindMeasurement) :
  mem_represents (h, a) l -> h !! p = None ->
  mem_represents (<[p := w]> h, a ++ [p]) (l ++ [w]).
Proof.
  intros (Hnd & Hdom & Hrep) Hp.
  assert (p ∉ a) as Hpa.
  { intros Hin. apply Hdom in Hin. rewrite Hp in Hin. destruct Hin; discriminate. }
  split; [| split].
  - apply NoDup_app. split; [exact Hnd |]. split; [| apply NoDup_singleton].
    intros q Hq Hq'. apply list_elem_of_singleton in Hq'. subst q. contradiction.
  - intros q. rewrite elem_of_app, list_elem_of_singleton, Hdom.
    destruct (decide (p = q)) as [<- | Hne].
    + rewrite lookup_insert_eq. split; [eauto | right; reflexivity].
    + rewrite lookup_insert_ne by exact Hne. split; [| left; assumption].
      intros [H | ->]; [exact H | contradiction].
  - apply Forall2_app.
    + apply (Forall2_impl _ _ _ _ Hrep).
      intros q m Hq. rewrite lookup_insert_ne; [exact Hq |].
      intros ->. rewrite Hp in Hq. discriminate.
    + constructor; [apply lookup_insert_eq | constructor].
Qed.

Lemma mem_represents_replace (h : free_store) (a : list address)
    (l : list WindMeasurement) (i : nat) (p p' : address) (w : WindMeasurement) :
  mem_represents (h, a) l -> a !! i = Some p -> delete p h !! p' = None ->
  mem_represents (<[p' := w]> (delete p h), <[i := p']> a) (<[i := w]> l).
Proof.
  intros (Hnd & Hdom & Hrep) Hi Hp'.
  pose proof Hnd as Hnda.
  assert (i < length a)%nat as Hlen by (apply lookup_lt_is_Some; eauto).
  pose proof (take_drop_middle a i p Hi) as Ha.
  rewrite (insert_take_drop a i p' Hlen).
  set (a1 := take i a) in *. set (a2 := drop (S i) a) in *.
  rewrite <- Ha in Hnd, Hdom.
  apply NoDup_app in Hnd as (Hnd1 & Hdis & Hnd2).
  apply NoDup_cons in Hnd2 as (Hp2 & Hnd2).
  assert (p ∉ a1) as Hp1.
  { intros Hin. apply (Hdis p Hin). apply list_elem_of_here. }
  assert (forall q, q ∈ a1 ++ a2 <-> is_Some (delete p h !! q)) as Hdom1.
  { intros q. rewrite lookup_delete_is_Some, <- Hdom, !elem_of_app, elem_of_cons.
    split.
    - intros [H | H]; (split; [intros ->; contradiction | tauto]).
    - intros [Hne [H | [-> | H]]]; [left; exact H | congruence | right; exact H]. }
  assert (p' ∉ a1 ++ a2) as Hfresh.
  { intros Hin. apply Hdom1 in Hin. rewrite Hp' in Hin. destruct Hin; discriminate. }
  apply not_elem_of_app in Hfresh as [Hf1 Hf2].
  split; [| split].
  - apply NoDup_app. split; [exact Hnd1 |]. split.
    + intros q Hq Hq'. apply elem_of_cons in Hq' as [-> | Hq']; [contradiction |].
      apply (Hdis q Hq). apply list_elem_of_further. exact Hq'.
    + apply NoDup_cons. split; assumption.
  - intros q. rewrite elem_of_app, elem_of_cons.
    destruct (decide (p' = q)) as [<- | Hne].
    + rewrite lookup_insert_eq. split; [eauto | right; left; reflexivity].
    + rewrite lookup_insert_ne by exact Hne. rewrite <- Hdom1, elem_of_app.
      split; [intros [H | [-> | H]]; [left; exact H | congruence | right; exact H]
             | intros [H | H]; [left; exact H | right; right; exact H]].
  - unfold a1, a2. rewrite <- (insert_take_drop a i p' Hlen).
    apply Forall2_same_length_lookup. split.
    + rewrite !length_insert. apply (Forall2_length _ _ _ Hrep).
    + intros j q m Hq Hm.
      destruct (decide (i = j)) as [<- | Hne].
      * rewrite list_lookup_insert_eq in Hq by exact Hlen.
        rewrite list_lookup_insert_eq in Hm
          by (rewrite <- (Forall2_length _ _ _ Hrep); exact Hlen).
        injection Hq as <-. injection Hm as <-. apply lookup_insert_eq.
      * rewrite list_lookup_insert_ne in Hq by exact Hne.
        rewrite list_lookup_insert_ne in Hm by exact Hne.
        pose proof (Forall2_lookup_lr _ _ _ _ _ _ Hrep Hq Hm) as Hh. simpl in Hh.
        assert (q <> p) as Hqp.
        { intros ->. exact (Hne (NoDup_lookup a i j p Hnda Hi Hq)). }
        assert (q ∈ a1 ++ a2) as Hqin.
        { apply Hdom1. rewrite lookup_delete_ne by congruence. eauto. }
        assert (p' <> q) as Hp'q.
        { intros ->. apply elem_of_app in Hqin as [|]; contradiction. }
        rewrite lookup_insert_ne by exact Hp'q.
        rewrite lookup_delete_ne by congruence. exact Hh.
Qed.

(** Reading through the pointers gives the scan of the samples. *)
Lemma mem_getLeastImportantItem_loop_eq (Time : float) (h : free_store)
    (a : list address) (l : list WindMeasurement) :
  Forall2 (fun p m => h !! p = Some m) a l ->
  forall (count : nat) (maxscore founditem : Z),
    (count <= length a)%nat ->
    mem_getLeastImportantItem_loop Time h a count maxscore founditem =
    Some (getLeastImportantItem_loop Time l count maxscore founditem).
Proof.
  intros Hrep. induction count as [| i IH]; intros maxscore founditem Hc;
    [reflexivity |].
  simpl.
  destruct (lookup_lt_is_Some_2 a i ltac:(lia)) as [p Hp].
  destruct (lookup_lt_is_Some_2 l i
              ltac:(rewrite <- (Forall2_length _ _ _ Hrep); lia)) as [m Hm].
  rewrite Hp, Hm.
  pose proof (Forall2_lookup_lr _ _ _ _ _ _ Hrep Hp Hm) as Hh. simpl in Hh.
  rewrite Hh.
  destruct (item_score Time m >? maxscore); apply IH; lia.
Qed.

Lemma mem_getLeastImportantItem_eq (Time : float) (h : free_store)
    (a : list address) (l : list WindMeasurement) :
  mem_represents (h, a) l ->
  1 <= Z.of_nat (length l) <= MAX_MEASUREMENTS ->
  mem_getLeastImportantItem Time (h, a) =
  Some (getLeastImportantItem Time {| measurementlist := l |}).
Proof.
  intros Hrep Hn. pose proof (mem_represents_length _ _ _ Hrep) as Hlen.
  destruct Hrep as (_ & _ & Hrep).
  unfold mem_getLeastImportantItem, getLeastImportantItem, nummeasurementlist.
  cbn [measurementlist]. rewrite Hlen.
  apply mem_getLeastImportantItem_loop_eq; [exact Hrep |].
  unfold MAX_MEASUREMENTS in Hn.
  rewrite (uint_wrap_small (_ - 1)) by lia.
  rewrite int_wrap_small by (unfold INT_MIN, INT_MAX; lia). lia.
Qed.

(** A call of [addMeasurement] on a store within its capacity does not
    fail, and the new state represents the samples the call leaves. *)
Lemma mem_addMeasurement_represents (alloc : free_store -> address) (Time : float)
    (v : Vector) (alt : float) (q : Z) (s : mem_state) (l : list WindMeasurement) :
  allocator alloc ->
  mem_represents s l ->
  Z.of_nat (length l) <= MAX_MEASUREMENTS ->
  exists s',
    mem_addMeasurement alloc Time v alt q s = Some s' /\
    mem_represents s'
      (measurementlist (addMeasurement Time v alt q {| measurementlist := l |})).
Proof.
  intros Halloc Hrep Hn. destruct s as [h a].
  pose proof (mem_represents_length _ _ _ Hrep) as Hlen.
  unfold mem_addMeasurement. rewrite Hlen.
  destruct (Z.of_nat (length l) =? MAX_MEASUREMENTS) eqn:Efull.
  - apply Z.eqb_eq in Efull.
    assert (nummeasurementlist {| measurementlist := l |} = MAX_MEASUREMENTS) as Hfull
      by exact Efull.
    rewrite (addMeasurement_full Time v alt q _ Hfull). cbn [measurementlist].
    rewrite (mem_getLeastImportantItem_eq Time h a l Hrep)
      by (rewrite Efull; unfold MAX_MEASUREMENTS; lia).
    pose proof (getLeastImportantItem_range Time {| measurementlist := l |}) as Hr.
    rewrite Hfull in Hr. specialize (Hr ltac:(unfold MAX_MEASUREMENTS; lia)).
    set (index := Z.to_nat (getLeastImportantItem Time {| measurementlist := l |})) in *.
    assert (index < length a)%nat as Hi by (unfold index; lia).
    destruct (lookup_lt_is_Some_2 a index Hi) as [p Hp]. rewrite Hp.
    assert (is_Some (h !! p)) as [m Hm].
    { destruct Hrep as (_ & Hdom & _). apply Hdom.
      apply (list_elem_of_lookup_2 _ _ _ Hp). }
    unfold mem_delete. rewrite Hm. unfold mem_new.
    eexists. split; [reflexivity |].
    apply mem_represents_replace; [exact Hrep | exact Hp | apply Halloc].
  - apply Z.eqb_neq in Efull.
    assert (nummeasurementlist {| measurementlist := l |} <> MAX_MEASUREMENTS) as Hnf
      by exact Efull.
    rewrite (addMeasurement_not_full Time v alt q _ Hnf). cbn [measurementlist].
    unfold mem_new. eexists. split; [reflexivity |].
    apply mem_represents_append; [exact Hrep | apply Halloc].
Qed.

Lemma mem_run_snoc (alloc : free_store -> address) (cs : list call) (c : call) :
  mem_run alloc (cs ++ [c]) = mem_do_call alloc (mem_run alloc cs) c.
Proof. unfold mem_run. rewrite fold_left_app. reflexivity. Qed.

Lemma mem_run_represents (alloc : free_store -> address) (cs : list call) :
  allocator alloc ->
  exists s, mem_run alloc cs = Some s /\ mem_represents s (measurementlist (run cs)).
Proof.
  intros Halloc. induction cs as [| c cs IH] using rev_ind.
  - exists mem_init. split; [reflexivity |].
    split; [apply NoDup_nil_2 |]. split; [| constructor].
    intros p. rewrite lookup_empty. split.
    + intros H. inversion H.
    + intros [? H]. discriminate.
  - destruct IH as (s & Hs & Hrep).
    rewrite mem_run_snoc, Hs, run_snoc. unfold mem_do_call, do_call.
    pose proof (run_bounded cs) as Hb.
    destruct (mem_addMeasurement_represents alloc (call_Time c) (call_vector c)
                (call_alt c) (call_quality c) s _ Halloc Hrep (proj2 Hb))
      as (s' & Hs' & Hrep').
    exists s'. split; [exact Hs' |].
    destruct (run cs) as [l]. exact Hrep'.
Qed.

(** The destructor releases every sample once and leaves nothing
    allocated. *)
Lemma mem_destroy_represents (a : list address) :
  forall (h : free_store),
    NoDup a -> (forall p, p ∈ a <-> is_Some (h !! p)) ->
    mem_destroy h a = Some ∅.
Proof.
  induction a as [| p a IH]; intros h Hnd Hdom.
  - simpl. f_equal. apply map_empty. intros p.
    destruct (h !! p) eqn:E; [| reflexivity].
    assert (p ∈ @nil address) as Hin by (apply Hdom; eauto). inversion Hin.
  - simpl. apply NoDup_cons in Hnd as [Hp Hnd].
    assert (is_Some (h !! p)) as [m Hm] by (apply Hdom, list_elem_of_here).
    unfold mem_delete. rewrite Hm. apply IH; [exact Hnd |].
    intros q. rewrite lookup_delete_is_Some, <- Hdom, elem_of_cons. split.
    + intros Hq. split; [intros ->; contradiction | right; exact Hq].
    + intros [Hne [-> | Hq]]; [congruence | exact Hq].
Qed.

Lemma first_free_allocator : allocator first_free.
Proof.
  intros h. apply not_elem_of_dom. unfold first_free. apply is_fresh.
Qed.

(** X12.  Whatever addresses the allocator returns, no sequence of
    [addMeasurement] calls on a new object releases a pointer that is not
    allocated or reads a slot that is not occupied; afterwards the slots
    hold different pointers, exactly the allocated addresses are in the
    slots, and the samples they point to are those of the store. *)
Theorem addMeasurement_memory_safe (alloc : free_store -> address) (cs : list call) :
  allocator alloc ->
  exists (h : free_store) (a : list address),
    mem_run alloc cs = Some (h, a) /\
    NoDup a /\
    (forall p, p ∈ a <-> is_Some (h !! p)) /\
    Forall2 (fun p m => h !! p = Some m) a (measurementlist (run cs)).
Proof.
  intros Halloc. destruct (mem_run_represents alloc cs Halloc) as ([h a] & Hs & Hrep).
  exists h, a. split; [exact Hs | exact Hrep].
Qed.

Lemma addMeasurement_memory_safe_witness :
  allocator first_free /\
  exists (h : free_store) (a : list address),
    mem_run first_free [mkCall 10 unit_wind 500 3; mkCall 70 unit_wind 650 5] =
      Some (h, a) /\
    NoDup a /\
    (forall p, p ∈ a <-> is_Some (h !! p)) /\
    Forall2 (fun p m => h !! p = Some m) a
      (measurementlist (run [mkCall 10 unit_wind 500 3; mkCall 70 unit_wind 650 5])).
Proof.
  split; [exact first_free_allocator |].
  exact (addMeasurement_memory_safe first_free _ first_free_allocator).
Defined.

(** X13.  After any sequence of [addMeasurement] calls on a new object
    the destructor releases each allocated sample exactly once: it never
    releases a pointer that is not allocated, and it leaves nothing
    allocated. *)
Theorem destructor_releases_everything (alloc : free_store -> address)
    (cs : list call) (h : free_store) (a : list address) :
  allocator alloc ->
  mem_run alloc cs = Some (h, a) ->
  mem_destroy h a = Some ∅.
Proof.
  intros Halloc Hrun.
  destruct (mem_run_represents alloc cs Halloc) as (s & Hs & Hrep).
  rewrite Hrun in Hs. injection Hs as <-.
  destruct Hrep as (Hnd & Hdom & _).
  apply mem_destroy_represents; assumption.
Qed.

Lemma destructor_releases_everything_witness :
  allocator first_free /\
  mem_run first_free [mkCall 10 unit_wind 500 3; mkCall 70 unit_wind 650 5] =
    Some ({[1%positive := new_measurement 10 unit_wind 500 3;
            2%positive := new_measurement 70 unit_wind 650 5]},
          [1%positive; 2%positive]) /\
  mem_destroy
    {[1%positive := new_measurement 10 unit_wind 500 3;
      2%positive := new_measurement 70 unit_wind 650 5]}
    [1%positive; 2%positive] = Some ∅.
Proof.
  assert (mem_run first_free [mkCall 10 unit_wind 500 3; mkCall 70 unit_wind 650 5] =
          Some ({[1%positive := new_measurement 10 unit_wind 500 3;
                  2%positive := new_measurement 70 unit_wind 650 5]},
                [1%positive; 2%positive])) as Hrun
    by (vm_compute; reflexivity).
  split; [exact first_free_allocator |]. split; [exact Hrun |].
  exact (destructor_releases_everything first_free _ _ _ first_free_allocator Hrun).
Defined.

(** ** Reading the samples through the pointers *)

Lemma mem_getWind_loop_eq (now : Z) (alt : float) (h : free_store)
    (a : list address) (l : list WindMeasurement) :
  Forall2 (fun p m => h !! p = Some m) a l ->
  forall st,
    fold_left (mem_getWind_step now alt h) a (Some st) =
    Some (getWind_loop now alt l st).
Proof.
  induction 1 as [| p m a l Hp Hrep IH]; intros st; [reflexivity |].
  simpl. rewrite Hp. apply IH.
Qed.

Lemma mem_getWind_eq (Time alt : float) (s : mem_state) (l : list WindMeasurement) :
  mem_represents s l ->
  mem_getWind Time alt s = Some (getWind Time alt {| measurementlist := l |}).
Proof.
  destruct s as [h a]. intros (_ & _ & Hrep).
  unfold mem_getWind, getWind. cbn [measurementlist].
  rewrite (mem_getWind_loop_eq _ _ _ _ _ Hrep). reflexivity.
Qed.

(** X23.  After any sequence of [addMeasurement] calls on a new object,
    and whatever addresses the allocator returned, [getWind] reads only
    through pointers that are allocated, and what it returns is
    determined by the samples in the slots alone, not by the addresses. *)
Theorem getWind_memory_safe (alloc : free_store -> address) (cs : list call)
    (Time alt : float) :
  allocator alloc ->
  exists s,
    mem_run alloc cs = Some s /\
    mem_getWind Time alt s = Some (getWind Time alt (run cs)).
Proof.
  intros Halloc. destruct (mem_run_represents alloc cs Halloc) as (s & Hs & Hrep).
  exists s. split; [exact Hs |].
  rewrite (mem_getWind_eq Time alt s _ Hrep). destruct (run cs). reflexivity.
Qed.

Lemma getWind_memory_safe_witness :
  allocator first_free /\
  exists s,
    mem_run first_free [mkCall 10 unit_wind 500 3; mkCall 70 unit_wind 650 5] = Some s /\
    mem_getWind 100 600 s =
    Some (getWind 100 600 (run [mkCall 10 unit_wind 500 3; mkCall 70 unit_wind 650 5])).
Proof.
  split; [exact first_free_allocator |].
  exact (getWind_memory_safe first_free _ 100 600 first_free_allocator).
Defined.

(** ** Altitudes that are not numbers *)

Lemma Prim2SF_not_finite (d : float) :
  is_finite d = false -> SFnonfinite (Prim2SF d).
Proof.
  unfold is_finite, is_nan, is_infinity, SFnonfinite.
  rewrite !eqb_spec, abs_spec.
  change (Prim2SF infinity) with (S754_infinity false).
  destruct (Prim2SF d) as [s | s | | s m e]; intros H.
  - destruct s; vm_compute in H; discriminate.
  - right. exists s. reflexivity.
  - left. reflexivity.
  - exfalso. unfold SFeqb, SFabs, SFcompare in H.
    change (IntDef.Z.compare e e) with (Z.compare e e) in H.
    change (PosDef.Pos.compare_cont Eq m m) with (Pos.compare m m) in H.
    rewrite Z.compare_refl, Pos.compare_refl in H.
    destruct s; simpl in H; discriminate.
Qed.

Lemma SFsub_nonfinite_l (x y : spec_float) :
  SFnonfinite x -> SFnonfinite (SF64sub x y).
Proof.
  intros [-> | [s ->]]; [left; reflexivity |].
  destruct y as [s' | s' | | s' m e]; simpl.
  - right. exists s. reflexivity.
  - destruct s, s'; simpl; [left | right; exists true | right; exists false | left];
      reflexivity.
  - left. reflexivity.
  - right. exists s. reflexivity.
Qed.

Lemma SFsub_nonfinite_r (x y : spec_float) :
  SFnonfinite y -> SFnonfinite (SF64sub x y).
Proof.
  intros [-> | [s ->]].
  - left. destruct x; reflexivity.
  - destruct x as [s' | s' | | s' m e]; simpl.
    + right. exists (negb s). reflexivity.
    + destruct s', s; simpl; [left | right; exists true | right; exists false | left];
        reflexivity.
    + left. reflexivity.
    + right. exists (negb s). reflexivity.
Qed.

(** The window test fails for a difference that is not finite. *)
Lemma window_test_nonfinite (x : spec_float) (my : positive) (ey : Z) :
  SFnonfinite x ->
  SFltb (SFabs (SF64div (SF64mul x (Prim2SF 1)) (S754_finite false my ey)))
        (Prim2SF 1) = false.
Proof.
  rewrite Prim2SF_one. intros [-> | [s ->]]; [reflexivity |].
  destruct s; reflexivity.
Qed.

Lemma Prim2SF_altRange :
  exists my ey, Prim2SF (double_of_Z altRange) = S754_finite false my ey.
Proof. eexists. eexists. vm_compute. reflexivity. Qed.

Lemma in_range_nonfinite (now : Z) (alt : float) (m : WindMeasurement) :
  is_finite alt = false \/ is_finite (altitude m) = false ->
  in_range now alt m = false.
Proof.
  intros H. unfold in_range.
  assert ((abs (altdiff alt m) <? 1)%float = false) as ->; [| reflexivity].
  unfold altdiff. destruct Prim2SF_altRange as (my & ey & Ey).
  rewrite ltb_spec, abs_spec, div_spec, mul_spec, sub_spec, Ey.
  apply window_test_nonfinite.
  destruct H as [H | H].
  - apply SFsub_nonfinite_l, Prim2SF_not_finite, H.
  - apply SFsub_nonfinite_r, Prim2SF_not_finite, H.
Qed.

(** X14.  A sample whose altitude is an infinity or a NaN never passes
    the window test, and for a query altitude that is an infinity or a
    NaN no sample does: [getWind] then returns [found = false] and the
    vector (0, 0) on every store. *)
Theorem nonfinite_altitude_finds_nothing :
  (forall (now : Z) (alt : float) (m : WindMeasurement),
     is_finite (altitude m) = false -> in_range now alt m = false) /\
  (forall (Time alt : float) (s : WindMeasurementList),
     is_finite alt = false -> getWind Time alt s = (zero_vector, false)).
Proof.
  split.
  - intros now alt m H. apply in_range_nonfinite. right. exact H.
  - intros Time alt s H. rewrite getWind_contributing.
    rewrite contributing_nil; [reflexivity |].
    apply Forall_forall. intros m _. apply in_range_nonfinite. left. exact H.
Qed.

Lemma nonfinite_altitude_finds_nothing_witness :
  is_finite nan = false /\
  getWind 100 nan store_two_samples = (zero_vector, false).
Proof.
  assert (is_finite nan = false) as H by (vm_compute; reflexivity).
  split; [exact H |].
  exact (proj2 nonfinite_altitude_finds_nothing 100%float nan store_two_samples H).
Defined.

(** ** Differences of whole numbers *)

(** A difference [x - y] with [0 < y <= x] and [C <= x - y]. *)
Lemma SFsub_low (mx : positive) (ex : Z) (my : positive) (ey : Z) (Mc Ec : Z) :
  valid (S754_finite false mx ex) = true ->
  valid (S754_finite false my ey) = true ->
  0 < Mc < 2 ^ 53 -> -1074 <= Ec -> Z.min ex ey <= Ec ->
  val Mc Ec <= val (Zpos mx) ex - val (Zpos my) ey ->
  SF64sub (S754_finite false mx ex) (S754_finite false my ey) = S754_infinity false \/
  exists q e3,
    SF64sub (S754_finite false mx ex) (S754_finite false my ey) = S754_finite false q e3 /\
    val Mc Ec <= val (Zpos q) e3.
Proof.
  intros Vx Vy HMc HEc Hexp Hdiff.
  destruct (valid_finite _ _ _ Vx) as (Hex & Hmx & _).
  destruct (valid_finite _ _ _ Vy) as (Hey & Hmy & _).
  unfold SF64sub, SFsub. cbv zeta.
  set (ez := Z.min ex ey) in *.
  destruct (shl_align_fst mx ex ez ltac:(unfold ez; lia)) as [-> _].
  destruct (shl_align_fst my ey ez ltac:(unfold ez; lia)) as [-> _].
  unfold cond_Zopp.
  assert (-1074 <= ez) as Hez by (unfold ez; lia).
  rewrite <- (val_aligned (Zpos mx) ex ez) in Hdiff by (unfold ez; lia).
  rewrite <- (val_aligned (Zpos my) ey ez) in Hdiff by (unfold ez; lia).
  set (X := Zpos mx * 2 ^ (ex - ez)) in *.
  set (Y := Zpos my * 2 ^ (ey - ez)) in *.
  assert (Mc * 2 ^ (Ec - ez) <= X - Y) as HDl.
  { apply scaled_ge_val; [lia |]. unfold val in *. lia. }
  apply (binary_normalize_low (X - Y) ez Mc Ec Hexp HEc HMc HDl).
Qed.

(** The conversion to [int] of a double whose value is the whole number
    [n]. *)
Lemma SFtrunc_val (q : positive) (e : Z) (n : Z) :
  -1074 <= e -> val (Zpos q) e = n * 2 ^ 1074 ->
  SFtrunc (S754_finite false q e) = Some n.
Proof.
  intros He Hv. unfold SFtrunc, val in *. f_equal.
  pose proof (pow2_pos 1074 ltac:(lia)) as HU.
  destruct e as [| p | p].
  - rewrite Z.shiftl_0_r. simpl in Hv. nia.
  - rewrite Z.shiftl_mul_pow2 by lia.
    rewrite Z.pow_add_r, Z.mul_assoc in Hv by lia.
    apply (Z.mul_cancel_r _ _ (2 ^ 1074)); [lia | exact Hv].
  - rewrite Z.shiftr_div_pow2 by lia.
    assert (2 ^ 1074 = 2 ^ (Zneg p + 1074) * 2 ^ Zpos p) as E.
    { rewrite <- Z.pow_add_r by lia. f_equal. lia. }
    pose proof (pow2_pos (Zneg p + 1074) ltac:(lia)) as Hp.
    assert (Zpos q = n * 2 ^ Zpos p) as Hq.
    { apply (Z.mul_cancel_r _ _ (2 ^ (Zneg p + 1074))); [lia |].
      rewrite Hv, E. ring. }
    rewrite Hq. apply Z.div_mul. pose proof (pow2_pos (Zpos p) ltac:(lia)). lia.
Qed.

Lemma double_to_int_val (d : float) (q : positive) (e : Z) (n : Z) :
  Prim2SF d = S754_finite false q e ->
  val (Zpos q) e = n * 2 ^ 1074 -> 0 <= n <= INT_MAX ->
  double_to_int d = n.
Proof.
  intros Ed Hv Hn. unfold double_to_int. rewrite Ed.
  pose proof (Prim2SF_valid d) as V. rewrite Ed in V.
  destruct (valid_finite _ _ _ V) as (He & _ & _).
  rewrite (SFtrunc_val q e n) by (try exact Hv; lia).
  unfold INT_MIN, INT_MAX in *.
  destruct (Z.leb_spec (- 2 ^ 31) n); [| lia].
  destruct (Z.leb_spec n (2 ^ 31 - 1)); [reflexivity | lia].
Qed.

(** The exponent of a double that holds a whole number below 2^52. *)
Lemma valid_integer_exponent (m : positive) (e : Z) (z : Z) :
  valid (S754_finite false m e) = true ->
  val (Zpos m) e = z * 2 ^ 1074 -> z < 2 ^ 52 -> e <= 0.
Proof.
  intros V Hv Hz.
  assert (-1074 <= 0) as R by lia.
  apply (valid_le_scaled false m e (2 ^ 52) 0 V two52_range R).
  rewrite Hv. unfold val. cbn [Z.add].
  apply Z.mul_le_mono_nonneg_r; [apply Z.pow_nonneg; lia | lia].
Qed.

(** [(int)((double)T - (double)t)] is [T - t] for whole numbers
    [0 <= t <= T] in the range of [int]: the subtraction is exact. *)
Lemma double_to_int_difference (T t : Z) :
  0 <= t <= T -> T <= INT_MAX ->
  double_to_int (double_of_Z T - double_of_Z t) = T - t.
Proof.
  intros Ht HT. unfold INT_MAX in HT.
  assert (2 ^ 31 < 2 ^ 52) as H3152 by (apply pow2_lt; lia).
  destruct (Z.eq_dec t 0) as [-> | Ht0].
  - (* [t = 0] *)
    rewrite Z.sub_0_r.
    destruct (Z.eq_dec T 0) as [-> | HT0]; [vm_compute; reflexivity |].
    destruct (Prim2SF_double_of_Z T HT0 ltac:(lia)) as (mx & ex & Ex & Vx & Hx).
    replace (T <? 0) with false in * by (symmetry; apply Z.ltb_ge; lia).
    rewrite Z.abs_eq in Hx by lia.
    apply (double_to_int_val _ mx ex); [| exact Hx | unfold INT_MAX; lia].
    rewrite sub_spec, Ex. reflexivity.
  - destruct (Prim2SF_double_of_Z T ltac:(lia) ltac:(lia)) as (mx & ex & Ex & Vx & Hx).
    destruct (Prim2SF_double_of_Z t Ht0 ltac:(lia)) as (my & ey & Ey & Vy & Hy).
    replace (T <? 0) with false in * by (symmetry; apply Z.ltb_ge; lia).
    replace (t <? 0) with false in * by (symmetry; apply Z.ltb_ge; lia).
    rewrite Z.abs_eq in Hx, Hy by lia.
    pose proof (valid_integer_exponent mx ex T Vx Hx ltac:(lia)) as Hex.
    pose proof (valid_integer_exponent my ey t Vy Hy ltac:(lia)) as Hey.
    pose proof (pow2_pos 1074 ltac:(lia)) as HU.
    destruct (Z.eq_dec T t) as [-> | Hne].
    + (* equal numbers: the difference is +0 *)
      assert (Prim2SF (double_of_Z t - double_of_Z t) = S754_zero false) as E0.
      { rewrite sub_spec, Ex. rewrite Ex in Ey. injection Ey as <- <-.
        unfold SF64sub, SFsub. cbv zeta. unfold cond_Zopp.
        rewrite Z.sub_diag. reflexivity. }
      unfold double_to_int. rewrite E0. simpl. rewrite Z.sub_diag. reflexivity.
    + set (n := T - t).
      assert (0 < n < 2 ^ 53) as Hn.
      { unfold n. split; [lia |].
        apply Z.lt_trans with (2 ^ 52); [lia | apply pow2_lt; lia]. }
      assert (SFnonneg (S754_finite false my ey)) as Ny
        by (right; exists my, ey; reflexivity).
      assert (val n 0 = n * 2 ^ 1074) as Hvn by reflexivity.
      assert (-1074 <= 0 <= 971) as R0 by lia.
      assert (SFval (S754_finite false my ey) <= val (Zpos mx) ex) as Hle.
      { simpl. rewrite Hx, Hy. apply Z.mul_le_mono_nonneg_r; lia. }
      assert (val (Zpos mx) ex - SFval (S754_finite false my ey) <= val n 0) as Hup.
      { simpl. rewrite Hx, Hy, Hvn. unfold n. lia. }
      assert (forall my' ey', S754_finite false my ey = S754_finite false my' ey' ->
                Z.min ex ey' <= 0) as Hmin.
      { intros my' ey' E. injection E as _ <-. lia. }
      destruct (SFsub_le mx ex _ n 0 Vx Vy Ny Hn R0 Hle Hup Hmin) as [Nr Lr].
      assert (val n 0 <= val (Zpos mx) ex - val (Zpos my) ey) as Hlow.
      { rewrite Hx, Hy, Hvn. unfold n. lia. }
      destruct (SFsub_low mx ex my ey n 0 Vx Vy Hn ltac:(lia) ltac:(lia) Hlow)
        as [Einf | (q & e3 & Eq & Hq)].
      * rewrite Einf in Nr. destruct Nr as [? | (? & ? & ?)]; discriminate.
      * rewrite Eq in Lr. simpl in Lr.
        apply (double_to_int_val _ q e3).
        -- rewrite sub_spec, Ex, Ey. exact Eq.
        -- rewrite <- Hvn. lia.
        -- unfold INT_MAX, n. lia.
Qed.

(** ** Eviction with whole times that do not decrease *)

Lemma item_score_whole (T : Z) (m : WindMeasurement) :
  T <= INT_MAX -> scored_in_int T m ->
  item_score (double_of_Z T) m = whole_score T m /\ 600 <= whole_score T m.
Proof.
  intros HT (Ht & Hq & Hs). unfold whole_score in *. unfold item_score.
  rewrite double_to_int_difference by (try exact HT; lia).
  unfold INT_MAX in *.
  rewrite (int_wrap_small (6 - quality m)) by (unfold INT_MIN, INT_MAX; lia).
  rewrite (int_wrap_small (600 * _)) by (unfold INT_MIN, INT_MAX; lia).
  rewrite int_wrap_small by (unfold INT_MIN, INT_MAX; lia).
  lia.
Qed.

(** The scan on a store whose scores are whole: the scores are the ones
    in integers, and the slot returned holds the largest, the highest
    such slot. *)
Lemma getLeastImportantItem_whole (T : Z) (s : WindMeasurementList) :
  1 <= nummeasurementlist s <= MAX_MEASUREMENTS ->
  T <= INT_MAX ->
  Forall (scored_in_int T) (measurementlist s) ->
  (forall i m, measurementlist s !! i = Some m ->
               item_score (double_of_Z T) m = whole_score T m) /\
  exists j mj,
    getLeastImportantItem (double_of_Z T) s = Z.of_nat j /\
    measurementlist s !! j = Some mj /\
    (forall i m, measurementlist s !! i = Some m ->
                 whole_score T m <= whole_score T mj) /\
    (forall i m, (j < i)%nat -> measurementlist s !! i = Some m ->
                 whole_score T m < whole_score T mj).
Proof.
  intros Hn HT Hall.
  assert (forall i m, measurementlist s !! i = Some m ->
            item_score (double_of_Z T) m = whole_score T m /\ 600 <= whole_score T m)
    as Hscore.
  { intros i m Hm. apply item_score_whole; [exact HT |].
    apply (proj1 (Forall_lookup _ _) Hall i m Hm). }
  split; [intros i m Hm; apply (Hscore i m Hm) |].
  rewrite getLeastImportantItem_unfold by exact Hn.
  destruct (getLeastImportantItem_loop_spec (double_of_Z T) (measurementlist s)
              (length (measurementlist s)) 0 (nummeasurementlist s - 1))
    as [[Hbelow _] | (j & (mj & Hj & Hmj & Hgt & Hmax & Hties) & ->)].
  - exfalso.
    destruct (lookup_lt_is_Some_2 (measurementlist s) 0) as [m Hm].
    { unfold nummeasurementlist in Hn. lia. }
    specialize (Hbelow 0%nat m (lookup_lt_Some _ _ _ Hm) Hm).
    destruct (Hscore 0%nat m Hm) as [E Hge]. lia.
  - exists j, mj. split; [reflexivity |]. split; [exact Hmj |].
    destruct (Hscore j mj Hmj) as [Ej _]. split.
    + intros i m Hm. destruct (Hscore i m Hm) as [Ei _].
      rewrite <- Ei, <- Ej. apply (Hmax i m (lookup_lt_Some _ _ _ Hm) Hm).
    + intros i m Hi Hm. destruct (Hscore i m Hm) as [Ei _].
      rewrite <- Ei, <- Ej.
      apply (Hties i m); [| exact Hm].
      split; [exact Hi | apply (lookup_lt_Some _ _ _ Hm)].
Qed.

(** X15.  When the reference time and the stored times are whole
    numbers, no sample is later than the reference time and no quality
    is above 5, the score the program computes in [double] and [int] is
    [600 * (6 - quality) + (T - time)] exactly, and
    [getLeastImportantItem] returns the slot of a sample with the
    largest score, the highest such slot. *)
Theorem eviction_with_whole_times (T : Z) (s : WindMeasurementList) :
  1 <= nummeasurementlist s <= MAX_MEASUREMENTS ->
  T <= INT_MAX ->
  Forall (scored_in_int T) (measurementlist s) ->
  (forall i m, measurementlist s !! i = Some m ->
               item_score (double_of_Z T) m = whole_score T m) /\
  exists j mj,
    getLeastImportantItem (double_of_Z T) s = Z.of_nat j /\
    measurementlist s !! j = Some mj /\
    (forall i m, measurementlist s !! i = Some m ->
                 whole_score T m <= whole_score T mj) /\
    (forall i m, (j < i)%nat -> measurementlist s !! i = Some m ->
                 whole_score T m < whole_score T mj).
Proof. apply getLeastImportantItem_whole. Qed.

Lemma eviction_with_whole_times_witness :
  1 <= nummeasurementlist store_two_samples <= MAX_MEASUREMENTS /\
  100 <= INT_MAX /\
  Forall (scored_in_int 100) (measurementlist store_two_samples) /\
  exists j mj,
    getLeastImportantItem (double_of_Z 100) store_two_samples = Z.of_nat j /\
    measurementlist store_two_samples !! j = Some mj /\
    (forall i m, measurementlist store_two_samples !! i = Some m ->
                 whole_score 100 m <= whole_score 100 mj) /\
    (forall i m, (j < i)%nat -> measurementlist store_two_samples !! i = Some m ->
                 whole_score 100 m < whole_score 100 mj).
Proof.
  assert (1 <= nummeasurementlist store_two_samples <= MAX_MEASUREMENTS) as Hn
    by (vm_compute; split; discriminate).
  assert (100 <= INT_MAX) as HT by (vm_compute; discriminate).
  assert (Forall (scored_in_int 100) (measurementlist store_two_samples)) as Hall.
  { change (measurementlist store_two_samples)
      with [new_measurement 10 {| x := 3; y := 4 |} 500 3;
            new_measurement 70 {| x := -2; y := 8 |} 650 5].
    repeat constructor; vm_compute; discriminate. }
  split; [exact Hn |]. split; [exact HT |]. split; [exact Hall |].
  exact (proj2 (eviction_with_whole_times 100 store_two_samples Hn HT Hall)).
Defined.

(** ** The altitude window *)

(** *** Comparison of valid doubles by their values *)

Lemma SFltb_of_val_lt (m1 : positive) (e1 : Z) (m2 : positive) (e2 : Z) :
  valid (S754_finite false m1 e1) = true ->
  valid (S754_finite false m2 e2) = true ->
  val (Zpos m1) e1 < val (Zpos m2) e2 ->
  SFltb (S754_finite false m1 e1) (S754_finite false m2 e2) = true.
Proof.
  intros V1 V2 H.
  destruct (valid_finite _ _ _ V1) as (He1 & Hm1 & Hn1).
  destruct (valid_finite _ _ _ V2) as (He2 & Hm2 & _).
  unfold SFltb, SFcompare.
  change (IntDef.Z.compare e1 e2) with (Z.compare e1 e2).
  change (PosDef.Pos.compare_cont Eq m1 m2) with (Pos.compare m1 m2).
  destruct (Z.compare_spec e1 e2) as [-> | Hlt | Hgt].
  - unfold val in H.
    assert (Zpos m1 < Zpos m2) as Hm.
    { apply (Z.mul_lt_mono_pos_r (2 ^ (e2 + 1074))); [apply pow2_pos; lia | exact H]. }
    change (Zpos m1 < Zpos m2) with (Pos.compare m1 m2 = Lt) in Hm.
    rewrite Hm. reflexivity.
  - reflexivity.
  - exfalso. specialize (Hn1 ltac:(lia)). unfold val in H.
    rewrite (pow2_split (e2 + 1074) (e1 + 1074)) in H by lia.
    pose proof (pow2_pos (e2 + 1074) ltac:(lia)) as Hp.
    assert (2 <= 2 ^ (e1 + 1074 - (e2 + 1074))) as H2.
    { change 2 with (2 ^ 1) at 1. apply pow2_le. lia. }
    change (2 ^ 53) with (2 * 2 ^ 52) in Hm2.
    rewrite Z.mul_assoc in H.
    apply Z.mul_lt_mono_pos_r in H; [| exact Hp]. nia.
Qed.

Lemma SFltb_false_val (m1 : positive) (e1 : Z) (m2 : positive) (e2 : Z) :
  valid (S754_finite false m1 e1) = true ->
  valid (S754_finite false m2 e2) = true ->
  SFltb (S754_finite false m1 e1) (S754_finite false m2 e2) = false ->
  val (Zpos m2) e2 <= val (Zpos m1) e1.
Proof.
  intros V1 V2 H.
  destruct (Z.le_gt_cases (val (Zpos m2) e2) (val (Zpos m1) e1)) as [| Hlt];
    [assumption |].
  rewrite (SFltb_of_val_lt m1 e1 m2 e2 V1 V2) in H by lia. discriminate.
Qed.

(** Valid doubles of the same value are the same. *)
Lemma valid_val_inj (s : bool) (m1 : positive) (e1 : Z) (m2 : positive) (e2 : Z) :
  valid (S754_finite s m1 e1) = true ->
  valid (S754_finite s m2 e2) = true ->
  val (Zpos m1) e1 = val (Zpos m2) e2 ->
  m1 = m2 /\ e1 = e2.
Proof.
  intros V1 V2 H.
  assert (valid (S754_finite false m1 e1) = true) as V1' by (destruct s; exact V1).
  assert (valid (S754_finite false m2 e2) = true) as V2' by (destruct s; exact V2).
  destruct (SFltb (S754_finite false m1 e1) (S754_finite false m2 e2)) eqn:E12.
  { pose proof (SFltb_val_lt _ _ _ _ V1' V2' E12). lia. }
  destruct (SFltb (S754_finite false m2 e2) (S754_finite false m1 e1)) eqn:E21.
  { pose proof (SFltb_val_lt _ _ _ _ V2' V1' E21). lia. }
  unfold SFltb, SFcompare in E12, E21.
  change (IntDef.Z.compare e1 e2) with (Z.compare e1 e2) in E12.
  change (IntDef.Z.compare e2 e1) with (Z.compare e2 e1) in E21.
  change (PosDef.Pos.compare_cont Eq m1 m2) with (Pos.compare m1 m2) in E12.
  change (PosDef.Pos.compare_cont Eq m2 m1) with (Pos.compare m2 m1) in E21.
  destruct (Z.compare_spec e1 e2) as [-> | Hlt | Hgt]; [| discriminate |].
  - rewrite Z.compare_refl in E21.
    destruct (Pos.compare_spec m1 m2) as [-> | Hlt | Hgt]; [split; reflexivity | discriminate |].
    assert (Pos.compare m2 m1 = Lt) as E by exact Hgt.
    rewrite E in E21. discriminate.
  - assert (Z.compare e2 e1 = Lt) as E by (apply Z.compare_lt_iff; lia).
    rewrite E in E21. discriminate.
Qed.

(** *** Multiplication by 1.0 *)

Lemma SFmul_one (x : spec_float) :
  valid x = true -> valid (SF64mul x (Prim2SF 1)) = true ->
  SF64mul x (Prim2SF 1) = x.
Proof.
  rewrite Prim2SF_one. intros Vx Vr.
  destruct x as [s | s | | s m e]; try (destruct s; reflexivity); try reflexivity.
  destruct (valid_finite _ _ _ Vx) as (He & Hm & _).
  unfold SF64mul, SFmul in *. rewrite Bool.xorb_false_r in *.
  assert (0 <= Zpos (m * M_one)) as H0 by lia.
  assert (0 < Zpos m < 2 ^ 53) as Hr by lia.
  assert (Zpos (m * M_one) = Zpos m * 2 ^ (e - (e + -52))) as Ep.
  { rewrite Pos2Z.inj_mul. f_equal. replace (e - (e + -52)) with 52 by lia.
    reflexivity. }
  destruct (round_up s (Zpos (m * M_one)) (e + -52) loc_Exact (Zpos m) e
              H0 ltac:(lia) He Hr) as [Ez | (p & e3 & Ep3 & He3 & Hup)].
  { simpl. rewrite Ep. lia. }
  - exfalso.
    destruct (round_low s (Zpos (m * M_one)) (e + -52) loc_Exact (Zpos m) e
                H0 ltac:(lia) ltac:(lia) Hr ltac:(rewrite Ep; lia))
      as [Ei | (p & e3 & Ep3 & _)]; rewrite Ez in *; discriminate.
  - destruct (round_low s (Zpos (m * M_one)) (e + -52) loc_Exact (Zpos m) e
                H0 ltac:(lia) ltac:(lia) Hr ltac:(rewrite Ep; lia))
      as [Ei | (p' & e3' & Ep3' & _ & Hlow)].
    + rewrite Ep3 in Ei. discriminate.
    + rewrite Ep3 in Ep3'. injection Ep3' as <- <-.
      rewrite Ep3 in Vr |- *.
      destruct (valid_val_inj s p e3 m e Vr Vx ltac:(lia)) as [-> ->].
      reflexivity.
Qed.

Lemma mul_one (d : float) : (d * 1)%float = d.
Proof.
  apply Prim2SF_inj. rewrite mul_spec.
  apply SFmul_one; [apply Prim2SF_valid |].
  rewrite <- mul_spec. apply Prim2SF_valid.
Qed.

(** *** Division by the altitude range *)

Lemma Prim2SF_altRange_eq :
  Prim2SF (double_of_Z altRange) = S754_finite false M_altRange (-43).
Proof. vm_compute. reflexivity. Qed.

Lemma val_altRange : val (Zpos M_altRange) (-43) = 1000 * 2 ^ 1074.
Proof.
  change (Zpos M_altRange) with (1000 * 2 ^ 43).
  apply (val_integer 1000 43). lia.
Qed.

(** The quotient by 1000.0 of a double below 1000 is below 1. *)
Lemma SFdiv_altRange_inside (m : positive) (e : Z) :
  valid (S754_finite false m e) = true ->
  valid (SF64div (S754_finite false m e) (S754_finite false M_altRange (-43))) = true ->
  SFltb (S754_finite false m e) (S754_finite false M_altRange (-43)) = true ->
  SFltb (SF64div (S754_finite false m e) (S754_finite false M_altRange (-43)))
        (S754_finite false M_one (-52)) = true.
Proof.
  intros Vx Vq Hlt.
  pose proof (Prim2SF_valid (double_of_Z altRange)) as Vy.
  rewrite Prim2SF_altRange_eq in Vy.
  pose proof (Prim2SF_valid 1) as V1. rewrite Prim2SF_one in V1.
  pose proof (SFltb_val_lt _ _ _ _ Vx Vy Hlt) as Hv.
  destruct (valid_finite _ _ _ Vx) as (He & Hm & _).
  assert (0 < Zpos M_altRange < 2 ^ 53) as RM by (split; reflexivity).
  destruct (valid_le_scaled false m e (Zpos M_altRange) (-43) Vx RM ltac:(lia)
              ltac:(lia)) as [He43 Hm43].
  set (P := 2 ^ 53 - 1).
  assert (0 < P < 2 ^ 53) as RP by (unfold P; split; reflexivity).
  assert (-1074 <= -53 <= 971) as R53 by lia.
  assert (SFnonneg (S754_finite false m e)) as Nx
    by (right; exists m, e; reflexivity).
  pose proof (pow2_pos 1074 ltac:(lia)) as HU.
  pose proof (pow2_pos 1021 ltac:(lia)) as H1021.
  (* the numerator is at most 1000 * (1 - 2^-53) *)
  assert (val (Zpos m) e <= P * 1000 * 2 ^ 1021) as Hbound.
  { unfold val.
    destruct (Z.eq_dec e (-43)) as [-> | Hne].
    - assert (Zpos m < Zpos M_altRange) as Hmm.
      { unfold val in Hv.
        apply (Z.mul_lt_mono_pos_r (2 ^ (-43 + 1074)));
          [apply pow2_pos; lia | exact Hv]. }
      change (-43 + 1074) with (10 + 1021).
      rewrite Z.pow_add_r, Z.mul_assoc by lia.
      apply Z.mul_le_mono_nonneg_r; [lia |].
      change (2 ^ 10) with 1024. unfold P.
      change (2 ^ 53) with 9007199254740992.
      change (Zpos M_altRange) with 8796093022208000 in Hmm. lia.
    - assert (2 ^ (e + 1074) <= 2 ^ 1030) as Hp by (apply pow2_le; lia).
      apply Z.le_trans with (Zpos m * 2 ^ 1030).
      + apply Z.mul_le_mono_nonneg_l; lia.
      + change 1030 with (9 + 1021).
        rewrite Z.pow_add_r, Z.mul_assoc by lia.
        apply Z.mul_le_mono_nonneg_r; [lia |].
        change (2 ^ 9) with 512. unfold P.
        change (2 ^ 53) with 9007199254740992 in *. lia. }
  assert (SFval (S754_finite false m e) * 2 ^ 1074 <=
          val P (-53) * val (Zpos M_altRange) (-43)) as Hup.
  { rewrite val_altRange. simpl SFval. unfold val at 2.
    change (-53 + 1074) with 1021.
    replace (P * 2 ^ 1021 * (1000 * 2 ^ 1074))
      with (P * 1000 * 2 ^ 1021 * 2 ^ 1074) by ring.
    apply Z.mul_le_mono_nonneg_r; [lia | exact Hbound]. }
  destruct (SFdiv_up _ M_altRange (-43) P (-53) Vx Vy Nx RP R53 Hup) as [Nq Lq].
  destruct Nq as [Eq | (mq & eq & Eq)]; rewrite Eq in *; [reflexivity |].
  apply SFltb_of_val_lt; [exact Vq | exact V1 |].
  simpl in Lq. rewrite val_one.
  apply Z.le_lt_trans with (val P (-53)); [exact Lq |].
  unfold val, P. change (-53 + 1074) with 1021.
  change 1074 with (53 + 1021). rewrite (Z.pow_add_r 2 53 1021) by lia.
  apply Z.mul_lt_mono_pos_r; [exact H1021 | lia].
Qed.

(** The quotient by 1000.0 of a double that is at least 1000 is at
    least 1. *)
Lemma SFdiv_altRange_outside (m : positive) (e : Z) :
  valid (S754_finite false m e) = true ->
  valid (SF64div (S754_finite false m e) (S754_finite false M_altRange (-43))) = true ->
  SFltb (S754_finite false m e) (S754_finite false M_altRange (-43)) = false ->
  SFltb (SF64div (S754_finite false m e) (S754_finite false M_altRange (-43)))
        (S754_finite false M_one (-52)) = false.
Proof.
  intros Vx Vq Hlt.
  pose proof (Prim2SF_valid (double_of_Z altRange)) as Vy.
  rewrite Prim2SF_altRange_eq in Vy.
  pose proof (Prim2SF_valid 1) as V1. rewrite Prim2SF_one in V1.
  pose proof (SFltb_false_val _ _ _ _ Vx Vy Hlt) as Hv.
  rewrite val_altRange in Hv.
  destruct (valid_finite _ _ _ Vx) as (He & Hm & Hn).
  pose proof (pow2_pos 1074 ltac:(lia)) as HU.
  assert (Zpos (digits2_pos m) <= 53) as Hdg
    by (apply digits2_pos_bound; [lia | exact Hm]).
  assert (exists Mc Ec,
            0 < Mc < 2 ^ 53 /\ -1074 <= Ec /\
            div_exponent m e M_altRange (-43) <= Ec /\
            val Mc Ec * val (Zpos M_altRange) (-43) <= val (Zpos m) e * 2 ^ 1074 /\
            2 ^ 1074 <= val Mc Ec) as (Mc & Ec & RM & REc & Hdiv & Hlow & Hone).
  { destruct (Z.le_gt_cases e 10) as [Hsmall | Hbig].
    - exists 1, 0. split; [split; reflexivity |]. split; [lia |]. split; [| split].
      + unfold div_exponent. rewrite fexp_eq.
        change (Zpos (digits2_pos M_altRange)) with 53. lia.
      + rewrite val_altRange.
        replace (val 1 0) with (2 ^ 1074) by (unfold val; rewrite Z.mul_1_l; reflexivity).
        rewrite (Z.mul_comm (2 ^ 1074)).
        apply Z.mul_le_mono_nonneg_r; [lia | exact Hv].
      + unfold val. rewrite Z.mul_1_l. apply Z.le_refl.
    - exists (2 ^ 52), (e - 10). split; [exact two52_range |]. split; [lia |].
      split; [| split].
      + unfold div_exponent. rewrite fexp_eq.
        change (Zpos (digits2_pos M_altRange)) with 53. lia.
      + specialize (Hn ltac:(lia)). rewrite val_altRange. unfold val.
        replace (e + 1074) with (10 + (e - 10 + 1074)) by lia.
        rewrite (Z.pow_add_r 2 10 (e - 10 + 1074)) by lia.
        pose proof (pow2_pos (e - 10 + 1074) ltac:(lia)) as Hp.
        change (2 ^ 10) with 1024.
        replace (2 ^ 52 * 2 ^ (e - 10 + 1074) * (1000 * 2 ^ 1074))
          with (2 ^ 52 * 1000 * (2 ^ (e - 10 + 1074) * 2 ^ 1074)) by ring.
        replace (Zpos m * (1024 * 2 ^ (e - 10 + 1074)) * 2 ^ 1074)
          with (Zpos m * 1024 * (2 ^ (e - 10 + 1074) * 2 ^ 1074)) by ring.
        apply Z.mul_le_mono_nonneg_r; [lia | lia].
      + rewrite <- val_one. change (Zpos M_one) with (2 ^ 52).
        apply val_le_scaled; [lia |].
        assert (1 <= 2 ^ (e - 10 - -52)) by (apply (pow2_le 0); lia).
        pose proof two52_range. nia. }
  destruct (SFdiv_low m e M_altRange (-43) Mc Ec Vx Vy RM REc Hdiv Hlow)
    as [-> | (q & e3 & Eq & Hq)]; [reflexivity |].
  rewrite Eq in Vq |- *.
  destruct (SFltb (S754_finite false q e3) (S754_finite false M_one (-52))) eqn:C;
    [exfalso | reflexivity].
  pose proof (SFltb_val_lt q e3 M_one (-52) Vq V1 C) as Hs.
  rewrite val_one in Hs. lia.
Qed.

(** The test [fabs(x / 1000.0) < 1.0] is the test [fabs(x) < 1000.0]. *)
Lemma div_altRange_window (d : float) :
  (abs (d / double_of_Z altRange) <? 1)%float = (abs d <? double_of_Z altRange)%float.
Proof.
  pose proof (Prim2SF_valid d) as Vd.
  pose proof (Prim2SF_valid (abs (d / double_of_Z altRange))) as Vq.
  rewrite abs_spec, div_spec, Prim2SF_altRange_eq in Vq.
  rewrite !ltb_spec, !abs_spec, div_spec, Prim2SF_altRange_eq, Prim2SF_one.
  destruct (Prim2SF d) as [s | s | | s m e].
  - destruct s; reflexivity.
  - destruct s; reflexivity.
  - reflexivity.
  - rewrite SFabs_SFdiv in Vq |- *.
    assert (valid (S754_finite false m e) = true) as Vx by (destruct s; exact Vd).
    change (SFabs (S754_finite s m e)) with (S754_finite false m e).
    destruct (SFltb (S754_finite false m e) (S754_finite false M_altRange (-43))) eqn:C.
    + apply SFdiv_altRange_inside; assumption.
    + apply SFdiv_altRange_outside; assumption.
Qed.

(** X16.  A sample passes the altitude test [fabs(altdiff) < 1.0] of
    [getWind] exactly when the difference [alt - m->altitude], as
    computed in [double], is less than 1000 in absolute value: the
    multiplication by 1.0 is exact and the division by the altitude
    range does not move the boundary. *)
Theorem altitude_window_exact (alt : float) (m : WindMeasurement) :
  altdiff alt m = ((alt - altitude m) / 1000)%float /\
  (abs (altdiff alt m) <? 1)%float = (abs (alt - altitude m) <? 1000)%float.
Proof.
  assert (altdiff alt m = ((alt - altitude m) / double_of_Z altRange)%float) as E.
  { unfold altdiff. rewrite mul_one. reflexivity. }
  split; [exact E |].
  rewrite E. apply div_altRange_window.
Qed.

(** ** The window test and the query time *)

Lemma in_range_distances (now : Z) (alt : float) (m : WindMeasurement) :
  in_range now alt m = true <->
  (abs (alt - altitude m) <? 1000)%float = true /\
  Z.abs (int_wrap (now - time m)) < 3600.
Proof.
  unfold in_range. rewrite andb_true_iff.
  assert ((abs (altdiff alt m) <? 1)%float = (abs (alt - altitude m) <? 1000)%float)
    as ->.
  { unfold altdiff. rewrite mul_one. apply div_altRange_window. }
  change ((timediff now m <? 1)%float) with (time_in_window (int_wrap (now - time m))).
  rewrite (time_in_window_iff (int_wrap (now - time m)) (abs_int_wrap _)).
  reflexivity.
Qed.

Lemma getWind_single (Time alt : float) (m : WindMeasurement) :
  let now := double_to_int Time in
  let w := sample_quality now alt m in
  (in_range now alt m = false ->
   getWind Time alt {| measurementlist := [m] |} = (zero_vector, false)) /\
  (in_range now alt m = true -> 0 < w < 2 ^ 31 ->
   getWind Time alt {| measurementlist := [m] |} =
   ({| x := ((0 + x (vector m) * double_of_Z w) / double_of_Z w)%float;
       y := ((0 + y (vector m) * double_of_Z w) / double_of_Z w)%float |}, true)).
Proof.
  intros now w. split.
  - intros Hout. unfold getWind, getWind_loop. cbn [measurementlist fold_left].
    fold now. unfold getWind_step. rewrite Hout. reflexivity.
  - intros Hin Hw. unfold getWind, getWind_loop. cbn [measurementlist fold_left].
    fold now. unfold getWind_step. rewrite Hin. cbv zeta. fold w.
    cbn [total_quality result getWind_init x y].
    rewrite Z.add_0_l, (uint_wrap_small w) by (change (2 ^ 32) with (2 * 2 ^ 31); lia).
    rewrite Z.gtb_ltb. destruct (Z.ltb_spec 0 w) as [_ | Hneg]; [| lia].
    rewrite int_wrap_small by (unfold INT_MIN, INT_MAX; lia). reflexivity.
Qed.

(** C5, as amended.  The window test of [getWind] is
    [|(alt - m->altitude)/1000| < 1.0] and [|now - m->time|/3600 < 1.0]
    with [now = (int)Time], the query time truncated to an [int], and
    the difference taken in [long]: it holds exactly when the altitude
    difference, as computed in [double], is less than 1000 and the time
    difference less than 3600 in absolute value.  A turn of the loop for
    a sample that fails the test leaves the sums and the total weight as
    they are, and a turn for a sample that passes it adds the sample's
    vector times its weight, and its weight.  What [getWind] returns is
    computed from the samples that pass the test alone; dropping a sample
    that fails it from a store does not change the estimate, and the
    estimate over one sample in the window and one out of it is the
    estimate over the first alone.  A store of one sample that fails the
    test gives [found = false] and the zero vector, and one of a sample
    that passes it with a weight between 1 and 2^31 - 1 gives
    [found = true] and that sample's weighted vector over its weight. *)
Theorem window_exclusion :
  (forall (Time alt : float) (m : WindMeasurement),
     let now := double_to_int Time in
     in_range now alt m =
       (abs ((alt - altitude m) / 1000) <? 1)%float &&
       (abs (double_of_Z (int_wrap (now - time m)) / 3600) <? 1)%float /\
     (in_range now alt m = true <->
      (abs (alt - altitude m) <? 1000)%float = true /\
      Z.abs (int_wrap (now - time m)) < 3600)) /\
  (forall (now : Z) (alt : float) (st : getWind_state) (m : WindMeasurement),
     (in_range now alt m = false -> getWind_step now alt st m = st) /\
     (in_range now alt m = true ->
      getWind_step now alt st m =
      {| result :=
           {| x := (x (result st)
                    + x (vector m) * double_of_Z (sample_quality now alt m))%float;
              y := (y (result st)
                    + y (vector m) * double_of_Z (sample_quality now alt m))%float |};
         total_quality := uint_wrap (total_quality st + sample_quality now alt m) |})) /\
  (forall (Time alt : float) (s : WindMeasurementList),
     let now := double_to_int Time in
     let l := contributing now alt (measurementlist s) in
     let T := uint_wrap (fold_right Z.add 0 (List.map (sample_quality now alt) l)) in
     let sum component :=
       fold_left
         (fun acc m =>
            (acc + component (vector m) * double_of_Z (sample_quality now alt m))%float)
         l 0%float in
     Forall (fun m => in_range now alt m = true) l /\
     (forall m, m ∈ l <-> m ∈ measurementlist s /\ in_range now alt m = true) /\
     getWind Time alt s =
     if 0 <? T
     then ({| x := (sum x / double_of_Z (int_wrap T))%float;
              y := (sum y / double_of_Z (int_wrap T))%float |}, true)
     else ({| x := sum x; y := sum y |}, false)) /\
  (forall (Time alt : float) (l1 l2 : list WindMeasurement) (m : WindMeasurement),
     in_range (double_to_int Time) alt m = false ->
     getWind Time alt {| measurementlist := l1 ++ m :: l2 |} =
     getWind Time alt {| measurementlist := l1 ++ l2 |}) /\
  (forall (Time alt : float) (m_in m_out : WindMeasurement),
     in_range (double_to_int Time) alt m_out = false ->
     getWind Time alt {| measurementlist := [m_in; m_out] |} =
     getWind Time alt {| measurementlist := [m_in] |} /\
     getWind Time alt {| measurementlist := [m_out; m_in] |} =
     getWind Time alt {| measurementlist := [m_in] |}) /\
  (forall (Time alt : float) (m : WindMeasurement),
     let now := double_to_int Time in
     let w := sample_quality now alt m in
     (in_range now alt m = false ->
      getWind Time alt {| measurementlist := [m] |} = (zero_vector, false)) /\
     (in_range now alt m = true -> 0 < w < 2 ^ 31 ->
      getWind Time alt {| measurementlist := [m] |} =
      ({| x := ((0 + x (vector m) * double_of_Z w) / double_of_Z w)%float;
          y := ((0 + y (vector m) * double_of_Z w) / double_of_Z w)%float |}, true))).
Proof.
  split; [| split; [| split; [| split; [| split]]]].
  - intros Time alt m now. split; [| apply in_range_distances].
    unfold in_range, altdiff, timediff. rewrite mul_one. reflexivity.
  - intros now alt st m. unfold getWind_step.
    split; intros ->; reflexivity.
  - intros Time alt s now l T sum. split; [| split].
    + unfold l, contributing. apply Forall_forall. intros m Hm.
      apply list_elem_of_In, List.filter_In in Hm as [_ Hm]. exact Hm.
    + intros m. unfold l, contributing.
      rewrite !list_elem_of_In, List.filter_In. reflexivity.
    + apply getWind_unfold.
  - apply getWind_skip.
  - intros Time alt m_in m_out H. split.
    + apply (getWind_skip Time alt [m_in] [] m_out H).
    + apply (getWind_skip Time alt [] [m_in] m_out H).
  - apply getWind_single.
Qed.

Lemma window_exclusion_witness :
  in_range (double_to_int 100) 600 sample_out_of_window = false /\
  in_range (double_to_int 100) 600 sample_in_window = true /\
  0 < sample_quality (double_to_int 100) 600 sample_in_window < 2 ^ 31 /\
  getWind 100 600 {| measurementlist := [sample_in_window; sample_out_of_window] |} =
  getWind 100 600 {| measurementlist := [sample_in_window] |} /\
  snd (getWind 100 600 {| measurementlist := [sample_in_window] |}) = true /\
  getWind 100 600 {| measurementlist := [sample_out_of_window] |} = (zero_vector, false).
Proof.
  assert (in_range (double_to_int 100) 600 sample_out_of_window = false) as Hout
    by (vm_compute; reflexivity).
  assert (in_range (double_to_int 100) 600 sample_in_window = true) as Hin
    by (vm_compute; reflexivity).
  assert (0 < sample_quality (double_to_int 100) 600 sample_in_window < 2 ^ 31) as Hw
    by (vm_compute; split; reflexivity).
  split; [exact Hout |]. split; [exact Hin |]. split; [exact Hw |].
  destruct window_exclusion as (_ & _ & _ & _ & Hpair & Hsingle).
  split; [| split].
  - apply (Hpair 100%float 600%float sample_in_window sample_out_of_window Hout).
  - rewrite (proj2 (Hsingle 100%float 600%float sample_in_window) Hin Hw).
    reflexivity.
  - apply (proj1 (Hsingle 100%float 600%float sample_out_of_window) Hout).
Defined.

(** The claim C5 fails for the query time 0.5 and a sample taken at the
    time 3600: the difference to the query time, 3599.5, passes the test
    of the claim, but [getWind] takes the difference to [(int)0.5 = 0],
    which is 3600, and skips the sample. *)
Lemma window_test_truncates_the_time :
  claimed_in_window 0.5 0 sample_an_hour_ahead = true /\
  in_range (double_to_int 0.5) 0 sample_an_hour_ahead = false /\
  getWind_step (double_to_int 0.5) 0 getWind_init sample_an_hour_ahead = getWind_init /\
  ~ (forall (Time alt : float) (m : WindMeasurement),
       in_range (double_to_int Time) alt m = true <->
       claimed_in_window Time alt m = true).
Proof.
  assert (claimed_in_window 0.5 0 sample_an_hour_ahead = true) as Hclaim
    by (vm_compute; reflexivity).
  assert (in_range (double_to_int 0.5) 0 sample_an_hour_ahead = false) as Hcode
    by (vm_compute; reflexivity).
  split; [exact Hclaim |]. split; [exact Hcode |]. split.
  - unfold getWind_step. rewrite Hcode. reflexivity.
  - intros H. apply (H 0.5%float 0%float sample_an_hour_ahead) in Hclaim.
    rewrite Hcode in Hclaim. discriminate.
Qed.

(** ** The weight of a sample depends on its distances only *)

Lemma SFabs_SFdiv_pos (x : spec_float) (my : positive) (ey : Z) :
  SFabs (SF64div x (S754_finite false my ey)) =
  SF64div (SFabs x) (S754_finite false my ey).
Proof.
  destruct x as [s | s | | s m e]; try (destruct s; reflexivity); try reflexivity.
  change (SFabs (S754_finite s m e)) with (S754_finite false m e).
  apply SFabs_SFdiv.
Qed.

(** [fabs(x / y)] for the two ranges [y] of [getWind]. *)
Lemma abs_div_altRange (d : float) :
  abs (d / double_of_Z altRange) = (abs d / double_of_Z altRange)%float.
Proof.
  apply Prim2SF_inj.
  rewrite abs_spec, !div_spec, abs_spec, Prim2SF_altRange_eq.
  apply SFabs_SFdiv_pos.
Qed.

Lemma abs_div_timeRange (d : float) :
  abs (d / double_of_Z timeRange) = (abs d / double_of_Z timeRange)%float.
Proof.
  apply Prim2SF_inj.
  rewrite abs_spec, !div_spec, abs_spec, Prim2SF_timeRange.
  apply SFabs_SFdiv_pos.
Qed.

Lemma mul_square_abs (d : float) : (d * d)%float = (abs d * abs d)%float.
Proof.
  apply Prim2SF_inj. rewrite !mul_spec, abs_spec. apply SFmul_square.
Qed.

(** [(double) d] and [(double) -d] differ in the sign only. *)
Lemma abs_double_of_Z (d d' : Z) :
  Z.abs d < 2 ^ 52 -> Z.abs d = Z.abs d' ->
  abs (double_of_Z d) = abs (double_of_Z d').
Proof.
  intros Hr Habs.
  destruct (Z.eq_dec d 0) as [-> | Hd].
  { assert (d' = 0) as -> by lia. reflexivity. }
  assert (d' <> 0) as Hd' by lia.
  destruct (Prim2SF_double_of_Z d Hd Hr) as (m & e & E & V & Hv).
  destruct (Prim2SF_double_of_Z d' Hd' ltac:(lia)) as (m' & e' & E' & V' & Hv').
  apply Prim2SF_inj. rewrite !abs_spec, E, E'. simpl.
  assert (valid (S754_finite false m e) = true) as V0 by (destruct (d <? 0); exact V).
  assert (valid (S754_finite false m' e') = true) as V0'
    by (destruct (d' <? 0); exact V').
  destruct (valid_val_inj false m e m' e' V0 V0' ltac:(lia)) as [-> ->].
  reflexivity.
Qed.

Lemma timediff_distance (now now' : Z) (m m' : WindMeasurement) :
  Z.abs (int_wrap (now - time m)) = Z.abs (int_wrap (now' - time m')) ->
  timediff now m = timediff now' m'.
Proof.
  intros H. unfold timediff. rewrite !abs_div_timeRange.
  assert (Z.abs (int_wrap (now - time m)) < 2 ^ 52) as Hr.
  { apply Z.le_lt_trans with (2 ^ 31); [apply abs_int_wrap | apply pow2_lt; lia]. }
  rewrite (abs_double_of_Z _ _ Hr H). reflexivity.
Qed.

Lemma altdiff_distance (alt alt' : float) (m m' : WindMeasurement) :
  abs (alt - altitude m) = abs (alt' - altitude m') ->
  abs (altdiff alt m) = abs (altdiff alt' m') /\
  (altdiff alt m * altdiff alt m)%float = (altdiff alt' m' * altdiff alt' m')%float.
Proof.
  intros H.
  assert (forall a w, abs (altdiff a w) = (abs (a - altitude w) / double_of_Z altRange)%float)
    as E.
  { intros a w. unfold altdiff. rewrite mul_one. apply abs_div_altRange. }
  split.
  - rewrite !E, H. reflexivity.
  - rewrite (mul_square_abs (altdiff alt m)), (mul_square_abs (altdiff alt' m')).
    rewrite !E, H. reflexivity.
Qed.

(** X17.  The weight of a sample depends only on its quality and on its
    distances from the query: two samples of the same quality at the
    same absolute difference in altitude (as computed in [double]) and
    the same absolute difference in time (as computed in [long]) pass or
    fail the window test together and get the same weight, whether they
    lie above or below, before or after the query. *)
Theorem weight_depends_on_distances (now now' : Z) (alt alt' : float)
    (m m' : WindMeasurement) :
  quality m = quality m' ->
  abs (alt - altitude m) = abs (alt' - altitude m') ->
  Z.abs (int_wrap (now - time m)) = Z.abs (int_wrap (now' - time m')) ->
  in_range now alt m = in_range now' alt' m' /\
  a_quality alt m = a_quality alt' m' /\
  t_quality now m = t_quality now' m' /\
  sample_quality now alt m = sample_quality now' alt' m'.
Proof.
  intros Hq Ha Ht.
  destruct (altdiff_distance alt alt' m m' Ha) as [Eabs Esq].
  pose proof (timediff_distance now now' m m' Ht) as Etd.
  assert (a_quality alt m = a_quality alt' m') as Eaq.
  { unfold a_quality. cbv zeta. rewrite Esq. reflexivity. }
  assert (t_quality now m = t_quality now' m') as Etq.
  { unfold t_quality. cbv zeta. rewrite Etd. reflexivity. }
  split; [| split; [exact Eaq | split; [exact Etq |]]].
  - unfold in_range. rewrite Eabs, Etd. reflexivity.
  - unfold sample_quality, q_quality. rewrite Hq, Eaq, Etq. reflexivity.
Qed.

Lemma weight_depends_on_distances_witness :
  quality sample_in_window = quality (mkWindMeasurement unit_wind 4 160 700) /\
  abs (600 - altitude sample_in_window) =
    abs (600 - altitude (mkWindMeasurement unit_wind 4 160 700)) /\
  Z.abs (int_wrap (100 - time sample_in_window)) =
    Z.abs (int_wrap (100 - time (mkWindMeasurement unit_wind 4 160 700))) /\
  sample_quality 100 600 sample_in_window =
    sample_quality 100 600 (mkWindMeasurement unit_wind 4 160 700).
Proof.
  assert (quality sample_in_window = quality (mkWindMeasurement unit_wind 4 160 700))
    as Hq by reflexivity.
  assert (abs (600 - altitude sample_in_window) =
          abs (600 - altitude (mkWindMeasurement unit_wind 4 160 700))) as Ha
    by (vm_compute; reflexivity).
  assert (Z.abs (int_wrap (100 - time sample_in_window)) =
          Z.abs (int_wrap (100 - time (mkWindMeasurement unit_wind 4 160 700)))) as Ht
    by (vm_compute; reflexivity).
  split; [exact Hq |]. split; [exact Ha |]. split; [exact Ht |].
  exact (proj2 (proj2 (proj2 (weight_depends_on_distances 100 100 600 600 _ _ Hq Ha Ht)))).
Defined.

(** ** The index returned by the scan *)

(** X18.  On a store that is not empty [getLeastImportantItem] returns
    the index of an occupied slot, so that [addMeasurement] releases and
    overwrites a slot of the array; on an empty store, where the loop
    is not entered, it returns [nummeasurementlist - 1] in [unsigned int],
    2^32 - 1. *)
Theorem getLeastImportantItem_bounds (Time : float) (s : WindMeasurementList) :
  (nummeasurementlist s = 0 -> getLeastImportantItem Time s = 2 ^ 32 - 1) /\
  (1 <= nummeasurementlist s <= MAX_MEASUREMENTS ->
   0 <= getLeastImportantItem Time s < nummeasurementlist s /\
   is_Some (measurementlist s !! Z.to_nat (getLeastImportantItem Time s))).
Proof.
  split.
  - intros H. unfold getLeastImportantItem. rewrite H. reflexivity.
  - intros H. pose proof (getLeastImportantItem_range Time s H) as Hr.
    split; [exact Hr |].
    apply lookup_lt_is_Some. unfold nummeasurementlist in Hr. lia.
Qed.

Lemma getLeastImportantItem_bounds_witness :
  1 <= nummeasurementlist store_two_samples <= MAX_MEASUREMENTS /\
  0 <= getLeastImportantItem 100 store_two_samples < nummeasurementlist store_two_samples.
Proof.
  assert (1 <= nummeasurementlist store_two_samples <= MAX_MEASUREMENTS) as Hn
    by (vm_compute; split; discriminate).
  split; [exact Hn |].
  exact (proj1 (proj2 (getLeastImportantItem_bounds 100 store_two_samples) Hn)).
Defined.

(** ** Adding a sample and asking again *)

(** X19.  Adding a sample that fails the window test of a query to a
    store that is not full does not change the answer to that query. *)
Theorem getWind_after_sample_out_of_window (Time alt : float) (T : float)
    (v : Vector) (a : float) (q : Z) (s : WindMeasurementList) :
  nummeasurementlist s <> MAX_MEASUREMENTS ->
  in_range (double_to_int Time) alt (new_measurement T v a q) = false ->
  getWind Time alt (addMeasurement T v a q s) = getWind Time alt s.
Proof.
  intros Hn Hout.
  pose proof (addMeasurement_not_full T v a q s Hn) as E.
  destruct (addMeasurement T v a q s) as [l']. destruct s as [l].
  cbn [measurementlist] in E. subst l'.
  rewrite (getWind_skip Time alt l [] _ Hout), app_nil_r. reflexivity.
Qed.

Lemma getWind_after_sample_out_of_window_witness :
  nummeasurementlist store_two_samples <> MAX_MEASUREMENTS /\
  in_range (double_to_int 100) 600 (new_measurement 100 unit_wind 1600 5) = false /\
  getWind 100 600 (addMeasurement 100 unit_wind 1600 5 store_two_samples) =
  getWind 100 600 store_two_samples.
Proof.
  assert (nummeasurementlist store_two_samples <> MAX_MEASUREMENTS) as Hn
    by (vm_compute; discriminate).
  assert (in_range (double_to_int 100) 600 (new_measurement 100 unit_wind 1600 5) = false)
    as Hout by (vm_compute; reflexivity).
  split; [exact Hn |]. split; [exact Hout |].
  exact (getWind_after_sample_out_of_window 100 600 100 unit_wind 1600 5
           store_two_samples Hn Hout).
Defined.

Lemma total_weight_ge_elem (now : Z) (alt : float) (l : list WindMeasurement)
    (m : WindMeasurement) :
  m ∈ l -> in_range now alt m = true ->
  sample_quality now alt m <= total_weight now alt l.
Proof.
  intros Hin Hr. unfold total_weight, contributing.
  induction Hin as [m l | m m' l Hin IH].
  - simpl. rewrite Hr. simpl.
    pose proof (total_weight_nonneg now alt l) as H0.
    unfold total_weight, contributing in H0. lia.
  - specialize (IH Hr). simpl. destruct (in_range now alt m'); simpl; [| exact IH].
    pose proof (sample_quality_range now alt m'). lia.
Qed.

(** X20.  After a sample of quality 1 to 5 is added at a finite altitude
    to a store within its capacity whose qualities lie between 0 and 5,
    the query at the same time and altitude gives that sample the weight
    400,000 times its quality and returns [found = true]. *)
Theorem added_sample_is_found (Time : float) (v : Vector) (alt : float) (q : Z)
    (s : WindMeasurementList) :
  is_finite alt = true ->
  1 <= q <= 5 ->
  nummeasurementlist s <= MAX_MEASUREMENTS ->
  Forall (fun m => 0 <= quality m <= 5) (measurementlist s) ->
  let now := double_to_int Time in
  let s' := addMeasurement Time v alt q s in
  sample_quality now alt (new_measurement Time v alt q) = 400000 * q /\
  400000 * q <= total_weight now alt (measurementlist s') < 2 ^ 31 /\
  snd (getWind Time alt s') = true.
Proof.
  intros Hfin Hq Hn Hall now s'.
  set (m0 := new_measurement Time v alt q).
  destruct (weights_at_distance_zero now alt m0 Hfin eq_refl eq_refl)
    as (Hin & Ha & Ht).
  assert (sample_quality now alt m0 = 400000 * q) as Hw.
  { destruct (sample_quality_product now alt m0 Hin) as [_ ->];
      [cbn [quality m0 new_measurement]; lia |].
    rewrite Ha, Ht. cbn [quality m0 new_measurement]. lia. }
  assert (m0 ∈ measurementlist s') as Hm0.
  { apply list_elem_of_lookup.
    exists (Z.to_nat (insert_index Time s)).
    apply addMeasurement_lookup. exact Hn. }
  assert (nummeasurementlist s' <= MAX_MEASUREMENTS) as Hn'.
  { unfold s'.
    destruct (Z.eq_dec (nummeasurementlist s) MAX_MEASUREMENTS) as [E | E].
    - rewrite nummeasurementlist_addMeasurement_full by exact E. lia.
    - rewrite nummeasurementlist_addMeasurement_not_full by exact E. lia. }
  assert (Forall (fun m => 0 <= quality m <= 5) (measurementlist s')) as Hall'.
  { unfold s'.
    destruct (Z.eq_dec (nummeasurementlist s) MAX_MEASUREMENTS) as [E | E].
    - rewrite addMeasurement_full by exact E.
      apply Forall_insert; [exact Hall | cbn [quality new_measurement]; lia].
    - rewrite addMeasurement_not_full by exact E.
      apply Forall_app. split; [exact Hall |].
      constructor; [cbn [quality new_measurement]; lia | constructor]. }
  pose proof (total_weight_capacity now alt s' Hn' Hall') as Hup.
  pose proof (total_weight_ge_elem now alt _ m0 Hm0 Hin) as Hlow.
  rewrite Hw in Hlow.
  split; [exact Hw |]. split; [split; assumption |].
  rewrite getWind_found. fold now.
  rewrite uint_wrap_small by (change (2 ^ 32) with (2 * 2 ^ 31); lia).
  apply Z.ltb_lt. lia.
Qed.

Lemma added_sample_is_found_witness :
  is_finite 650 = true /\
  1 <= 5 <= 5 /\
  nummeasurementlist store_two_samples <= MAX_MEASUREMENTS /\
  Forall (fun m => 0 <= quality m <= 5) (measurementlist store_two_samples) /\
  snd (getWind 70 650 (addMeasurement 70 unit_wind 650 5 store_two_samples)) = true.
Proof.
  assert (is_finite 650 = true) as Hfin by (vm_compute; reflexivity).
  assert (1 <= 5 <= 5) as Hq by lia.
  assert (nummeasurementlist store_two_samples <= MAX_MEASUREMENTS) as Hn
    by (vm_compute; discriminate).
  assert (Forall (fun m => 0 <= quality m <= 5) (measurementlist store_two_samples))
    as Hall by (vm_compute; repeat constructor; discriminate).
  split; [exact Hfin |]. split; [exact Hq |]. split; [exact Hn |].
  split; [exact Hall |].
  exact (proj2 (proj2 (added_sample_is_found 70 unit_wind 650 5 store_two_samples
                         Hfin Hq Hn Hall))).
Defined.

(** ** A total weight of 2^31 and more *)

(** X21.  When the total weight, kept in an [unsigned int], is 2^31 or
    more, [getWind] returns [found = true] and divides the sums by
    [(int)total_quality], the total minus 2^32, a negative number. *)
Theorem getWind_negative_divisor (Time alt : float) (s : WindMeasurementList) :
  let now := double_to_int Time in
  let l := measurementlist s in
  let T := total_weight now alt l mod 2 ^ 32 in
  2 ^ 31 <= T ->
  T - 2 ^ 32 < 0 /\
  getWind Time alt s =
  ({| x := (weighted_sum x now alt l / double_of_Z (T - 2 ^ 32))%float;
      y := (weighted_sum y now alt l / double_of_Z (T - 2 ^ 32))%float |}, true).
Proof.
  intros now l T HT.
  assert (0 <= T < 2 ^ 32) as Hr by (apply Z.mod_pos_bound; reflexivity).
  split; [lia |].
  rewrite getWind_unfold. fold now. fold l. unfold uint_wrap. fold T.
  assert (2 ^ 32 = 2 * 2 ^ 31) as E32 by reflexivity.
  destruct (Z.ltb_spec 0 T) as [_ | Hneg]; [| lia].
  assert (int_wrap T = T - 2 ^ 32) as ->; [| reflexivity].
  unfold int_wrap.
  replace (T + 2 ^ 31) with ((T - 2 ^ 31) + 1 * 2 ^ 32) by lia.
  rewrite Z.mod_add by discriminate.
  rewrite Z.mod_small by lia. lia.
Qed.

Lemma getWind_negative_divisor_witness :
  2 ^ 31 <= total_weight (double_to_int 0) 0 [sample_huge_quality] mod 2 ^ 32 /\
  getWind 0 0 {| measurementlist := [sample_huge_quality] |} =
  ({| x := (4000000000 / -294967296)%float; y := (0 / -294967296)%float |}, true).
Proof.
  assert (2 ^ 31 <= total_weight (double_to_int 0) 0 [sample_huge_quality] mod 2 ^ 32)
    as H by (vm_compute; discriminate).
  split; [exact H |].
  rewrite (proj2 (getWind_negative_divisor 0 0
                    {| measurementlist := [sample_huge_quality] |} H)).
  vm_compute. reflexivity.
Defined.

(** ** The store keeps the most recent samples *)

Lemma insert_Permutation (l : list WindMeasurement) (j : nat) (w : WindMeasurement) :
  (j < length l)%nat -> <[j := w]> l ≡ₚ w :: delete j l.
Proof.
  intros H. rewrite insert_take_drop by exact H.
  rewrite delete_take_drop. symmetry. apply Permutation_middle.
Qed.

Lemma whole_call_measurement (q : Z) (c : Z * Vector * float) :
  INT_MIN <= c.1.1 <= INT_MAX ->
  time (call_measurement (whole_call q c)) = c.1.1 /\
  quality (call_measurement (whole_call q c)) = q.
Proof.
  intros H. split; [| reflexivity].
  unfold call_measurement, whole_call, new_measurement, double_to_long. simpl.
  apply double_to_int_double_of_Z. exact H.
Qed.

(** The calls at every tick have increasing times. *)
Lemma calls_every_tick_lookup (n i : nat) (c : Z * Vector * float) :
  calls_every_tick n !! i = Some c -> c.1.1 = Z.of_nat (1 + i) /\ (i < n)%nat.
Proof.
  unfold calls_every_tick.
  change (List.map ?f ?l) with (f <$> l).
  rewrite list_lookup_fmap. intros H.
  destruct (seq 1 n !! i) as [k |] eqn:E; [| discriminate].
  apply lookup_seq in E as [-> Hi]. injection H as <-. split; [reflexivity | exact Hi].
Qed.

Lemma calls_every_tick_increasing (n : nat) : increasing_times (calls_every_tick n).
Proof.
  intros i j ci cj Hij Hi Hj.
  apply calls_every_tick_lookup in Hi as [-> _].
  apply calls_every_tick_lookup in Hj as [-> _]. lia.
Qed.

Lemma calls_every_tick_bounds (n : nat) :
  (n <= 1000)%nat ->
  Forall (fun c : Z * Vector * float => 0 <= c.1.1 <= 2000000000) (calls_every_tick n).
Proof.
  intros Hn. apply Forall_lookup. intros i c Hc.
  apply calls_every_tick_lookup in Hc as [-> Hi]. lia.
Qed.

(** X22.  When the calls of [addMeasurement] on a new store come at whole
    times that increase strictly (between 0 and 2,000,000,000) and with
    one quality between 0 and 5, every call on the full store evicts the
    oldest sample: after the calls the store holds exactly the samples
    of the last 200 calls (of all the calls, when they are fewer). *)
Theorem store_keeps_most_recent (q : Z) (cs : list (Z * Vector * float)) :
  0 <= q <= 5 ->
  increasing_times cs ->
  Forall (fun c => 0 <= c.1.1 <= 2000000000) cs ->
  measurementlist (run (List.map (whole_call q) cs)) ≡ₚ
  List.map (fun c => call_measurement (whole_call q c)) (drop (length cs - 200) cs).
Proof.
  intros Hq. set (g := fun c => call_measurement (whole_call q c)).
  induction cs as [| c cs IH] using rev_ind; intros Hinc Hall; [reflexivity |].
  apply Forall_app in Hall as [Hall Hc]. apply List.Forall_inv in Hc.
  cbv beta in Hc.
  assert (increasing_times cs) as Hinc'.
  { intros i j ci cj Hij Hi Hj.
    apply (Hinc i j ci cj Hij); apply lookup_app_l_Some; assumption. }
  assert (forall i ci, cs !! i = Some ci -> ci.1.1 < c.1.1) as Hlast.
  { intros i ci Hi. apply (Hinc i (length cs) ci c).
    - apply (lookup_lt_Some _ _ _ Hi).
    - apply lookup_app_l_Some. exact Hi.
    - rewrite lookup_app_r by lia. rewrite Nat.sub_diag. reflexivity. }
  specialize (IH Hinc' Hall).
  rewrite List.map_app. cbn [List.map]. rewrite run_snoc. unfold do_call.
  set (s := run (List.map (whole_call q) cs)) in *.
  pose proof (run_count (List.map (whole_call q) cs)) as Hcount.
  rewrite length_map in Hcount. fold s in Hcount.
  rewrite length_app. cbn [length].
  change (addMeasurement (call_Time (whole_call q c)) (call_vector (whole_call q c))
            (call_alt (whole_call q c)) (call_quality (whole_call q c)) s)
    with (addMeasurement (double_of_Z c.1.1) c.1.2 c.2 q s).
  change (new_measurement (double_of_Z c.1.1) c.1.2 c.2 q) with (g c) in *.
  destruct (Nat.lt_ge_cases (length cs) 200) as [Hsmall | Hbig].
  - (* the store is not full *)
    rewrite addMeasurement_not_full by (unfold MAX_MEASUREMENTS in *; lia).
    replace (length cs + 1 - 200)%nat with 0%nat by lia.
    replace (length cs - 200)%nat with 0%nat in IH by lia.
    rewrite !drop_0 in *. rewrite List.map_app. cbn [List.map].
    rewrite IH. reflexivity.
  - (* the store is full *)
    assert (nummeasurementlist s = MAX_MEASUREMENTS) as Hfull
      by (unfold MAX_MEASUREMENTS in *; lia).
    rewrite addMeasurement_full by exact Hfull.
    set (k := (length cs - 200)%nat) in *.
    destruct (lookup_lt_is_Some_2 cs k ltac:(unfold k; lia)) as [c_old Hold].
    rewrite (drop_S cs c_old k Hold) in IH. cbn [List.map] in IH.
    replace (length cs + 1 - 200)%nat with (S k) by (unfold k; lia).
    rewrite drop_app_le by (unfold k; lia).
    rewrite List.map_app. cbn [List.map].
    set (rest := drop (S k) cs) in *.
    (* the stored samples are scored in integers *)
    assert (forall m, m ∈ measurementlist s ->
              exists i ci, (k <= i)%nat /\ cs !! i = Some ci /\ m = g ci) as Hfrom.
    { intros m Hm. rewrite IH in Hm.
      apply elem_of_cons in Hm as [-> | Hm]; [exists k, c_old; auto |].
      apply list_elem_of_In, List.in_map_iff in Hm as (ci & <- & Hci).
      apply list_elem_of_In, list_elem_of_lookup in Hci as [i Hi].
      unfold rest in Hi. rewrite lookup_drop in Hi.
      exists (S k + i)%nat, ci. split; [lia | split; [exact Hi | reflexivity]]. }
    assert (forall i ci, cs !! i = Some ci ->
              time (g ci) = ci.1.1 /\ quality (g ci) = q /\ 0 <= ci.1.1 < c.1.1)
      as Hfields.
    { intros i ci Hi.
      pose proof (proj1 (Forall_lookup _ _) Hall i ci Hi) as Hr. simpl in Hr.
      destruct (whole_call_measurement q ci) as [Et Eq];
        [unfold INT_MIN, INT_MAX; lia |].
      split; [exact Et |]. split; [exact Eq |].
      pose proof (Hlast i ci Hi). lia. }
    assert (Forall (scored_in_int c.1.1) (measurementlist s)) as Hscored.
    { apply Forall_forall. intros m Hm.
      destruct (Hfrom m Hm) as (i & ci & _ & Hi & ->).
      destruct (Hfields i ci Hi) as (Et & Eq & Hti).
      unfold scored_in_int, whole_score. rewrite Et, Eq.
      unfold INT_MAX. lia. }
    destruct (getLeastImportantItem_whole c.1.1 s
                ltac:(rewrite Hfull; unfold MAX_MEASUREMENTS; lia)
                ltac:(unfold INT_MAX; lia) Hscored)
      as (_ & j & mj & -> & Hmj & Hmax & _).
    rewrite Nat2Z.id.
    (* the sample evicted is the oldest one *)
    assert (mj = g c_old) as Emj.
    { destruct (Hfrom mj (list_elem_of_lookup_2 _ _ _ Hmj)) as (i & ci & Hki & Hi & ->).
      destruct (decide (i = k)) as [-> | Hne].
      { rewrite Hold in Hi. injection Hi as <-. reflexivity. }
      exfalso.
      assert (g c_old ∈ measurementlist s) as Hin
        by (rewrite IH; apply list_elem_of_here).
      apply list_elem_of_lookup in Hin as [io Hio].
      pose proof (Hmax io (g c_old) Hio) as Hle.
      destruct (Hfields i ci Hi) as (Et & Eq & _).
      destruct (Hfields k c_old Hold) as (Et' & Eq' & _).
      unfold whole_score in Hle. rewrite Et, Eq, Et', Eq' in Hle.
      pose proof (Hinc' k i c_old ci ltac:(lia) Hold Hi). lia. }
    subst mj.
    rewrite insert_Permutation by (apply (lookup_lt_Some _ _ _ Hmj)).
    assert (delete j (measurementlist s) ≡ₚ List.map g rest) as Hdel.
    { apply (Permutation_cons_inv (a := g c_old)).
      rewrite <- (delete_Permutation _ _ _ Hmj). exact IH. }
    rewrite Hdel. apply Permutation_cons_append.
Qed.

Lemma store_keeps_most_recent_witness :
  0 <= 3 <= 5 /\
  increasing_times (calls_every_tick 205) /\
  Forall (fun c : Z * Vector * float => 0 <= c.1.1 <= 2000000000)
         (calls_every_tick 205) /\
  length (calls_every_tick 205) = 205%nat /\
  measurementlist (run (List.map (whole_call 3) (calls_every_tick 205))) ≡ₚ
  List.map (fun i => call_measurement (whole_call 3 (Z.of_nat i, unit_wind, 500%float)))
           (seq 6 200) /\
  Forall (fun m => 6 <= time m <= 205)
         (measurementlist (run (List.map (whole_call 3) (calls_every_tick 205)))).
Proof.
  assert (0 <= 3 <= 5) as Hq by lia.
  pose proof (calls_every_tick_increasing 205) as Hinc.
  assert (Forall (fun c : Z * Vector * float => 0 <= c.1.1 <= 2000000000)
                 (calls_every_tick 205)) as Hall
    by (apply calls_every_tick_bounds; lia).
  pose proof (store_keeps_most_recent 3 (calls_every_tick 205) Hq Hinc Hall) as Hperm.
  change (List.map (fun c => call_measurement (whole_call 3 c))
                   (drop (length (calls_every_tick 205) - 200) (calls_every_tick 205)))
    with (List.map (fun i => call_measurement
                               (whole_call 3 (Z.of_nat i, unit_wind, 500%float)))
                   (seq 6 200)) in Hperm.
  split; [exact Hq |]. split; [exact Hinc |]. split; [exact Hall |].
  split; [reflexivity |]. split; [exact Hperm |].
  apply (Permutation_Forall (Permutation_sym Hperm)).
  apply Forall_forall. intros m Hm.
  apply list_elem_of_In, List.in_map_iff in Hm as (i & <- & Hi).
  apply List.in_seq in Hi.
  destruct (whole_call_measurement 3 (Z.of_nat i, unit_wind, 500%float)) as [-> _].
  - unfold INT_MIN, INT_MAX. cbn. lia.
  - cbn. lia.
Defined.

(** ** Bounds for the altitude weight *)

(** *** More bounds on the operations *)

Lemma SFleb_val (m1 : positive) (e1 : Z) (m2 : positive) (e2 : Z) :
  valid (S754_finite false m1 e1) = true ->
  valid (S754_finite false m2 e2) = true ->
  SFleb (S754_finite false m1 e1) (S754_finite false m2 e2) = true ->
  val (Zpos m1) e1 <= val (Zpos m2) e2.
Proof.
  intros V1 V2 H.
  destruct (SFltb (S754_finite false m1 e1) (S754_finite false m2 e2)) eqn:C.
  - apply SFltb_val; assumption.
  - unfold SFleb in H. unfold SFltb in C.
    destruct (SFcompare (S754_finite false m1 e1) (S754_finite false m2 e2))
      as [[| |] |] eqn:E; try discriminate.
    unfold SFcompare in E.
    change (IntDef.Z.compare e1 e2) with (Z.compare e1 e2) in E.
    change (PosDef.Pos.compare_cont Eq m1 m2) with (Pos.compare m1 m2) in E.
    destruct (Z.compare_spec e1 e2) as [-> | Hlt | Hgt]; try discriminate.
    destruct (Pos.compare_spec m1 m2) as [-> | Hlt | Hgt]; try discriminate.
    apply Z.le_refl.
Qed.

(** A product [x * y] with [x * y <= C], computed at an exponent that is
    at most the one of [C]. *)
Lemma SFmul_up (x y : spec_float) (Mc Ec : Z) :
  valid x = true -> valid y = true -> SFnonneg x -> SFnonneg y ->
  0 < Mc < 2 ^ 53 -> -1074 <= Ec <= 971 ->
  (forall mx ex my ey, x = S754_finite false mx ex -> y = S754_finite false my ey ->
                       ex + ey <= Ec) ->
  SFval x * SFval y <= val Mc Ec * 2 ^ 1074 ->
  SFnonneg (SF64mul x y) /\ SFval (SF64mul x y) <= val Mc Ec.
Proof.
  intros Vx Vy Nx Ny HMc HEc Hexp H.
  assert (0 <= val Mc Ec) as HC by (apply val_nonneg; lia).
  destruct Nx as [-> | (mx & ex & ->)], Ny as [-> | (my & ey & ->)];
    try (split; [left; reflexivity | exact HC]).
  simpl in H. specialize (Hexp mx ex my ey eq_refl eq_refl).
  destruct (valid_finite _ _ _ Vx) as (Hex & _ & _).
  destruct (valid_finite _ _ _ Vy) as (Hey & _ & _).
  unfold SF64mul, SFmul. simpl xorb.
  assert (Zpos (mx * my) <= Mc * 2 ^ (Ec - (ex + ey))) as Hm.
  { unfold val in H.
    pose proof (pow2_pos (ex + ey + 2148) ltac:(lia)) as Hp.
    apply (Z.mul_le_mono_pos_r _ _ (2 ^ (ex + ey + 2148)) Hp).
    assert (Mc * 2 ^ (Ec - (ex + ey)) * 2 ^ (ex + ey + 2148) =
            Mc * 2 ^ (Ec + 1074) * 2 ^ 1074) as ->.
    { rewrite <- !Z.mul_assoc, <- !Z.pow_add_r by lia. do 2 f_equal. lia. }
    assert (Zpos (mx * my) * 2 ^ (ex + ey + 2148) =
            Zpos mx * 2 ^ (ex + 1074) * (Zpos my * 2 ^ (ey + 1074))) as ->.
    { rewrite Pos2Z.inj_mul.
      replace (ex + ey + 2148) with (ex + 1074 + (ey + 1074)) by lia.
      rewrite (Z.pow_add_r 2 (ex + 1074) (ey + 1074)) by lia. ring. }
    exact H. }
  destruct (round_up false (Zpos (mx * my)) (ex + ey) loc_Exact Mc Ec
              ltac:(lia) Hexp HEc HMc Hm)
    as [-> | (q & e3 & -> & He3 & Hv)].
  - split; [left; reflexivity | exact HC].
  - split; [right; exists q, e3; reflexivity | exact Hv].
Qed.

(** A product [x * y] with [C <= x * y]. *)
Lemma SFmul_low (mx : positive) (ex : Z) (my : positive) (ey : Z) (Mc Ec : Z) :
  valid (S754_finite false mx ex) = true ->
  valid (S754_finite false my ey) = true ->
  0 < Mc < 2 ^ 53 -> -1074 <= Ec -> ex + ey <= Ec ->
  val Mc Ec * 2 ^ 1074 <= val (Zpos mx) ex * val (Zpos my) ey ->
  SF64mul (S754_finite false mx ex) (S754_finite false my ey) = S754_infinity false \/
  exists q e3,
    SF64mul (S754_finite false mx ex) (S754_finite false my ey) = S754_finite false q e3 /\
    val Mc Ec <= val (Zpos q) e3.
Proof.
  intros Vx Vy HMc HEc Hexp H.
  destruct (valid_finite _ _ _ Vx) as (Hex & _ & _).
  destruct (valid_finite _ _ _ Vy) as (Hey & _ & _).
  unfold SF64mul, SFmul. simpl xorb.
  assert (Mc * 2 ^ (Ec - (ex + ey)) <= Zpos (mx * my)) as Hm.
  { unfold val in H.
    pose proof (pow2_pos (ex + ey + 2148) ltac:(lia)) as Hp.
    apply (Z.mul_le_mono_pos_r _ _ (2 ^ (ex + ey + 2148)) Hp).
    assert (Mc * 2 ^ (Ec - (ex + ey)) * 2 ^ (ex + ey + 2148) =
            Mc * 2 ^ (Ec + 1074) * 2 ^ 1074) as ->.
    { rewrite <- !Z.mul_assoc, <- !Z.pow_add_r by lia. do 2 f_equal. lia. }
    assert (Zpos (mx * my) * 2 ^ (ex + ey + 2148) =
            Zpos mx * 2 ^ (ex + 1074) * (Zpos my * 2 ^ (ey + 1074))) as ->.
    { rewrite Pos2Z.inj_mul.
      replace (ex + ey + 2148) with (ex + 1074 + (ey + 1074)) by lia.
      rewrite (Z.pow_add_r 2 (ex + 1074) (ey + 1074)) by lia. ring. }
    exact H. }
  destruct (round_low false (Zpos (mx * my)) (ex + ey) loc_Exact Mc Ec
              ltac:(lia) Hexp HEc HMc Hm)
    as [-> | (q & e3 & -> & He3 & Hv)].
  - left. reflexivity.
  - right. exists q, e3. split; [reflexivity | exact Hv].
Qed.

(** A sum [x + y] with [x + y <= C]. *)
Lemma SFadd_up (x : spec_float) (my : positive) (ey : Z) (Mc Ec : Z) :
  valid x = true -> valid (S754_finite false my ey) = true -> SFnonneg x ->
  0 < Mc < 2 ^ 53 -> -1074 <= Ec <= 971 -> ey <= Ec ->
  SFval x + val (Zpos my) ey <= val Mc Ec ->
  SFnonneg (SF64add x (S754_finite false my ey)) /\
  SFval (SF64add x (S754_finite false my ey)) <= val Mc Ec.
Proof.
  intros Vx Vy Nx HMc HEc Hey H.
  destruct (valid_finite _ _ _ Vy) as (Hey0 & _ & _).
  destruct Nx as [-> | (mx & ex & ->)].
  - simpl in *. split; [right; exists my, ey; reflexivity | lia].
  - simpl in H. destruct (valid_finite _ _ _ Vx) as (Hex & _ & _).
    unfold SF64add, SFadd. cbv zeta.
    set (ez := Z.min ex ey) in *.
    destruct (shl_align_fst mx ex ez ltac:(unfold ez; lia)) as [-> _].
    destruct (shl_align_fst my ey ez ltac:(unfold ez; lia)) as [-> _].
    unfold cond_Zopp.
    assert (-1074 <= ez) as Hez by (unfold ez; lia).
    rewrite <- (val_aligned (Zpos mx) ex ez) in H by (unfold ez; lia).
    rewrite <- (val_aligned (Zpos my) ey ez) in H by (unfold ez; lia).
    set (X := Zpos mx * 2 ^ (ex - ez)) in *.
    set (Y := Zpos my * 2 ^ (ey - ez)) in *.
    pose proof (pow2_pos (ex - ez) ltac:(unfold ez; lia)) as Hp1.
    pose proof (pow2_pos (ey - ez) ltac:(unfold ez; lia)) as Hp2.
    assert (0 <= X + Y) as HS0 by (unfold X, Y; nia).
    assert (X + Y <= Mc * 2 ^ (Ec - ez)) as HSu.
    { apply scaled_le_val; [unfold ez; lia |]. unfold val in *. lia. }
    apply (binary_normalize_up (X + Y) ez Mc Ec HS0 ltac:(unfold ez; lia) HEc HMc HSu).
Qed.

(** Rounding a double of at least one half to the nearest integer. *)
Lemma iround_ge_one (d : float) (c : Z) :
  fnonneg d -> 0 <= c <= INT_MAX -> fval d <= c * 2 ^ 1074 ->
  2 ^ 1073 <= fval d ->
  1 <= iround d <= c.
Proof.
  intros Nd Hc Hup Hlow.
  pose proof (iround_bounds d c Nd Hc Hup) as [H0 Hle]. split; [| exact Hle].
  pose proof (Prim2SF_valid d) as V.
  unfold iround, fval, fnonneg in *.
  pose proof (pow2_pos 1073 ltac:(lia)) as H1073.
  destruct Nd as [E | (m & e & E)]; rewrite E in *.
  { change (SFval (S754_zero false)) with 0 in Hlow. lia. }
  change (SFval (S754_finite false m e)) with (val (Zpos m) e) in Hlow.
  destruct (valid_finite _ _ _ V) as (He & _ & _).
  assert (exists z, SFnearest (S754_finite false m e) = Some z /\ 1 <= z) as (z & Ez & Hz).
  { unfold SFnearest, val in *.
    destruct e as [| p | p].
    - eexists. split; [reflexivity |]. rewrite Z.shiftl_0_r. lia.
    - eexists. split; [reflexivity |].
      rewrite Z.shiftl_mul_pow2 by lia.
      pose proof (pow2_pos (Zpos p) ltac:(lia)). nia.
    - eexists. split; [reflexivity |].
      rewrite Z.shiftr_div_pow2 by lia.
      pose proof (pow2_pos (Zpos p) ltac:(lia)) as Hp.
      pose proof (pow2_pos (Zpos p + 1) ltac:(lia)) as Hp1.
      apply Z.div_le_lower_bound; [lia |].
      rewrite Z.mul_1_r, Z.pow_add_r by lia. change (2 ^ 1) with 2.
      (* 2^(p-1) <= m *)
      assert (2 ^ 1073 = 2 ^ (Zpos p - 1) * 2 ^ (Zneg p + 1074)) as E1.
      { rewrite <- Z.pow_add_r by lia. f_equal. lia. }
      rewrite E1 in Hlow.
      pose proof (pow2_pos (Zneg p + 1074) ltac:(lia)) as Hq.
      apply Z.mul_le_mono_pos_r in Hlow; [| exact Hq].
      assert (2 ^ Zpos p = 2 * 2 ^ (Zpos p - 1)) as E2.
      { replace (Zpos p) with (Z.succ (Zpos p - 1)) at 1 by lia.
        apply Z.pow_succ_r. lia. }
      lia. }
  rewrite Ez in *.
  destruct ((INT_MIN <=? z) && (z <=? INT_MAX)); [exact Hz |].
  exfalso. apply H0. reflexivity.
Qed.

(** A sum [x + y] with [C <= x + y]. *)
Lemma SFadd_low (mx : positive) (ex : Z) (my : positive) (ey : Z) (Mc Ec : Z) :
  valid (S754_finite false mx ex) = true ->
  valid (S754_finite false my ey) = true ->
  0 < Mc < 2 ^ 53 -> -1074 <= Ec -> Z.min ex ey <= Ec ->
  val Mc Ec <= val (Zpos mx) ex + val (Zpos my) ey ->
  SF64add (S754_finite false mx ex) (S754_finite false my ey) = S754_infinity false \/
  exists q e3,
    SF64add (S754_finite false mx ex) (S754_finite false my ey) = S754_finite false q e3 /\
    val Mc Ec <= val (Zpos q) e3.
Proof.
  intros Vx Vy HMc HEc Hexp H.
  destruct (valid_finite _ _ _ Vx) as (Hex & _ & _).
  destruct (valid_finite _ _ _ Vy) as (Hey & _ & _).
  unfold SF64add, SFadd. cbv zeta.
  set (ez := Z.min ex ey) in *.
  destruct (shl_align_fst mx ex ez ltac:(unfold ez; lia)) as [-> _].
  destruct (shl_align_fst my ey ez ltac:(unfold ez; lia)) as [-> _].
  unfold cond_Zopp.
  assert (-1074 <= ez) as Hez by (unfold ez; lia).
  rewrite <- (val_aligned (Zpos mx) ex ez) in H by (unfold ez; lia).
  rewrite <- (val_aligned (Zpos my) ey ez) in H by (unfold ez; lia).
  set (X := Zpos mx * 2 ^ (ex - ez)) in *.
  set (Y := Zpos my * 2 ^ (ey - ez)) in *.
  assert (Mc * 2 ^ (Ec - ez) <= X + Y) as HSl.
  { apply scaled_ge_val; [lia |]. unfold val in *. lia. }
  apply (binary_normalize_low (X + Y) ez Mc Ec Hexp HEc HMc HSl).
Qed.

(** Rounding a double below one half to the nearest integer. *)
Lemma iround_zero (d : float) :
  fnonneg d -> fval d < 2 ^ 1073 -> iround d = 0.
Proof.
  intros Nd Hup.
  pose proof (Prim2SF_valid d) as V.
  unfold iround, fval, fnonneg in *.
  destruct Nd as [E | (m & e & E)]; rewrite E in *; [reflexivity |].
  change (SFval (S754_finite false m e)) with (val (Zpos m) e) in Hup.
  destruct (valid_finite _ _ _ V) as (He & _ & _).
  assert (SFnearest (S754_finite false m e) = Some 0) as ->; [| reflexivity].
  unfold SFnearest, val in *.
  assert (e < -1) as Hneg.
  { destruct (Z.lt_ge_cases e (-1)) as [| Hge]; [assumption | exfalso].
    assert (2 ^ 1073 <= 2 ^ (e + 1074)) by (apply pow2_le; lia).
    assert (2 ^ (e + 1074) <= Zpos m * 2 ^ (e + 1074)); [| lia].
    pose proof (pow2_pos (e + 1074) ltac:(lia)). nia. }
  destruct e as [| p | p]; try lia.
  f_equal. rewrite Z.shiftr_div_pow2 by lia.
  pose proof (pow2_pos (Zpos p) ltac:(lia)) as Hp.
  apply Z.div_small. split; [lia |].
  rewrite Z.pow_add_r by lia. change (2 ^ 1) with 2.
  (* m < 2^(p-1) *)
  assert (2 ^ 1073 = 2 ^ (Zpos p - 1) * 2 ^ (Zneg p + 1074)) as E1.
  { rewrite <- Z.pow_add_r by lia. f_equal. lia. }
  rewrite E1 in Hup.
  pose proof (pow2_pos (Zneg p + 1074) ltac:(lia)) as Hq.
  apply Z.mul_lt_mono_pos_r in Hup; [| exact Hq].
  assert (2 ^ Zpos p = 2 * 2 ^ (Zpos p - 1)) as E2.
  { replace (Zpos p) with (Z.succ (Zpos p - 1)) at 1 by lia.
    apply Z.pow_succ_r. lia. }
  lia.
Qed.

(** A valid double of value at least [2^52 * 2^E] has an exponent of at
    least [E]. *)
Lemma valid_ge_scaled (s : bool) (m : positive) (e E : Z) :
  valid (S754_finite s m e) = true -> -1074 <= E ->
  val (2 ^ 52) E <= val (Zpos m) e -> E <= e.
Proof.
  intros V HE H. destruct (valid_finite _ _ _ V) as (He & Hm & _).
  destruct (Z.le_gt_cases E e) as [| Hlt]; [assumption | exfalso].
  assert (-1074 <= e <= E) as Hr by lia.
  pose proof (scaled_ge_val _ _ _ _ Hr H) as Hs.
  assert (2 ^ 1 <= 2 ^ (E - e)) as Hp by (apply pow2_le; lia).
  change (2 ^ 1) with 2 in Hp. change (2 ^ 53) with (2 ^ 52 * 2) in Hm.
  pose proof two52_range as [H52 _].
  assert (2 ^ 52 * 2 <= 2 ^ 52 * 2 ^ (E - e)); [| lia].
  apply Z.mul_le_mono_nonneg_l; lia.
Qed.

(** *** The altitude weight near and far from the query *)

(** Bounds in units of 2^-20: [c / 2^20] is [c * 2^32 * 2^-52]. *)
Lemma val_unit (c : Z) : val (c * 2 ^ 32) (-52) = c * 2 ^ 1054.
Proof.
  unfold val. change (-52 + 1074) with 1022.
  rewrite <- Z.mul_assoc, <- Z.pow_add_r by lia. reflexivity.
Qed.

Lemma pow_1074_unit : 2 ^ 1074 = 1048576 * 2 ^ 1054.
Proof. change 1074 with (20 + 1054). rewrite Z.pow_add_r by lia. reflexivity. Qed.

Lemma pow_1073_unit : 2 ^ 1073 = 524288 * 2 ^ 1054.
Proof. change 1073 with (19 + 1054). rewrite Z.pow_add_r by lia. reflexivity. Qed.

Lemma unit_range (c : Z) : 0 < c < 2097152 -> 0 < c * 2 ^ 32 < 2 ^ 53.
Proof.
  intros Hc. change (2 ^ 53) with (2097152 * 2 ^ 32).
  pose proof (pow2_pos 32 ltac:(lia)). nia.
Qed.

(** The exponent at which [2 / s] is computed for [1 <= s <= 2]. *)
Lemma div_exponent_two (q : positive) (e3 : Z) :
  valid (S754_finite false q e3) = true ->
  val (2 ^ 52) (-52) <= val (Zpos q) e3 <= val (2 ^ 52) (-51) ->
  div_exponent M_one (-51) q e3 <= -52.
Proof.
  intros Vs [Hs1 Hs2].
  pose proof (valid_ge_one _ _ _ Vs Hs1) as Hlo.
  assert (-1074 <= -51) as H51 by lia.
  destruct (valid_le_scaled _ _ _ _ _ Vs two52_range H51 Hs2) as [Hhi _].
  assert (-1074 < e3) as Hn by lia.
  pose proof (valid_digits _ _ _ Vs Hn) as Dq.
  unfold div_exponent. rewrite Dq, fexp_eq.
  change (Zpos (digits2_pos M_one)) with 53. lia.
Qed.

(** Products of bounds in units of 2^-20. *)
Lemma unit_product_le (a b c d : Z) :
  0 <= a -> 0 <= c -> a * b <= c * d ->
  a * 2 ^ 1054 * (b * 2 ^ 1054) <= c * 2 ^ 1054 * (d * 2 ^ 1054).
Proof.
  intros Ha Hc H.
  replace (a * 2 ^ 1054 * (b * 2 ^ 1054)) with (a * b * (2 ^ 1054 * 2 ^ 1054)) by ring.
  replace (c * 2 ^ 1054 * (d * 2 ^ 1054)) with (c * d * (2 ^ 1054 * 2 ^ 1054)) by ring.
  pose proof (pow2_pos 1054 ltac:(lia)).
  apply Z.mul_le_mono_nonneg_r; [| exact H].
  apply Z.mul_nonneg_nonneg; lia.
Qed.

(** The chain of [a_quality] from an upper bound [cA] of [|altdiff|]:
    [altdiff^2 <= cP], [2 / (altdiff^2 + 1) >= cT], and the weight is at
    least 1 when [100 * (cT - 1)] is at least one half. *)
Lemma altitude_weight_lower (ad : float) (cA cP cT : Z) :
  0 <= cA -> 0 < cP < 1048576 -> 1048576 < cT ->
  cA * cA <= cP * 1048576 ->
  cT * (1048576 + cP) <= 2097152 * 1048576 ->
  524288 <= 100 * (cT - 1048576) < 2097152 ->
  fnonneg (abs ad) -> fval (abs ad) <= cA * 2 ^ 1054 ->
  1 <= iround ((2 / (ad * ad + 1) - 1) * 100)%float <= 100.
Proof.
  intros HcA HcP HcT HP HT HW NA LA.
  pose proof pow_1074_unit as E1074.
  pose proof (pow2_pos 1054 ltac:(lia)) as HU.
  pose proof (Prim2SF_valid (abs ad)) as VA.
  pose proof (Prim2SF_valid 1) as V1. rewrite Prim2SF_one in V1.
  pose proof (Prim2SF_valid 2) as V2. rewrite Prim2SF_two in V2.
  pose proof (Prim2SF_valid 100) as V100. rewrite Prim2SF_hundred in V100.
  assert (-1074 <= -52 <= 971) as R52 by lia.
  unfold fnonneg, fval in NA, LA.
  pose proof (SFval_nonneg (Prim2SF (abs ad))) as HA0.
  assert (cA <= 1048576) as HcA1 by nia.
  assert (SFval (Prim2SF (abs ad)) <= val (2 ^ 52) (-52)) as LA1.
  { change (val (2 ^ 52) (-52)) with (val (Zpos M_one) (-52)).
    rewrite val_one, E1074. nia. }
  (* p = altdiff * altdiff *)
  assert (SFnonneg (Prim2SF (ad * ad)) /\
          SFval (Prim2SF (ad * ad)) <= cP * 2 ^ 1054) as [Np Lp].
  { rewrite mul_square_abs, mul_spec, <- val_unit.
    apply SFmul_up; try assumption; [apply unit_range; lia | |].
    - intros mx ex my ey Ex Ey. rewrite Ex in VA, LA1. simpl in LA1.
      rewrite Ex in Ey. injection Ey as <- <-.
      destruct (valid_le_one _ _ _ VA LA1) as [He _]. lia.
    - rewrite val_unit, E1074.
      apply Z.le_trans with (cA * 2 ^ 1054 * (cA * 2 ^ 1054)).
      + apply Z.mul_le_mono_nonneg; lia.
      + apply unit_product_le; lia. }
  pose proof (Prim2SF_valid (ad * ad)) as Vp.
  (* s = p + 1 *)
  assert (SFval (Prim2SF (ad * ad)) <= val (2 ^ 52) (-52)) as Lp1.
  { change (val (2 ^ 52) (-52)) with (val (Zpos M_one) (-52)).
    rewrite val_one, E1074. nia. }
  assert (val (Zpos M_one) (-52) <= val (2 ^ 52) (-52)) as H11 by apply Z.le_refl.
  destruct (SFadd_const _ M_one (-52) Vp V1 Np Lp1 H11) as (q & e3 & Es & Hs).
  pose proof (Prim2SF_valid (ad * ad + 1)) as Vs.
  rewrite add_spec, Prim2SF_one, Es in Vs.
  assert (val (Zpos q) e3 <= (1048576 + cP) * 2 ^ 1054) as Hs3.
  { destruct (SFadd_up _ M_one (-52) ((1048576 + cP) * 2 ^ 32) (-52) Vp V1 Np
                ltac:(apply unit_range; lia) R52 ltac:(lia)) as [_ L].
    - rewrite val_unit, val_one, E1074. lia.
    - rewrite Es, val_unit in L. exact L. }
  (* t = 2 / s *)
  destruct (SFdiv_two q e3 Vs Hs) as (q' & e' & Et & Ht1 & Ht2).
  pose proof (Prim2SF_valid (2 / (ad * ad + 1))) as Vt.
  rewrite div_spec, add_spec, Prim2SF_two, Prim2SF_one, Es, Et in Vt.
  assert (val (Zpos q') e' <= 2 * 2 ^ 1074) as Ht2'.
  { change (val (2 ^ 52) (-51)) with (val (Zpos M_one) (-51)) in Ht2.
    rewrite val_two in Ht2. exact Ht2. }
  assert (cT < 2097152) as HcT2 by nia.
  assert (cT * 2 ^ 1054 <= val (Zpos q') e') as Ht3.
  { destruct (SFdiv_low M_one (-51) q e3 (cT * 2 ^ 32) (-52) V2 Vs
                ltac:(apply unit_range; lia) ltac:(lia) (div_exponent_two q e3 Vs Hs))
      as [Einf | (q2 & e2 & Eq2 & L)].
    - rewrite val_unit, val_two, E1074.
      apply Z.le_trans with (cT * 2 ^ 1054 * ((1048576 + cP) * 2 ^ 1054)).
      + apply Z.mul_le_mono_nonneg_l; lia.
      + replace (2 * (1048576 * 2 ^ 1054)) with (2097152 * 2 ^ 1054) by ring.
        apply unit_product_le; lia.
    - rewrite Et in Einf. discriminate.
    - rewrite Et in Eq2. injection Eq2 as <- <-.
      rewrite val_unit in L. exact L. }
  (* u = t - 1 *)
  assert (SFnonneg (S754_finite false M_one (-52))) as N1
    by (right; exists M_one, (-52); reflexivity).
  assert (SFval (S754_finite false M_one (-52)) <= val (Zpos q') e') as Hge
    by exact Ht1.
  assert (val (Zpos q') e' - SFval (S754_finite false M_one (-52)) <=
          val (2 ^ 52) (-52)) as Hdiff.
  { change (SFval (S754_finite false M_one (-52))) with (val (Zpos M_one) (-52)).
    change (val (2 ^ 52) (-52)) with (val (Zpos M_one) (-52)).
    rewrite val_one. lia. }
  assert (forall my ey, S754_finite false M_one (-52) = S754_finite false my ey ->
                        Z.min e' ey <= -52) as Hmin.
  { intros my ey E. injection E as _ <-. lia. }
  destruct (SFsub_le q' e' _ (2 ^ 52) (-52) Vt V1 N1 two52_range R52 Hge Hdiff Hmin)
    as [Nu Lu].
  assert (exists qu eu,
            SF64sub (S754_finite false q' e') (S754_finite false M_one (-52)) =
            S754_finite false qu eu /\ (cT - 1048576) * 2 ^ 1054 <= val (Zpos qu) eu)
    as (qu & eu & Eu & Hu).
  { destruct (SFsub_low q' e' M_one (-52) ((cT - 1048576) * 2 ^ 32) (-52) Vt V1
                ltac:(apply unit_range; lia) ltac:(lia) ltac:(lia))
      as [Einf | (qu & eu & Eu & L)].
    - rewrite val_unit, val_one, E1074. lia.
    - rewrite Einf in Nu. destruct Nu as [? | (? & ? & ?)]; discriminate.
    - exists qu, eu. split; [exact Eu |]. rewrite val_unit in L. exact L. }
  rewrite Eu in Lu. simpl in Lu.
  pose proof (Prim2SF_valid (2 / (ad * ad + 1) - 1)) as Vu.
  rewrite sub_spec, div_spec, add_spec, Prim2SF_two, Prim2SF_one, Es, Et, Eu in Vu.
  destruct (valid_le_one _ _ _ Vu Lu) as [Heu _].
  (* w = u * 100 *)
  assert (Prim2SF ((2 / (ad * ad + 1) - 1) * 100) =
          SF64mul (S754_finite false qu eu) (S754_finite false M_hundred (-46))) as Ew.
  { rewrite mul_spec, sub_spec, div_spec, add_spec, Prim2SF_two, Prim2SF_one,
      Prim2SF_hundred, Es, Et, Eu. reflexivity. }
  assert (fnonneg ((2 / (ad * ad + 1) - 1) * 100) /\
          fval ((2 / (ad * ad + 1) - 1) * 100) <= 100 * 2 ^ 1074) as [Nw Lw].
  { unfold fnonneg, fval. rewrite Ew, <- val_hundred.
    apply SFmul_le;
      [exact Vu | exact V100
      | right; exists qu, eu; reflexivity
      | right; exists M_hundred, (-46); reflexivity
      | exact M_hundred_range | lia | exact Lu | apply Z.le_refl]. }
  assert (2 ^ 1073 <= fval ((2 / (ad * ad + 1) - 1) * 100)) as Hw.
  { unfold fval, fnonneg in *. rewrite Ew in *.
    destruct (SFmul_low qu eu M_hundred (-46) (100 * (cT - 1048576) * 2 ^ 32) (-52)
                Vu V100 ltac:(apply unit_range; lia) ltac:(lia) ltac:(lia))
      as [Einf | (qw & ew & Eqw & L)].
    - rewrite val_unit, val_hundred, E1074.
      replace (100 * (cT - 1048576) * 2 ^ 1054 * (1048576 * 2 ^ 1054))
        with ((cT - 1048576) * 2 ^ 1054 * (100 * (1048576 * 2 ^ 1054))) by ring.
      apply Z.mul_le_mono_nonneg_r; [lia | exact Hu].
    - rewrite Einf in Nw. destruct Nw as [? | (? & ? & ?)]; discriminate.
    - rewrite Eqw. simpl. rewrite val_unit in L.
      rewrite pow_1073_unit. nia. }
  apply iround_ge_one; [exact Nw | unfold INT_MAX; lia | exact Lw | exact Hw].
Qed.

(** The chain of [a_quality] from a lower bound [dA] of [|altdiff|]:
    [altdiff^2 >= dP], [2 / (altdiff^2 + 1) <= eT], and the weight is 0
    when [100 * (eT - 1)] is less than one half. *)
Lemma altitude_weight_upper (ad : float) (dA dP eT : Z) :
  0 < dA < 1048576 -> 0 < dP -> 1048576 < eT ->
  dP * 1048576 <= dA * dA ->
  2097152 * 1048576 <= eT * (1048576 + dP) ->
  100 * (eT - 1048576) < 524288 ->
  (abs ad <? 1)%float = true -> dA * 2 ^ 1054 <= fval (abs ad) ->
  iround ((2 / (ad * ad + 1) - 1) * 100)%float = 0.
Proof.
  intros HdA HdP HeT HP HT HW Hin LA.
  pose proof pow_1074_unit as E1074.
  pose proof (pow2_pos 1054 ltac:(lia)) as HU.
  pose proof (Prim2SF_valid (abs ad)) as VA.
  pose proof (Prim2SF_valid 1) as V1. rewrite Prim2SF_one in V1.
  pose proof (Prim2SF_valid 2) as V2. rewrite Prim2SF_two in V2.
  pose proof (Prim2SF_valid 100) as V100. rewrite Prim2SF_hundred in V100.
  assert (-1074 <= -52 <= 971) as R52 by lia.
  destruct (fsquare_le ad Hin) as [Np Lp1].
  destruct (abs_lt_one ad Hin) as [NA LA1]. rewrite <- abs_spec in NA, LA1.
  unfold fnonneg, fval in *.
  destruct NA as [EA | (mA & eA & EA)]; rewrite EA in *;
    [change (SFval (S754_zero false)) with 0 in LA; nia |].
  change (SFval (S754_finite false mA eA)) with (val (Zpos mA) eA) in LA, LA1.
  rewrite val_one in LA1.
  assert (dP < 1048576) as HdP1 by nia.
  assert (val (Zpos mA) eA <= val (2 ^ 52) (-52)) as LA2.
  { change (val (2 ^ 52) (-52)) with (val (Zpos M_one) (-52)).
    rewrite val_one. exact LA1. }
  destruct (valid_le_one _ _ _ VA LA2) as [HeA _].
  (* p = altdiff * altdiff *)
  assert (Prim2SF (ad * ad) =
          SF64mul (S754_finite false mA eA) (S754_finite false mA eA)) as Ep.
  { rewrite mul_square_abs, mul_spec, EA. reflexivity. }
  pose proof (Prim2SF_valid (ad * ad)) as Vp.
  assert (exists mp ep, Prim2SF (ad * ad) = S754_finite false mp ep /\
                        dP * 2 ^ 1054 <= val (Zpos mp) ep) as (mp & ep & Ep' & Hp).
  { destruct (SFmul_low mA eA mA eA (dP * 2 ^ 32) (-52) VA VA
                ltac:(apply unit_range; lia) ltac:(lia) ltac:(lia))
      as [Einf | (mp & ep & Emp & L)].
    - rewrite val_unit, E1074.
      apply Z.le_trans with (dA * 2 ^ 1054 * (dA * 2 ^ 1054)).
      + apply unit_product_le; lia.
      + apply Z.mul_le_mono_nonneg; lia.
    - rewrite Ep, Einf in Np. destruct Np as [? | (? & ? & ?)]; discriminate.
    - exists mp, ep. rewrite Ep, Emp. split; [reflexivity |].
      rewrite val_unit in L. exact L. }
  rewrite Ep' in Vp, Np, Lp1.
  change (SFval (S754_finite false mp ep)) with (val (Zpos mp) ep) in Lp1.
  destruct (valid_le_one _ _ _ Vp Lp1) as [Hep _].
  (* s = p + 1 *)
  assert (val (Zpos M_one) (-52) <= val (2 ^ 52) (-52)) as H11 by apply Z.le_refl.
  destruct (SFadd_const _ M_one (-52) Vp V1 Np Lp1 H11) as (q & e3 & Es & Hs).
  pose proof (Prim2SF_valid (ad * ad + 1)) as Vs.
  rewrite add_spec, Prim2SF_one, Ep', Es in Vs.
  assert ((1048576 + dP) * 2 ^ 1054 <= val (Zpos q) e3) as Hs3.
  { destruct (SFadd_low mp ep M_one (-52) ((1048576 + dP) * 2 ^ 32) (-52) Vp V1
                ltac:(apply unit_range; lia) ltac:(lia) ltac:(lia))
      as [Einf | (q2 & e2 & Eq2 & L)].
    - rewrite val_unit, val_one, E1074. lia.
    - rewrite Es in Einf. discriminate.
    - rewrite Es in Eq2. injection Eq2 as <- <-.
      rewrite val_unit in L. exact L. }
  (* t = 2 / s *)
  destruct (SFdiv_two q e3 Vs Hs) as (q' & e' & Et & Ht1 & Ht2).
  pose proof (Prim2SF_valid (2 / (ad * ad + 1))) as Vt.
  rewrite div_spec, add_spec, Prim2SF_two, Prim2SF_one, Ep', Es, Et in Vt.
  assert (val (Zpos q') e' <= eT * 2 ^ 1054) as Ht3.
  { destruct (SFdiv_up (S754_finite false M_one (-51)) q e3 (eT * 2 ^ 32) (-52)
                V2 Vs ltac:(right; exists M_one, (-51); reflexivity)
                ltac:(apply unit_range; lia) R52) as [_ L].
    - change (SFval (S754_finite false M_one (-51))) with (val (Zpos M_one) (-51)).
      rewrite val_unit, val_two, E1074.
      apply Z.le_trans with (eT * 2 ^ 1054 * ((1048576 + dP) * 2 ^ 1054)).
      + replace (2 * (1048576 * 2 ^ 1054)) with (2097152 * 2 ^ 1054) by ring.
        apply unit_product_le; lia.
      + apply Z.mul_le_mono_nonneg_l; lia.
    - rewrite Et, val_unit in L. exact L. }
  (* u = t - 1 *)
  assert (SFnonneg (S754_finite false M_one (-52))) as N1
    by (right; exists M_one, (-52); reflexivity).
  assert (SFval (S754_finite false M_one (-52)) <= val (Zpos q') e') as Hge
    by exact Ht1.
  assert (val (Zpos q') e' - SFval (S754_finite false M_one (-52)) <=
          val ((eT - 1048576) * 2 ^ 32) (-52)) as Hdiff.
  { change (SFval (S754_finite false M_one (-52))) with (val (Zpos M_one) (-52)).
    rewrite val_unit, val_one, E1074. lia. }
  assert (forall my ey, S754_finite false M_one (-52) = S754_finite false my ey ->
                        Z.min e' ey <= -52) as Hmin.
  { intros my ey E. injection E as _ <-. lia. }
  destruct (SFsub_le q' e' _ ((eT - 1048576) * 2 ^ 32) (-52) Vt V1 N1
              ltac:(apply unit_range; lia) R52 Hge Hdiff Hmin) as [Nu Lu].
  rewrite val_unit in Lu.
  set (u := SF64sub (S754_finite false q' e') (S754_finite false M_one (-52))) in *.
  pose proof (Prim2SF_valid (2 / (ad * ad + 1) - 1)) as Vu.
  rewrite sub_spec, div_spec, add_spec, Prim2SF_two, Prim2SF_one, Ep', Es, Et in Vu.
  fold u in Vu.
  (* w = u * 100 *)
  assert (Prim2SF ((2 / (ad * ad + 1) - 1) * 100) =
          SF64mul u (S754_finite false M_hundred (-46))) as Ew.
  { rewrite mul_spec, sub_spec, div_spec, add_spec, Prim2SF_two, Prim2SF_one,
      Prim2SF_hundred, Ep', Es, Et. reflexivity. }
  assert (SFnonneg (SF64mul u (S754_finite false M_hundred (-46))) /\
          SFval (SF64mul u (S754_finite false M_hundred (-46))) <=
          100 * (eT - 1048576) * 2 ^ 1054) as [Nw Lw].
  { rewrite <- val_unit.
    apply SFmul_up;
      [exact Vu | exact V100 | exact Nu
      | right; exists M_hundred, (-46); reflexivity
      | apply unit_range; lia | exact R52 | |].
    - intros mx ex my ey Ex Ey. injection Ey as _ <-.
      rewrite Ex in Vu, Lu.
      change (SFval (S754_finite false mx ex)) with (val (Zpos mx) ex) in Lu.
      assert (val (Zpos mx) ex <= val (2 ^ 52) (-52)) as Lu1.
      { change (val (2 ^ 52) (-52)) with (val (Zpos M_one) (-52)).
        rewrite val_one, E1074. nia. }
      destruct (valid_le_one _ _ _ Vu Lu1) as [Hex _]. lia.
    - change (SFval (S754_finite false M_hundred (-46)))
        with (val (Zpos M_hundred) (-46)).
      rewrite val_unit, val_hundred, E1074.
      replace (100 * (eT - 1048576) * 2 ^ 1054 * (1048576 * 2 ^ 1054))
        with ((eT - 1048576) * 2 ^ 1054 * (100 * (1048576 * 2 ^ 1054))) by ring.
      apply Z.mul_le_mono_nonneg_r; [lia | exact Lu]. }
  apply iround_zero; unfold fnonneg, fval; rewrite Ew; [exact Nw |].
  rewrite pow_1073_unit. nia.
Qed.

(** *** The window and the weights near and far from the query *)

Lemma Prim2SF_near : Prim2SF 995 = S754_finite false M_near (-43).
Proof. reflexivity. Qed.

Lemma Prim2SF_far : Prim2SF 996 = S754_finite false M_far (-43).
Proof. reflexivity. Qed.

Lemma val_near : val (Zpos M_near) (-43) = 995 * 2 ^ 1074.
Proof.
  change (Zpos M_near) with (995 * 2 ^ 43).
  apply (val_integer 995 43). lia.
Qed.

Lemma val_far : val (Zpos M_far) (-43) = 996 * 2 ^ 1074.
Proof.
  change (Zpos M_far) with (996 * 2 ^ 43).
  apply (val_integer 996 43). lia.
Qed.

Lemma abs_le_near (d : float) :
  (abs d <=? 995)%float = true ->
  fnonneg (abs d) /\ fval (abs d) <= 995 * 2 ^ 1074.
Proof.
  unfold fnonneg, fval. rewrite leb_spec, abs_spec, Prim2SF_near.
  pose proof (Prim2SF_valid d) as V.
  pose proof (Prim2SF_valid 995) as Vn. rewrite Prim2SF_near in Vn.
  pose proof (pow2_pos 1074 ltac:(lia)) as HU.
  destruct (Prim2SF d) as [s | s | | s m e]; intros H.
  - split; [left; reflexivity |]. simpl. lia.
  - destruct s; discriminate.
  - discriminate.
  - split; [right; exists m, e; reflexivity |].
    simpl. rewrite <- val_near.
    apply SFleb_val; [destruct s; exact V | exact Vn | exact H].
Qed.

Lemma abs_altdiff (alt : float) (m : WindMeasurement) :
  abs (altdiff alt m) = (abs (alt - altitude m) / double_of_Z altRange)%float.
Proof. unfold altdiff. rewrite mul_one. apply abs_div_altRange. Qed.

(** [altdiff] is at most 1043334 / 2^20 in absolute value for a sample at
    most 995 away. *)
Lemma altdiff_near (alt : float) (m : WindMeasurement) :
  (abs (alt - altitude m) <=? 995)%float = true ->
  fnonneg (abs (altdiff alt m)) /\
  fval (abs (altdiff alt m)) <= 1043334 * 2 ^ 1054.
Proof.
  intros H. destruct (abs_le_near _ H) as [NX LX].
  rewrite abs_altdiff. unfold fnonneg, fval in *.
  rewrite div_spec, Prim2SF_altRange_eq.
  pose proof (Prim2SF_valid (abs (alt - altitude m))) as VX.
  pose proof (Prim2SF_valid (double_of_Z altRange)) as Vy.
  rewrite Prim2SF_altRange_eq in Vy.
  pose proof (pow2_pos 1054 ltac:(lia)) as HU.
  assert (-1074 <= -52 <= 971) as R52 by lia.
  rewrite <- val_unit.
  apply SFdiv_up; try assumption; [apply unit_range; lia |].
  rewrite val_unit, val_altRange, pow_1074_unit in *.
  apply Z.le_trans with (995 * (1048576 * 2 ^ 1054) * (1048576 * 2 ^ 1054)).
  - apply Z.mul_le_mono_nonneg_r; lia.
  - replace (995 * (1048576 * 2 ^ 1054) * (1048576 * 2 ^ 1054))
      with (1043333120 * 2 ^ 1054 * (1048576 * 2 ^ 1054)) by ring.
    replace (1043334 * 2 ^ 1054 * (1000 * (1048576 * 2 ^ 1054)))
      with (1043334000 * 2 ^ 1054 * (1048576 * 2 ^ 1054)) by ring.
    apply unit_product_le; lia.
Qed.

(** [altdiff] is at least 1044381 / 2^20 in absolute value for a sample
    in the window that is at least 996 away. *)
Lemma altdiff_far (alt : float) (m : WindMeasurement) :
  (996 <=? abs (alt - altitude m))%float = true ->
  (abs (altdiff alt m) <? 1)%float = true ->
  1044381 * 2 ^ 1054 <= fval (abs (altdiff alt m)).
Proof.
  intros Hfar Hin.
  assert ((abs (alt - altitude m) <? double_of_Z altRange)%float = true) as Hlt.
  { rewrite <- div_altRange_window. unfold altdiff in Hin.
    rewrite mul_one in Hin. exact Hin. }
  rewrite abs_altdiff in Hin |- *.
  unfold fval. rewrite ltb_spec in Hin.
  rewrite div_spec, Prim2SF_altRange_eq in Hin |- *.
  rewrite leb_spec, Prim2SF_far in Hfar.
  rewrite ltb_spec, Prim2SF_altRange_eq in Hlt.
  pose proof (Prim2SF_valid (abs (alt - altitude m))) as VX.
  pose proof (Prim2SF_valid (double_of_Z altRange)) as Vy.
  rewrite Prim2SF_altRange_eq in Vy.
  pose proof (Prim2SF_valid 996) as Vf. rewrite Prim2SF_far in Vf.
  pose proof (pow2_pos 1054 ltac:(lia)) as HU.
  pose proof pow_1074_unit as E1074.
  rewrite abs_spec in *.
  destruct (Prim2SF (alt - altitude m)) as [s | s | | s mX eX];
    try (destruct s; discriminate); try discriminate.
  change (SFabs (S754_finite s mX eX)) with (S754_finite false mX eX) in *.
  apply SFleb_val in Hfar; [| exact Vf | exact VX].
  apply SFltb_val_lt in Hlt; [| exact VX | exact Vy].
  rewrite val_far in Hfar. rewrite val_altRange in Hlt.
  (* the exponent of the difference is -43 *)
  assert (eX = -43) as ->.
  { assert (0 < Zpos M_altRange < 2 ^ 53) as RM by (split; reflexivity).
    assert (val (Zpos mX) eX <= val (Zpos M_altRange) (-43)) as Hle
      by (rewrite val_altRange; lia).
    assert (-1074 <= -43) as H43 by lia.
    destruct (valid_le_scaled false mX eX (Zpos M_altRange) (-43) VX RM H43 Hle)
      as [Hup _].
    assert (-43 <= eX); [| lia].
    apply (valid_ge_scaled false mX eX (-43) VX); [lia |].
    assert (val (2 ^ 52) (-43) = 512 * 2 ^ 1074) as ->
      by (apply (val_integer 512 43); lia).
    lia. }
  assert (div_exponent mX (-43) M_altRange (-43) <= -52) as Hde.
  { unfold div_exponent. rewrite (valid_digits _ _ _ VX) by lia.
    change (Zpos (digits2_pos M_altRange)) with 53. rewrite fexp_eq. lia. }
  destruct (SFdiv_low mX (-43) M_altRange (-43) (1044381 * 2 ^ 32) (-52) VX Vy
              ltac:(apply unit_range; lia) ltac:(lia) Hde)
    as [Einf | (q & e3 & Eq & L)].
  - rewrite val_unit, val_altRange, E1074.
    apply Z.le_trans with (996 * (1048576 * 2 ^ 1054) * (1048576 * 2 ^ 1054)).
    + replace (1044381 * 2 ^ 1054 * (1000 * (1048576 * 2 ^ 1054)))
        with (1044381000 * 2 ^ 1054 * (1048576 * 2 ^ 1054)) by ring.
      replace (996 * (1048576 * 2 ^ 1054) * (1048576 * 2 ^ 1054))
        with (1044381696 * 2 ^ 1054 * (1048576 * 2 ^ 1054)) by ring.
      apply unit_product_le; lia.
    + apply Z.mul_le_mono_nonneg_r; lia.
  - rewrite Einf in Hin. discriminate.
  - rewrite Eq. rewrite val_unit in L. exact L.
Qed.

Lemma ltb_one_of_val (d : float) :
  fnonneg d -> fval d < 2 ^ 1074 -> (d <? 1)%float = true.
Proof.
  unfold fnonneg, fval. intros N L. rewrite ltb_spec, Prim2SF_one.
  pose proof (Prim2SF_valid d) as V.
  pose proof (Prim2SF_valid 1) as V1. rewrite Prim2SF_one in V1.
  destruct N as [E | (m & e & E)]; rewrite E in *; [reflexivity |].
  apply SFltb_of_val_lt; [exact V | exact V1 |].
  rewrite val_one. exact L.
Qed.

(** The altitude weight of a sample at most 995 away. *)
Lemma a_quality_near (alt : float) (m : WindMeasurement) :
  (abs (alt - altitude m) <=? 995)%float = true ->
  (abs (altdiff alt m) <? 1)%float = true /\ 1 <= a_quality alt m <= 100.
Proof.
  intros Halt. destruct (altdiff_near alt m Halt) as [NA LA].
  pose proof (pow2_pos 1054 ltac:(lia)) as HU.
  split.
  - apply ltb_one_of_val; [exact NA |]. rewrite pow_1074_unit. lia.
  - unfold a_quality. cbv zeta. rewrite double_of_Z_hundred.
    assert (1 <= iround ((2 / (altdiff alt m * altdiff alt m + 1) - 1) * 100)%float
            <= 100) as B.
    { apply (altitude_weight_lower (altdiff alt m) 1043334 1038119 1053830);
        try lia; assumption. }
    rewrite uint_wrap_small; [exact B | lia].
Qed.

(** The altitude weight of a sample in the window at least 996 away. *)
Lemma a_quality_far (alt : float) (m : WindMeasurement) :
  (996 <=? abs (alt - altitude m))%float = true ->
  (abs (altdiff alt m) <? 1)%float = true ->
  a_quality alt m = 0.
Proof.
  intros Hfar Hin. pose proof (altdiff_far alt m Hfar Hin) as LA.
  unfold a_quality. cbv zeta. rewrite double_of_Z_hundred.
  rewrite (altitude_weight_upper (altdiff alt m) 1044381 1040202 1052780);
    try lia; try assumption.
  reflexivity.
Qed.

Lemma sample_quality_no_altitude_weight (now : Z) (alt : float) (m : WindMeasurement) :
  a_quality alt m = 0 -> sample_quality now alt m = 0.
Proof.
  intros H. unfold sample_quality. rewrite H, Z.mul_0_l.
  change (uint_wrap 0) with 0. rewrite Z.mul_0_r. reflexivity.
Qed.

Lemma total_weight_all_zero (now : Z) (alt : float) (l : list WindMeasurement) :
  Forall (fun m => in_range now alt m = true -> sample_quality now alt m = 0) l ->
  total_weight now alt l = 0.
Proof.
  unfold total_weight, contributing.
  induction 1 as [| m l Hm Hl IH]; [reflexivity |].
  simpl. destruct (in_range now alt m) eqn:E; [| exact IH].
  simpl. rewrite (Hm eq_refl), IH. reflexivity.
Qed.

(** ** The reach of a sample *)

(** X24.  The altitude weight against the altitude difference
    [alt - m->altitude] as computed in [double]: a sample at most 995 away
    passes the altitude test and has an altitude weight between 1 and
    100; a sample at least 996 but less than 1000 away passes the
    altitude test with the altitude weight 0, and so with the combined
    weight 0 at every time. *)
Theorem altitude_weight_profile (alt : float) (m : WindMeasurement) :
  let d := abs (alt - altitude m) in
  ((d <=? 995)%float = true ->
   (abs (altdiff alt m) <? 1)%float = true /\ 1 <= a_quality alt m <= 100) /\
  ((996 <=? d)%float = true -> (d <? 1000)%float = true ->
   (abs (altdiff alt m) <? 1)%float = true /\ a_quality alt m = 0 /\
   forall now : Z, sample_quality now alt m = 0).
Proof.
  intros d. split.
  - apply a_quality_near.
  - intros Hfar Hlt.
    assert ((abs (altdiff alt m) <? 1)%float = true) as Hin.
    { unfold altdiff. rewrite mul_one, div_altRange_window. exact Hlt. }
    pose proof (a_quality_far alt m Hfar Hin) as Ha.
    split; [exact Hin |]. split; [exact Ha |].
    intros now. apply sample_quality_no_altitude_weight, Ha.
Qed.

Lemma altitude_weight_profile_witness :
  (abs (1400 - altitude sample_in_window) <=? 995)%float = true /\
  1 <= a_quality 1400 sample_in_window <= 100 /\
  (996 <=? abs (1497 - altitude sample_in_window))%float = true /\
  (abs (1497 - altitude sample_in_window) <? 1000)%float = true /\
  in_range 100 1497 sample_in_window = true /\
  sample_quality 100 1497 sample_in_window = 0.
Proof.
  assert ((abs (1400 - altitude sample_in_window) <=? 995)%float = true) as Hnear
    by (vm_compute; reflexivity).
  assert ((996 <=? abs (1497 - altitude sample_in_window))%float = true) as Hfar
    by (vm_compute; reflexivity).
  assert ((abs (1497 - altitude sample_in_window) <? 1000)%float = true) as Hlt
    by (vm_compute; reflexivity).
  split; [exact Hnear |]. split.
  - exact (proj2 (proj1 (altitude_weight_profile 1400 sample_in_window) Hnear)).
  - split; [exact Hfar |]. split; [exact Hlt |]. split; [vm_compute; reflexivity |].
    exact (proj2 (proj2 (proj2 (altitude_weight_profile 1497 sample_in_window)
                           Hfar Hlt)) 100).
Defined.

(** X25.  When every stored sample is more than 2220 time units from the
    reference time or at least 996 from the query altitude (the
    difference as computed in [double]), [getWind] returns
    [found = false], although samples up to 3599 time units and less than
    1000 altitude units away pass the window test; the vector returned is
    (0, 0) when the stored vectors are finite. *)
Theorem distant_store_finds_nothing (Time alt : float) (s : WindMeasurementList) :
  Forall (fun m => 2220 < Z.abs (int_wrap (double_to_int Time - time m)) \/
                   (996 <=? abs (alt - altitude m))%float = true)
         (measurementlist s) ->
  snd (getWind Time alt s) = false /\
  (Forall finite_vector (measurementlist s) ->
   getWind Time alt s = (zero_vector, false)).
Proof.
  intros Hfar. set (now := double_to_int Time) in *.
  assert (total_weight now alt (measurementlist s) = 0) as HW.
  { apply total_weight_all_zero.
    apply (Forall_impl _ _ _ Hfar). intros m [Hm | Hm] Hin.
    - apply sample_quality_far. split; [exact Hm |].
      apply in_range_windows in Hin as [_ Ht].
      apply (time_in_window_iff (int_wrap (now - time m))); [apply abs_int_wrap |].
      exact Ht.
    - apply in_range_windows in Hin as [Ha _].
      apply sample_quality_no_altitude_weight, a_quality_far; assumption. }
  split.
  - rewrite getWind_found. fold now. rewrite HW. reflexivity.
  - intros Hfin. rewrite getWind_unfold. fold now. rewrite HW.
    change (0 <? uint_wrap 0) with false. cbv iota.
    pose proof (total_weight_zero now alt _ HW) as Hweights.
    unfold zero_vector, weighted_sum.
    rewrite !weighted_sum_zero; try exact Hweights; try reflexivity.
    + apply Forall_contributing.
      apply (Forall_impl _ _ _ Hfin). intros m Hm. apply Hm.
    + apply Forall_contributing.
      apply (Forall_impl _ _ _ Hfin). intros m Hm. apply Hm.
Qed.

Lemma distant_store_finds_nothing_witness :
  Forall (fun m => 2220 < Z.abs (int_wrap (double_to_int (-1200) - time m)) \/
                   (996 <=? abs (1497 - altitude m))%float = true)
         (measurementlist
            {| measurementlist := [sample_out_of_window; sample_in_window] |}) /\
  in_range (double_to_int (-1200)) 1497 sample_in_window = true /\
  getWind (-1200) 1497
          {| measurementlist := [sample_out_of_window; sample_in_window] |} =
  (zero_vector, false).
Proof.
  assert (Forall (fun m => 2220 < Z.abs (int_wrap (double_to_int (-1200) - time m)) \/
                           (996 <=? abs (1497 - altitude m))%float = true)
                 (measurementlist
                    {| measurementlist := [sample_out_of_window; sample_in_window] |}))
    as Hfar.
  { constructor; [left; vm_compute; reflexivity |].
    constructor; [right; vm_compute; reflexivity | constructor]. }
  split; [exact Hfar |]. split; [vm_compute; reflexivity |].
  apply (proj2 (distant_store_finds_nothing (-1200) 1497 _ Hfar)).
  repeat constructor; vm_compute; reflexivity.
Defined.

(** X26.  On a store within its capacity whose qualities lie between 0
    and 5, a sample of quality 1 or more that is at most 995 from the
    query in altitude (the difference as computed in [double]) and at
    most 2220 in time passes the window test with an altitude weight and
    a time weight of at least 1 and a combined weight of at least 20, and
    [getWind] returns [found = true]. *)
Theorem near_sample_is_found (Time alt : float) (s : WindMeasurementList)
    (m : WindMeasurement) :
  nummeasurementlist s <= MAX_MEASUREMENTS ->
  Forall (fun m => 0 <= quality m <= 5) (measurementlist s) ->
  m ∈ measurementlist s ->
  1 <= quality m ->
  (abs (alt - altitude m) <=? 995)%float = true ->
  Z.abs (int_wrap (double_to_int Time - time m)) <= 2220 ->
  let now := double_to_int Time in
  in_range now alt m = true /\
  1 <= a_quality alt m /\ 1 <= t_quality now m /\
  20 <= sample_quality now alt m /\
  snd (getWind Time alt s) = true.
Proof.
  intros Hn Hall Hm Hq Halt Htime now.
  destruct (a_quality_near alt m Halt) as [Hina Ha].
  assert (in_range now alt m = true) as Hin.
  { unfold in_range. apply andb_true_intro. split; [exact Hina |].
    apply (time_in_window_iff (int_wrap (now - time m)));
      [apply abs_int_wrap | fold now in Htime; lia]. }
  assert (1 <= t_quality now m <= 200) as Ht.
  { rewrite t_quality_distance by (fold now in Htime; lia).
    destruct (time_weight_row_at (Z.abs (int_wrap (now - time m)))
                ltac:(fold now in Htime; lia))
      as (_ & _ & _ & _ & _ & Hpos & Hle).
    split; [| exact Hle].
    assert (0 < time_weight (Z.abs (int_wrap (now - time m))))
      by (apply Hpos; exact Htime).
    lia. }
  pose proof (proj1 (Forall_forall _ _) Hall m Hm) as Hq5. cbv beta in Hq5.
  assert (20 <= sample_quality now alt m) as Hw.
  { destruct (sample_quality_product now alt m Hin ltac:(lia)) as [_ ->]. nia. }
  split; [exact Hin |]. split; [lia |]. split; [lia |]. split; [exact Hw |].
  pose proof (total_weight_capacity now alt s Hn Hall) as Hup.
  pose proof (total_weight_ge_elem now alt _ m Hm Hin) as Hlow.
  rewrite getWind_found. fold now.
  rewrite uint_wrap_small by (change (2 ^ 32) with (2 * 2 ^ 31); lia).
  apply Z.ltb_lt. lia.
Qed.

Lemma near_sample_is_found_witness :
  nummeasurementlist store_two_samples <= MAX_MEASUREMENTS /\
  Forall (fun m => 0 <= quality m <= 5) (measurementlist store_two_samples) /\
  new_measurement 10 {| x := 3; y := 4 |} 500 3 ∈ measurementlist store_two_samples /\
  (abs (1400 - altitude (new_measurement 10 {| x := 3; y := 4 |} 500 3)) <=? 995)%float
    = true /\
  Z.abs (int_wrap (double_to_int 2000 -
                   time (new_measurement 10 {| x := 3; y := 4 |} 500 3))) <= 2220 /\
  snd (getWind 2000 1400 store_two_samples) = true.
Proof.
  assert (nummeasurementlist store_two_samples <= MAX_MEASUREMENTS) as Hn
    by (vm_compute; discriminate).
  assert (Forall (fun m => 0 <= quality m <= 5) (measurementlist store_two_samples))
    as Hall by (vm_compute; repeat constructor; discriminate).
  assert (new_measurement 10 {| x := 3; y := 4 |} 500 3 ∈
          measurementlist store_two_samples) as Hm by apply list_elem_of_here.
  assert ((abs (1400 - altitude (new_measurement 10 {| x := 3; y := 4 |} 500 3))
           <=? 995)%float = true) as Halt by (vm_compute; reflexivity).
  assert (Z.abs (int_wrap (double_to_int 2000 -
                           time (new_measurement 10 {| x := 3; y := 4 |} 500 3)))
          <= 2220) as Htime by (vm_compute; discriminate).
  split; [exact Hn |]. split; [exact Hall |]. split; [exact Hm |].
  split; [exact Halt |]. split; [exact Htime |].
  exact (proj2 (proj2 (proj2 (proj2
           (near_sample_is_found 2000 1400 store_two_samples _ Hn Hall Hm
              ltac:(cbn; lia) Halt Htime))))).
Defined.
